(** * dbnode/storage/series: the per-series orchestrator ([dbSeries])

    A shallow embedding of [src/dbnode/storage/series/series.go] and the
    properties of its tick, load/bootstrap, flush, close and retrieval
    callbacks.

    Conventions.
    - Every method of [dbSeries] runs under the series lock; a method is
      embedded as one atomic transition on the series state.
    - Calls that leave the series (block close, buffer calls, Wired List
      updates, the series pool, the invariant logger) are recorded, in
      program order, in a list of [Event]s returned next to the new state.
    - [time.Time] and [xtime.UnixNano] are integers counting nanoseconds
      since the Unix epoch; [time.Duration] and Go's [int] are 64-bit and
      their wrap-around (or saturation) is written out.
    - Go leaves the iteration order of a map unspecified: the order is a
      parameter ([MapRange]) about which only "every entry exactly once" is
      known. *)

From Stdlib Require Import ZArith Lia String.
From stdpp Require Import base gmap list fin_maps sorting.

Local Open Scope Z_scope.

(** * Go integers and the [time] package *)

Module gotime.

Definition int64_min : Z := - 2 ^ 63.
Definition int64_max : Z := 2 ^ 63 - 1.

(** Two's complement reduction to 64 bits. *)
Definition wrap64 (z : Z) : Z := (z + 2 ^ 63) mod 2 ^ 64 - 2 ^ 63.

(** [a + b], [a++] and [a += b] on Go's [int] (64-bit). *)
Definition int_add (a b : Z) : Z := wrap64 (a + b).

(** Nanoseconds since the Unix epoch. *)
Abbreviation Time := Z.
(** [time.Duration]: an int64 count of nanoseconds. *)
Abbreviation Duration := Z.

(** Unary minus on a [Duration] (wraps at the minimum). *)
Definition Duration_neg (d : Duration) : Duration := wrap64 (- d).

(** [t.Add(d)]. *)
Definition Add (t : Time) (d : Duration) : Time := t + d.

(** [t.Sub(u)]: saturates at the ends of the [Duration] range. *)
Definition Sub (t u : Time) : Duration :=
  if t - u <? int64_min then int64_min
  else if int64_max <? t - u then int64_max
  else t - u.

(** [t.Before(u)]. *)
Definition Before (t u : Time) : bool := t <? u.

(** Seconds from January 1, year 1 (Go's zero time) to the Unix epoch. *)
Definition unixToInternal : Z := 62135596800.

(** [t.Truncate(d)]: round down to a multiple of [d] since the zero
    time; unchanged when [d <= 0]. *)
Definition Truncate (t : Time) (d : Duration) : Time :=
  if d <=? 0 then t
  else t - (t + unixToInternal * 1000000000) mod d.

End gotime.

Import gotime.

(** [xtime.UnixNano] and its conversions. *)
Abbreviation UnixNano := Z.
Definition ToTime (u : UnixNano) : Time := u.
Definition ToUnixNano (t : Time) : UnixNano := t.

(** * Collaborators outside the package

    The types the series only passes around, with the operation and the
    constants on them that [series.go] uses. *)

Class Collaborators : Type := {
  (** [ident.ID] *)
  ID : Type;
  (** [id.Equal(s.id)]; the series' own id is [nil] after [Close]. *)
  ID_Equal : ID -> option ID -> bool;
  (** [ident.Tags] and its zero value [ident.Tags{}]; [ident.TagIterator] *)
  Tags : Type;
  Tags_zero : Tags;
  TagIterator : Type;
  (** [ts.Segment] *)
  Segment : Type;
  (** [namespace.Context] *)
  NsContext : Type;
  (** [context.Context] *)
  Ctx : Type;
  (** [persist.DataFn] *)
  DataFn : Type;
  (** what a write carries besides its timestamp: the [float64] value,
      the [xtime.Unit], the annotation bytes and the [WriteOptions] *)
  Value : Type;
  TimeUnit : Type;
  Annotation : Type;
  WriteOptions : Type;
  (** [xio.BlockReader] *)
  BlockReader : Type;
  (** [FlushOutcome] and its constant [FlushOutcomeErr] *)
  FlushOutcome : Type;
  FlushOutcomeErr : FlushOutcome;
  (** errors that come back from the buffer or the persist function *)
  BufferError : Type;
  (** [QueryableBlockRetriever], [block.OnRetrieveBlock],
      [block.OnEvictedFromWiredList], [DatabaseSeriesPool] *)
  QueryableBlockRetriever : Type;
  OnRetrieveBlockHook : Type;
  OnEvictedFromWiredListHook : Type;
  DatabaseSeriesPool : Type;
}.

(** The package's error values. *)
Inductive error {C : Collaborators} : Type :=
| ErrSeriesAllDatapointsExpired
| errSeriesAlreadyBootstrapped
| errSeriesNotBootstrapped
| errBlockStateSnapshotNotBootstrapped
| errFromBuffer (e : BufferError).

Inductive bootstrapState : Type :=
| bootstrapNotStarted
| bootstrapped.

Definition bootstrapState_eqb (a b : bootstrapState) : bool :=
  match a, b with
  | bootstrapNotStarted, bootstrapNotStarted => true
  | bootstrapped, bootstrapped => true
  | _, _ => false
  end.

(** Modelled from the spec: the [CachePolicy] enumeration (declared in the
    package, outside series.go).  The four named policies, and
    [CachePolicyOther] for any other value of the underlying integer
    type. *)
Inductive CachePolicy : Type :=
| CacheNone
| CacheAll
| CacheRecentlyRead
| CacheLRU
| CachePolicyOther.

Definition CachePolicy_eqb (a b : CachePolicy) : bool :=
  match a, b with
  | CacheNone, CacheNone => true
  | CacheAll, CacheAll => true
  | CacheRecentlyRead, CacheRecentlyRead => true
  | CacheLRU, CacheLRU => true
  | CachePolicyOther, CachePolicyOther => true
  | _, _ => false
  end.

Inductive WriteType : Type :=
| WarmWrite
| ColdWrite.

(** What [series.go] reads from [Options]: the retention options, the
    cache policy and whether a Wired List is configured
    ([DatabaseBlockOptions().WiredList() != nil]).  The clock and the block
    pool are inputs of the calls that use them. *)
Record Options : Type := {
  RetentionPeriod : Duration;
  BlockSize : Duration;
  BlockDataExpiryAfterNotAccessedPeriod : Duration;
  CachePolicy_ : CachePolicy;
  WiredList : bool;
}.

(** * Blocks and the block cache *)

Module block.
Section Block.
Context {C : Collaborators}.

(** Modelled from the spec: [block.DatabaseBlock] (package [block] is
    outside series.go), with the attributes of the data model. *)
Record DatabaseBlock : Type := {
  StartTime : Time;
  blockSize : Duration;
  segment : Segment;
  seriesID : option ID;
  nsCtx : option NsContext;
  WasRetrievedFromDisk : bool;
  LastReadTime : Time;
  HasMergeTarget : bool;
  onEvictedFromWiredList : option OnEvictedFromWiredListHook;
}.

(** Modelled from the spec: [ResetFromDisk] re-initialises a pooled block
    for a start, a block size, a segment and an owner and marks it
    [retrievedFromDisk]. *)
Definition ResetFromDisk (b : DatabaseBlock) (start : Time)
    (size : Duration) (seg : Segment) (id : option ID) (ns : NsContext)
    : DatabaseBlock :=
  {| StartTime := start; blockSize := size; segment := seg;
     seriesID := id; nsCtx := Some ns;
     WasRetrievedFromDisk := true;
     LastReadTime := LastReadTime b;
     HasMergeTarget := HasMergeTarget b;
     onEvictedFromWiredList := onEvictedFromWiredList b |}.

Definition SetLastReadTime (b : DatabaseBlock) (t : Time) : DatabaseBlock :=
  {| StartTime := StartTime b; blockSize := blockSize b;
     segment := segment b; seriesID := seriesID b; nsCtx := nsCtx b;
     WasRetrievedFromDisk := WasRetrievedFromDisk b;
     LastReadTime := t;
     HasMergeTarget := HasMergeTarget b;
     onEvictedFromWiredList := onEvictedFromWiredList b |}.

Definition SetOnEvictedFromWiredList (b : DatabaseBlock)
    (h : option OnEvictedFromWiredListHook) : DatabaseBlock :=
  {| StartTime := StartTime b; blockSize := blockSize b;
     segment := segment b; seriesID := seriesID b; nsCtx := nsCtx b;
     WasRetrievedFromDisk := WasRetrievedFromDisk b;
     LastReadTime := LastReadTime b;
     HasMergeTarget := HasMergeTarget b;
     onEvictedFromWiredList := h |}.

(** Modelled from the spec: [block.DatabaseSeriesBlocks], a mapping from
    block start to block with unique keys. *)
Abbreviation DatabaseSeriesBlocks := (gmap UnixNano DatabaseBlock).

Definition AddBlock (b : DatabaseBlock) (m : DatabaseSeriesBlocks)
    : DatabaseSeriesBlocks :=
  <[ToUnixNano (StartTime b) := b]> m.

Definition BlockAt (t : Time) (m : DatabaseSeriesBlocks)
    : option DatabaseBlock :=
  m !! ToUnixNano t.

Definition RemoveBlockAt (t : Time) (m : DatabaseSeriesBlocks)
    : DatabaseSeriesBlocks :=
  delete (ToUnixNano t) m.

Definition Len (m : DatabaseSeriesBlocks) : Z := Z.of_nat (size m).

Definition Reset (m : DatabaseSeriesBlocks) : DatabaseSeriesBlocks := ∅.

(** Go's [range] over the map behind [AllBlocks()]: some enumeration of
    its entries, each exactly once. *)
Class MapRange : Type := {
  AllBlocks : DatabaseSeriesBlocks -> list (UnixNano * DatabaseBlock);
  AllBlocks_perm : forall m, AllBlocks m ≡ₚ map_to_list m;
}.

End Block.
End block.

Import block.
Abbreviation DatabaseSeriesBlocks := (gmap UnixNano DatabaseBlock).


(** * The block-state snapshot supplied by the shard *)

Record BlockState : Type := {
  WarmRetrievable : bool;
  ColdVersion : Z;
}.

(** The zero value a Go map returns for a missing key. *)
Definition BlockState_zero : BlockState :=
  {| WarmRetrievable := false; ColdVersion := 0 |}.

Record BootstrappedBlockStateSnapshot : Type :=
  mkBootstrappedBlockStateSnapshot {
    Snapshot : gmap UnixNano BlockState;
  }.

(** [blockStates.Snapshot[k]] *)
Definition Snapshot_at (bss : BootstrappedBlockStateSnapshot) (k : UnixNano)
    : BlockState :=
  default BlockState_zero (Snapshot bss !! k).

Record ShardBlockStateSnapshot : Type := {
  snapshot_bootstrapped : bool;
  snapshot_value : BootstrappedBlockStateSnapshot;
}.

Definition UnwrapValue (s : ShardBlockStateSnapshot)
    : BootstrappedBlockStateSnapshot * bool :=
  (snapshot_value s, snapshot_bootstrapped s).

(** * The write buffer, as the interface the series calls *)

(** [OptimizedTimes]: the block starts the buffer evicted in a tick. *)
Abbreviation OptimizedTimes := (list UnixNano).

Definition Contains (ts : OptimizedTimes) (t : UnixNano) : bool :=
  bool_decide (t ∈ ts).

Definition OptimizedTimes_Len (ts : OptimizedTimes) : Z :=
  Z.of_nat (length ts).

Record bufferTickResult : Type := {
  mergedOutOfOrderBlocks : Z;
  evictedBucketTimes : OptimizedTimes;
}.

Record bufferStats : Type := {
  wiredBlocks : Z;
}.

Class databaseBuffer {C : Collaborators} (B : Type) : Type := {
  buffer_Tick : B -> ShardBlockStateSnapshot -> NsContext ->
                B * bufferTickResult;
  buffer_Stats : B -> bufferStats;
  buffer_IsEmpty : B -> bool;
  buffer_Load : B -> DatabaseBlock -> WriteType -> B;
  buffer_WarmFlush : B -> Ctx -> Time -> option ID -> Tags -> DataFn ->
                     NsContext -> B * (FlushOutcome * option error);
  buffer_Snapshot : B -> Ctx -> Time -> option ID -> Tags -> DataFn ->
                    NsContext -> B * option error;
  buffer_Reset : B -> option ID -> Options -> B;
  buffer_Write : B -> Ctx -> Time -> Value -> TimeUnit -> Annotation ->
                 WriteOptions -> B * (bool * option error);
  buffer_FetchBlocksForColdFlush :
    B -> Ctx -> Time -> Z -> NsContext ->
    B * (list BlockReader * option error);
  buffer_ColdFlushBlockStarts :
    B -> gmap UnixNano BlockState -> OptimizedTimes;
}.

(** * Calls that leave the series *)

Inductive Event {C : Collaborators} : Type :=
(** [Close()] on the block cached under the given start *)
| BlockClose (start : UnixNano) (b : DatabaseBlock)
| BufferTick (blockStates : ShardBlockStateSnapshot)
| BufferLoad (b : DatabaseBlock) (wt : WriteType)
| BufferWarmFlush (blockStart : Time) (id : option ID) (tags : Tags)
    (persistFn : DataFn)
| BufferSnapshot (blockStart : Time) (id : option ID) (tags : Tags)
    (persistFn : DataFn)
| BufferReset (id : option ID)
| BufferWrite (timestamp : Time) (value : Value) (unit_ : TimeUnit)
    (annotation : Annotation) (wOpts : WriteOptions)
| BufferFetchBlocksForColdFlush (start : Time) (version : Z)
(** [list.BlockingUpdate(b)] and [list.NonBlockingUpdate(b)] on the
    Wired List *)
| WiredListBlockingUpdate (b : DatabaseBlock)
| WiredListNonBlockingUpdate (b : DatabaseBlock)
(** [instrument.EmitAndLogInvariantViolation] *)
| InvariantViolation (id : ID) (blockStart : Time)
(** [s.pool.Put(s)] *)
| SeriesPoolPut (p : DatabaseSeriesPool).

(** How a call ends: it returns, or the process stops in
    [Logger().Fatal], or it panics on a nil [DatabaseSeriesBlocks]. *)
Inductive Outcome (A : Type) : Type :=
| Returned (a : A)
| Fatal
| Panic.
Arguments Returned {A} a.
Arguments Fatal {A}.
Arguments Panic {A}.

(** Sequencing: the rest of a call runs only if the first part returned.
    This gives the notation [x ← m; k]. *)
#[global] Instance Outcome_bind : MBind Outcome :=
  fun A C (k : A -> Outcome C) (m : Outcome A) =>
    match m with
    | Returned a => k a
    | Fatal => Fatal
    | Panic => Panic
    end.

(** * The series *)

Module series.
Section Series.
Context {C : Collaborators} {R : MapRange} {B : Type} {DB : databaseBuffer B}.

Record dbSeries : Type := {
  opts : Options;
  id : option ID;
  tags : Tags;
  buffer : B;
  cachedBlocks : DatabaseSeriesBlocks;
  bs : bootstrapState;
  blockRetriever : option QueryableBlockRetriever;
  onRetrieveBlock : option OnRetrieveBlockHook;
  blockOnEvictedFromWiredList : option OnEvictedFromWiredListHook;
  pool : option DatabaseSeriesPool;
}.

Definition set_buffer (s : dbSeries) (b : B) : dbSeries :=
  {| opts := opts s; id := id s; tags := tags s; buffer := b;
     cachedBlocks := cachedBlocks s; bs := bs s;
     blockRetriever := blockRetriever s;
     onRetrieveBlock := onRetrieveBlock s;
     blockOnEvictedFromWiredList := blockOnEvictedFromWiredList s;
     pool := pool s |}.

Definition set_cachedBlocks (s : dbSeries) (m : DatabaseSeriesBlocks)
    : dbSeries :=
  {| opts := opts s; id := id s; tags := tags s; buffer := buffer s;
     cachedBlocks := m; bs := bs s;
     blockRetriever := blockRetriever s;
     onRetrieveBlock := onRetrieveBlock s;
     blockOnEvictedFromWiredList := blockOnEvictedFromWiredList s;
     pool := pool s |}.

Definition set_bs (s : dbSeries) (st : bootstrapState) : dbSeries :=
  {| opts := opts s; id := id s; tags := tags s; buffer := buffer s;
     cachedBlocks := cachedBlocks s; bs := st;
     blockRetriever := blockRetriever s;
     onRetrieveBlock := onRetrieveBlock s;
     blockOnEvictedFromWiredList := blockOnEvictedFromWiredList s;
     pool := pool s |}.

Definition set_identity (s : dbSeries) (i : option ID) (t : Tags)
    : dbSeries :=
  {| opts := opts s; id := i; tags := t; buffer := buffer s;
     cachedBlocks := cachedBlocks s; bs := bs s;
     blockRetriever := blockRetriever s;
     onRetrieveBlock := onRetrieveBlock s;
     blockOnEvictedFromWiredList := blockOnEvictedFromWiredList s;
     pool := pool s |}.

(** ** Tick *)

Record TickStatus : Type := {
  ActiveBlocks : Z;
  WiredBlocks : Z;
  UnwiredBlocks : Z;
  PendingMergeBlocks : Z;
}.

Record TickResult : Type := {
  TickResult_TickStatus : TickStatus;
  MadeExpiredBlocks : Z;
  MadeUnwiredBlocks : Z;
  MergedOutOfOrderBlocks : Z;
  EvictedBuckets : Z;
}.

Record updateBlocksResult : Type := {
  update_TickStatus : TickStatus;
  madeExpiredBlocks : Z;
  madeUnwiredBlocks : Z;
}.

Definition TickStatus_zero : TickStatus :=
  {| ActiveBlocks := 0; WiredBlocks := 0; UnwiredBlocks := 0;
     PendingMergeBlocks := 0 |}.

Definition updateBlocksResult_zero : updateBlocksResult :=
  {| update_TickStatus := TickStatus_zero;
     madeExpiredBlocks := 0; madeUnwiredBlocks := 0 |}.

Definition incr_ActiveBlocks (n : Z) (r : updateBlocksResult)
    : updateBlocksResult :=
  let ts := update_TickStatus r in
  {| update_TickStatus :=
       {| ActiveBlocks := int_add (ActiveBlocks ts) n;
          WiredBlocks := WiredBlocks ts;
          UnwiredBlocks := UnwiredBlocks ts;
          PendingMergeBlocks := PendingMergeBlocks ts |};
     madeExpiredBlocks := madeExpiredBlocks r;
     madeUnwiredBlocks := madeUnwiredBlocks r |}.

Definition incr_WiredBlocks (n : Z) (r : updateBlocksResult)
    : updateBlocksResult :=
  let ts := update_TickStatus r in
  {| update_TickStatus :=
       {| ActiveBlocks := ActiveBlocks ts;
          WiredBlocks := int_add (WiredBlocks ts) n;
          UnwiredBlocks := UnwiredBlocks ts;
          PendingMergeBlocks := PendingMergeBlocks ts |};
     madeExpiredBlocks := madeExpiredBlocks r;
     madeUnwiredBlocks := madeUnwiredBlocks r |}.

Definition incr_UnwiredBlocks (r : updateBlocksResult)
    : updateBlocksResult :=
  let ts := update_TickStatus r in
  {| update_TickStatus :=
       {| ActiveBlocks := ActiveBlocks ts;
          WiredBlocks := WiredBlocks ts;
          UnwiredBlocks := int_add (UnwiredBlocks ts) 1;
          PendingMergeBlocks := PendingMergeBlocks ts |};
     madeExpiredBlocks := madeExpiredBlocks r;
     madeUnwiredBlocks := madeUnwiredBlocks r |}.

Definition incr_PendingMergeBlocks (r : updateBlocksResult)
    : updateBlocksResult :=
  let ts := update_TickStatus r in
  {| update_TickStatus :=
       {| ActiveBlocks := ActiveBlocks ts;
          WiredBlocks := WiredBlocks ts;
          UnwiredBlocks := UnwiredBlocks ts;
          PendingMergeBlocks := int_add (PendingMergeBlocks ts) 1 |};
     madeExpiredBlocks := madeExpiredBlocks r;
     madeUnwiredBlocks := madeUnwiredBlocks r |}.

Definition incr_madeExpiredBlocks (r : updateBlocksResult)
    : updateBlocksResult :=
  {| update_TickStatus := update_TickStatus r;
     madeExpiredBlocks := int_add (madeExpiredBlocks r) 1;
     madeUnwiredBlocks := madeUnwiredBlocks r |}.

Definition incr_madeUnwiredBlocks (r : updateBlocksResult)
    : updateBlocksResult :=
  {| update_TickStatus := update_TickStatus r;
     madeExpiredBlocks := madeExpiredBlocks r;
     madeUnwiredBlocks := int_add (madeUnwiredBlocks r) 1 |}.

(** What the loop of [updateBlocksWithLock] carries from one cached block
    to the next: the cache, the counters and the calls made so far. *)
Record tickLoop : Type := {
  loop_blocks : DatabaseSeriesBlocks;
  loop_result : updateBlocksResult;
  loop_events : list Event;
}.

(** The value of [shouldUnwire]: the [switch cachePolicy] inside the
    [bootstrapped] and [WarmRetrievable] guards.  Its [default] case, which
    takes every policy without a case of its own, ends in
    [Logger().Fatal]. *)
Definition shouldUnwire (cachePolicy : CachePolicy) (now : Time)
    (wiredTimeout : Duration) (blockStates : ShardBlockStateSnapshot)
    (startNano : UnixNano) (currBlock : DatabaseBlock) : Outcome bool :=
  let '(blockStatesSnapshot, isBootstrapped) := UnwrapValue blockStates in
  if isBootstrapped then
    if WarmRetrievable (Snapshot_at blockStatesSnapshot startNano) then
      match cachePolicy with
      | CacheNone => Returned true
      | CacheRecentlyRead =>
          let sinceLastRead := Sub now (LastReadTime currBlock) in
          Returned (wiredTimeout <=? sinceLastRead)
      | CacheLRU => Returned (negb (WasRetrievedFromDisk currBlock))
      | CacheAll | CachePolicyOther => Fatal
      end
    else Returned false
  else Returned false.

(** One iteration of the loop of [updateBlocksWithLock], for the values
    [cachePolicy], [now], [expireCutoff] and [wiredTimeout] computed before
    the loop. *)
Definition updateBlock (cachePolicy : CachePolicy) (now expireCutoff : Time)
    (wiredTimeout : Duration) (blockStates : ShardBlockStateSnapshot)
    (evictedBucketTimes_ : OptimizedTimes)
    (st : tickLoop) (entry : UnixNano * DatabaseBlock) : Outcome tickLoop :=
  let '(startNano, currBlock) := entry in
  let start := ToTime startNano in
  if Before start expireCutoff
     || Contains evictedBucketTimes_ (ToUnixNano start) then
    let blocks := RemoveBlockAt start (loop_blocks st) in
    let closes :=
      if CachePolicy_eqb cachePolicy CacheLRU
         && WasRetrievedFromDisk currBlock
      then []
      else [BlockClose startNano currBlock] in
    Returned {| loop_blocks := blocks;
                loop_result := incr_madeExpiredBlocks (loop_result st);
                loop_events := loop_events st ++ closes |}
  else
    let result := incr_ActiveBlocks 1 (loop_result st) in
    if CachePolicy_eqb cachePolicy CacheAll then
      Returned {| loop_blocks := loop_blocks st;
                  loop_result := incr_WiredBlocks 1 result;
                  loop_events := loop_events st |}
    else
      unwire ← shouldUnwire cachePolicy now wiredTimeout blockStates
                 startNano currBlock;
      if unwire : bool then
        Returned {| loop_blocks := RemoveBlockAt start (loop_blocks st);
                    loop_result :=
                      incr_UnwiredBlocks (incr_madeUnwiredBlocks result);
                    loop_events :=
                      loop_events st ++ [BlockClose startNano currBlock] |}
      else
        let result := incr_WiredBlocks 1 result in
        let result :=
          if HasMergeTarget currBlock then incr_PendingMergeBlocks result
          else result in
        Returned {| loop_blocks := loop_blocks st;
                    loop_result := result;
                    loop_events := loop_events st |}.

Fixpoint updateBlocks_loop (cachePolicy : CachePolicy)
    (now expireCutoff : Time) (wiredTimeout : Duration)
    (blockStates : ShardBlockStateSnapshot)
    (evictedBucketTimes_ : OptimizedTimes)
    (entries : list (UnixNano * DatabaseBlock)) (st : tickLoop)
    : Outcome tickLoop :=
  match entries with
  | [] => Returned st
  | e :: rest =>
      st' ← updateBlock cachePolicy now expireCutoff wiredTimeout
              blockStates evictedBucketTimes_ st e;
      updateBlocks_loop cachePolicy now expireCutoff wiredTimeout
        blockStates evictedBucketTimes_ rest st'
  end.

(** [updateBlocksWithLock]; [now] is the reading of [s.now()].  The
    error it returns is always [nil]. *)
Definition updateBlocksWithLock (now : Time) (s : dbSeries)
    (blockStates : ShardBlockStateSnapshot)
    (evictedBucketTimes_ : OptimizedTimes)
    : Outcome (dbSeries * list Event * (updateBlocksResult * option error)) :=
  let ropts := opts s in
  let cachePolicy := CachePolicy_ (opts s) in
  let expireCutoff :=
    Truncate (Add now (Duration_neg (RetentionPeriod ropts)))
      (BlockSize ropts) in
  let wiredTimeout := BlockDataExpiryAfterNotAccessedPeriod ropts in
  st ← updateBlocks_loop cachePolicy now expireCutoff wiredTimeout
         blockStates evictedBucketTimes_
         (AllBlocks (cachedBlocks s))
         {| loop_blocks := cachedBlocks s;
            loop_result := updateBlocksResult_zero;
            loop_events := [] |};
  let bufferStats := buffer_Stats (buffer s) in
  let result := incr_ActiveBlocks (wiredBlocks bufferStats) (loop_result st) in
  let result := incr_WiredBlocks (wiredBlocks bufferStats) result in
  Returned (set_cachedBlocks s (loop_blocks st), loop_events st,
            (result, None)).

Definition Tick (now : Time) (s : dbSeries)
    (blockStates : ShardBlockStateSnapshot) (nsCtx : NsContext)
    : Outcome (dbSeries * list Event * (TickResult * option error)) :=
  let '(buf, bufferResult) := buffer_Tick (buffer s) blockStates nsCtx in
  let s := set_buffer s buf in
  let r_merged := mergedOutOfOrderBlocks bufferResult in
  let r_evicted := OptimizedTimes_Len (evictedBucketTimes bufferResult) in
 '(s, evs, (update, err)) ←
     updateBlocksWithLock now s blockStates
       (evictedBucketTimes bufferResult);
  let evs := BufferTick blockStates :: evs in
  match err with
  | Some e =>
      Returned (s, evs,
                ({| TickResult_TickStatus := TickStatus_zero;
                    MadeExpiredBlocks := 0; MadeUnwiredBlocks := 0;
                    MergedOutOfOrderBlocks := r_merged;
                    EvictedBuckets := r_evicted |}, Some e))
  | None =>
      let r := {| TickResult_TickStatus := update_TickStatus update;
                  MadeExpiredBlocks := madeExpiredBlocks update;
                  MadeUnwiredBlocks := madeUnwiredBlocks update;
                  MergedOutOfOrderBlocks := r_merged;
                  EvictedBuckets := r_evicted |} in
      if ActiveBlocks (update_TickStatus update) =? 0
      then Returned (s, evs, (r, Some ErrSeriesAllDatapointsExpired))
      else Returned (s, evs, (r, None))
  end.

(** ** Observers *)

Definition IsEmpty (s : dbSeries) : bool :=
  let blocksLen := Len (cachedBlocks s) in
  let bufferEmpty := buffer_IsEmpty (buffer s) in
  if (blocksLen =? 0) && bufferEmpty then true else false.

Definition NumActiveBlocks (s : dbSeries) : Z :=
  int_add (Len (cachedBlocks s)) (wiredBlocks (buffer_Stats (buffer s))).

Definition IsBootstrapped (s : dbSeries) : bool :=
  let state := bs s in
  bootstrapState_eqb state bootstrapped.

(** ** Writes and cold flush *)

Definition Write (s : dbSeries) (ctx : Ctx) (timestamp : Time)
    (value : Value) (unit_ : TimeUnit) (annotation : Annotation)
    (wOpts : WriteOptions) : dbSeries * list Event * (bool * option error) :=
  let '(buf, r) :=
    buffer_Write (buffer s) ctx timestamp value unit_ annotation wOpts in
  (set_buffer s buf, [BufferWrite timestamp value unit_ annotation wOpts], r).

Definition FetchBlocksForColdFlush (s : dbSeries) (ctx : Ctx) (start : Time)
    (version : Z) (nsCtx_ : NsContext)
    : dbSeries * list Event * (list BlockReader * option error) :=
  let '(buf, r) :=
    buffer_FetchBlocksForColdFlush (buffer s) ctx start version nsCtx_ in
  (set_buffer s buf, [BufferFetchBlocksForColdFlush start version], r).

Definition ColdFlushBlockStarts (s : dbSeries)
    (blockStates : BootstrappedBlockStateSnapshot) : OptimizedTimes :=
  buffer_ColdFlushBlockStarts (buffer s) (Snapshot blockStates).

(** ** Load and bootstrap *)

Record LoadOptions : Type := {
  Bootstrap : bool;
}.

Record BootstrapResult : Type := {
  NumBlocksMovedToBuffer : Z;
}.

Record LoadResult : Type := {
  LoadResult_Bootstrap : BootstrapResult;
}.

Definition BootstrapResult_zero : BootstrapResult :=
  {| NumBlocksMovedToBuffer := 0 |}.

Definition LoadResult_zero : LoadResult :=
  {| LoadResult_Bootstrap := BootstrapResult_zero |}.

(** One iteration of the loop of [loadWithLock]: the buffer and the calls
    so far, then the next block. *)
Definition loadBlock (blockStates : BootstrappedBlockStateSnapshot)
    (acc : B * list Event) (entry : UnixNano * DatabaseBlock)
    : B * list Event :=
  let block := entry.2 in
  let blStartNano := ToUnixNano (StartTime block) in
  let blState := Snapshot_at blockStates blStartNano in
  if negb (WarmRetrievable blState) then
    (buffer_Load acc.1 block WarmWrite, acc.2 ++ [BufferLoad block WarmWrite])
  else
    (buffer_Load acc.1 block ColdWrite, acc.2 ++ [BufferLoad block ColdWrite]).

Definition loadWithLock (s : dbSeries)
    (bootstrappedBlocks : DatabaseSeriesBlocks)
    (blockStates : BootstrappedBlockStateSnapshot) : dbSeries * list Event :=
  let '(buf, evs) :=
    foldl (loadBlock blockStates) (buffer s, [])
      (AllBlocks bootstrappedBlocks) in
  (set_buffer s buf, evs).

(** [bootstrap]; the deferred function sets [s.bs = bootstrapped] on every
    return path.  A nil [bootstrappedBlocks] is [None]. *)
Definition bootstrap (s : dbSeries)
    (bootstrappedBlocks : option DatabaseSeriesBlocks)
    (blockStates : BootstrappedBlockStateSnapshot)
    : dbSeries * list Event * (BootstrapResult * option error) :=
  let deferred (r : dbSeries * list Event * (BootstrapResult * option error)) :=
    let '(s, evs, res) := r in (set_bs s bootstrapped, evs, res) in
  let result := BootstrapResult_zero in
  deferred
    (if bootstrapState_eqb (bs s) bootstrapped then
       (s, [], (result, Some errSeriesAlreadyBootstrapped))
     else
       match bootstrappedBlocks with
       | None => (s, [], (result, None))
       | Some blocks =>
           let '(s, evs) := loadWithLock s blocks blockStates in
           let result :=
             {| NumBlocksMovedToBuffer :=
                  int_add (NumBlocksMovedToBuffer result) (Len blocks) |} in
           (s, evs, (result, None))
       end).

(** [load]: calls [AllBlocks] on its argument with no nil check. *)
Definition load (s : dbSeries)
    (bootstrappedBlocks : option DatabaseSeriesBlocks)
    (blockStates : BootstrappedBlockStateSnapshot)
    : Outcome (dbSeries * list Event) :=
  match bootstrappedBlocks with
  | None => Panic
  | Some blocks => Returned (loadWithLock s blocks blockStates)
  end.

Definition Load (lopts : LoadOptions) (s : dbSeries)
    (bootstrappedBlocks : option DatabaseSeriesBlocks)
    (blockStates : BootstrappedBlockStateSnapshot)
    : Outcome (dbSeries * list Event * (LoadResult * option error)) :=
  if Bootstrap lopts then
    let '(s, evs, (bsResult, err)) :=
      bootstrap s bootstrappedBlocks blockStates in
    Returned (s, evs, ({| LoadResult_Bootstrap := bsResult |}, err))
  else
    '(s, evs) ← load s bootstrappedBlocks blockStates;
    Returned (s, evs, (LoadResult_zero, None)).

(** ** The retrieval bridge *)

(** [addBlockWithLock]; also gives back the block as it is after
    [SetOnEvictedFromWiredList], which is the object later handed to the
    Wired List. *)
Definition addBlockWithLock (s : dbSeries) (b : DatabaseBlock)
    : dbSeries * DatabaseBlock :=
  let b := SetOnEvictedFromWiredList b (blockOnEvictedFromWiredList s) in
  (set_cachedBlocks s (AddBlock b (cachedBlocks s)), b).

(** [OnRetrieveBlock]; [now] is the reading of [s.now()] and [pooled] the
    block that [DatabaseBlockPool().Get()] hands out.  The deferred
    function makes the blocking Wired List update after the unlock, when a
    block was built and a list is configured. *)
Definition OnRetrieveBlock (now : Time) (pooled : DatabaseBlock)
    (s : dbSeries) (id_ : ID) (tags_ : TagIterator) (startTime : Time)
    (segment_ : Segment) (nsCtx_ : NsContext) : dbSeries * list Event :=
  if negb (ID_Equal id_ (id s)) then (s, [])
  else
    let b := pooled in
    let blockSize_ := BlockSize (opts s) in
    let b := ResetFromDisk b startTime blockSize_ segment_ (id s) nsCtx_ in
    let b := SetLastReadTime b now in
    let '(s, b) := addBlockWithLock s b in
    let list := WiredList (opts s) in
    (s, if list then [WiredListBlockingUpdate b] else []).

(** [OnReadBlock] touches no field of the series. *)
Definition OnReadBlock (s : dbSeries) (b : DatabaseBlock) : list Event :=
  if WiredList (opts s) then
    if WasRetrievedFromDisk b then [WiredListNonBlockingUpdate b] else []
  else [].

Definition OnEvictedFromWiredList (s : dbSeries) (id_ : ID)
    (blockStart : Time) : dbSeries * list Event :=
  if negb (ID_Equal id_ (id s)) then (s, [])
  else
    match BlockAt blockStart (cachedBlocks s) with
    | Some block =>
        if negb (WasRetrievedFromDisk block) then
          (s, [InvariantViolation id_ blockStart])
        else
          (set_cachedBlocks s (RemoveBlockAt blockStart (cachedBlocks s)), [])
    | None => (s, [])
    end.

(** ** Flush and snapshot *)

Definition WarmFlush (s : dbSeries) (ctx : Ctx) (blockStart : Time)
    (persistFn : DataFn) (nsCtx_ : NsContext)
    : dbSeries * list Event * (FlushOutcome * option error) :=
  if negb (bootstrapState_eqb (bs s) bootstrapped) then
    (s, [], (FlushOutcomeErr, Some errSeriesNotBootstrapped))
  else
    let '(buf, r) :=
      buffer_WarmFlush (buffer s) ctx blockStart (id s) (tags s)
        persistFn nsCtx_ in
    (set_buffer s buf, [BufferWarmFlush blockStart (id s) (tags s) persistFn],
     r).

Definition Snapshot (s : dbSeries) (ctx : Ctx) (blockStart : Time)
    (persistFn : DataFn) (nsCtx_ : NsContext)
    : dbSeries * list Event * option error :=
  if negb (bootstrapState_eqb (bs s) bootstrapped) then
    (s, [], Some errSeriesNotBootstrapped)
  else
    let '(buf, r) :=
      buffer_Snapshot (buffer s) ctx blockStart (id s) (tags s)
        persistFn nsCtx_ in
    (set_buffer s buf, [BufferSnapshot blockStart (id s) (tags s) persistFn],
     r).

(** ** Close and Reset *)

(** Modelled from the spec: [RemoveAll] of [block.DatabaseSeriesBlocks]
    closes every contained block and empties the mapping. *)
Definition RemoveAll (m : DatabaseSeriesBlocks)
    : DatabaseSeriesBlocks * list Event :=
  (∅, (fun e : UnixNano * DatabaseBlock => BlockClose e.1 e.2)
        <$> AllBlocks m).

Definition Close (s : dbSeries) : dbSeries * list Event :=
  let s := set_identity s None Tags_zero in
  let '(blocks, closes) :=
    match CachePolicy_ (opts s) with
    | CacheLRU => (cachedBlocks s, [])
    | _ => RemoveAll (cachedBlocks s)
    end in
  let s := set_cachedBlocks s blocks in
  let s := set_buffer s (buffer_Reset (buffer s) None (opts s)) in
  let s := set_cachedBlocks s (block.Reset (cachedBlocks s)) in
  let put :=
    match pool s with
    | Some p => [SeriesPoolPut p]
    | None => []
    end in
  (s, closes ++ [BufferReset None] ++ put).

Definition Reset (s : dbSeries) (id_ : option ID) (tags_ : Tags)
    (blockRetriever_ : option QueryableBlockRetriever)
    (onRetrieveBlock_ : option OnRetrieveBlockHook)
    (onEvictedFromWiredList_ : option OnEvictedFromWiredListHook)
    (opts_ : Options) : dbSeries * list Event :=
  ({| opts := opts_; id := id_; tags := tags_;
      buffer := buffer_Reset (buffer s) id_ opts_;
      cachedBlocks := block.Reset (cachedBlocks s);
      bs := bootstrapNotStarted;
      blockRetriever := blockRetriever_;
      onRetrieveBlock := onRetrieveBlock_;
      blockOnEvictedFromWiredList := onEvictedFromWiredList_;
      pool := pool s |},
   [BufferReset id_]).

(** ** Sequences of calls on one series instance

    The calls above that take the write lock, other than [Reset], with
    their arguments, and their effect on the series when run one after the
    other.  (The read-locked methods assign no field of the series.) *)

Inductive Call : Type :=
| CallTick (now : Time) (blockStates : ShardBlockStateSnapshot)
    (nsCtx_ : NsContext)
| CallLoad (lopts : LoadOptions)
    (bootstrappedBlocks : option DatabaseSeriesBlocks)
    (blockStates : BootstrappedBlockStateSnapshot)
| CallOnRetrieveBlock (now : Time) (pooled : DatabaseBlock) (id_ : ID)
    (tags_ : TagIterator) (startTime : Time) (segment_ : Segment)
    (nsCtx_ : NsContext)
| CallOnEvictedFromWiredList (id_ : ID) (blockStart : Time)
| CallWarmFlush (ctx : Ctx) (blockStart : Time) (persistFn : DataFn)
    (nsCtx_ : NsContext)
| CallSnapshot (ctx : Ctx) (blockStart : Time) (persistFn : DataFn)
    (nsCtx_ : NsContext)
| CallWrite (ctx : Ctx) (timestamp : Time) (value : Value)
    (unit_ : TimeUnit) (annotation : Annotation) (wOpts : WriteOptions)
| CallFetchBlocksForColdFlush (ctx : Ctx) (start : Time) (version : Z)
    (nsCtx_ : NsContext)
| CallClose.

Definition runCall (c : Call) (s : dbSeries) : Outcome dbSeries :=
  match c with
  | CallTick now blockStates nsCtx_ =>
      r ← Tick now s blockStates nsCtx_; Returned r.1.1
  | CallLoad lopts blocks blockStates =>
      r ← Load lopts s blocks blockStates; Returned r.1.1
  | CallOnRetrieveBlock now pooled id_ tags_ startTime segment_ nsCtx_ =>
      Returned
        (OnRetrieveBlock now pooled s id_ tags_ startTime segment_ nsCtx_).1
  | CallOnEvictedFromWiredList id_ blockStart =>
      Returned (OnEvictedFromWiredList s id_ blockStart).1
  | CallWarmFlush ctx blockStart persistFn nsCtx_ =>
      Returned (WarmFlush s ctx blockStart persistFn nsCtx_).1.1
  | CallSnapshot ctx blockStart persistFn nsCtx_ =>
      Returned (Snapshot s ctx blockStart persistFn nsCtx_).1.1
  | CallWrite ctx timestamp value unit_ annotation wOpts =>
      Returned (Write s ctx timestamp value unit_ annotation wOpts).1.1
  | CallFetchBlocksForColdFlush ctx start version nsCtx_ =>
      Returned (FetchBlocksForColdFlush s ctx start version nsCtx_).1.1
  | CallClose => Returned (Close s).1
  end.

Fixpoint runCalls (cs : list Call) (s : dbSeries) : Outcome dbSeries :=
  match cs with
  | [] => Returned s
  | c :: rest => s' ← runCall c s; runCalls rest s'
  end.

End Series.
End series.

(** * A concrete instance: string ids and a buffer that records its loads *)

Module example.

#[export] Instance collaborators : Collaborators := {|
  ID := string;
  ID_Equal := fun i o =>
    match o with
    | Some j => String.eqb i j
    | None => false
    end;
  Tags := list (string * string);
  Tags_zero := [];
  TagIterator := unit;
  Segment := list Z;
  NsContext := unit;
  Ctx := unit;
  DataFn := nat;
  Value := Z;
  TimeUnit := unit;
  Annotation := list Z;
  WriteOptions := unit;
  BlockReader := unit;
  FlushOutcome := bool;
  FlushOutcomeErr := false;
  BufferError := string;
  QueryableBlockRetriever := unit;
  OnRetrieveBlockHook := unit;
  OnEvictedFromWiredListHook := unit;
  DatabaseSeriesPool := nat;
|}.

#[export] Instance mapRange : MapRange := {|
  AllBlocks := map_to_list;
  AllBlocks_perm := fun m => reflexivity (map_to_list m);
|}.

(** The buffer of the examples: what was loaded, with which write type,
    and the block starts its next tick will report as evicted. *)
Record recBuffer : Type := {
  loaded : list (DatabaseBlock * WriteType);
  toEvict : list UnixNano;
}.

#[export] Instance recDatabaseBuffer : databaseBuffer recBuffer := {|
  buffer_Tick := fun b _ _ =>
    ({| loaded := loaded b; toEvict := [] |},
     {| mergedOutOfOrderBlocks := 0; evictedBucketTimes := toEvict b |});
  buffer_Stats := fun b => {| wiredBlocks := Z.of_nat (length (loaded b)) |};
  buffer_IsEmpty := fun b =>
    match loaded b with
    | [] => true
    | _ => false
    end;
  buffer_Load := fun b blk wt =>
    {| loaded := loaded b ++ [(blk, wt)]; toEvict := toEvict b |};
  buffer_WarmFlush := fun b _ _ _ _ _ _ => (b, (true, None));
  buffer_Snapshot := fun b _ _ _ _ _ _ => (b, None);
  buffer_Reset := fun _ _ _ => {| loaded := []; toEvict := [] |};
  buffer_Write := fun b _ _ _ _ _ _ => (b, (true, None));
  buffer_FetchBlocksForColdFlush := fun b _ _ _ _ => (b, ([], None));
  buffer_ColdFlushBlockStarts := fun _ _ => [];
|}.

Definition hour : Z := 3600 * 1000000000.

(** Two-hour blocks, 48 hours of retention, one hour of not-accessed
    expiry. *)
Definition options (p : CachePolicy) (wl : bool) : Options :=
  {| RetentionPeriod := 48 * hour; BlockSize := 2 * hour;
     BlockDataExpiryAfterNotAccessedPeriod := 1 * hour;
     CachePolicy_ := p; WiredList := wl |}.

Definition mkBlock (start : Time) (fromDisk : bool) (lastRead : Time)
    : DatabaseBlock :=
  {| StartTime := start; blockSize := 2 * hour; segment := [];
     seriesID := Some "foo"%string; nsCtx := None;
     WasRetrievedFromDisk := fromDisk; LastReadTime := lastRead;
     HasMergeTarget := false; onEvictedFromWiredList := None |}.

Definition mkSeries (p : CachePolicy) (st : bootstrapState)
    (blocks : list DatabaseBlock) : series.dbSeries :=
  {| series.opts := options p true;
     series.id := Some "foo"%string;
     series.tags := [];
     series.buffer := {| loaded := []; toEvict := [] |};
     series.cachedBlocks := foldr AddBlock ∅ blocks;
     series.bs := st;
     series.blockRetriever := None;
     series.onRetrieveBlock := None;
     series.blockOnEvictedFromWiredList := None;
     series.pool := Some 7%nat |}.

Definition mkSnapshot (boot : bool) (warm : list UnixNano)
    : ShardBlockStateSnapshot :=
  {| snapshot_bootstrapped := boot;
     snapshot_value :=
       mkBootstrappedBlockStateSnapshot
         (list_to_map
            ((fun t => (t, {| WarmRetrievable := true; ColdVersion := 0 |}))
               <$> warm)) |}.

(** A clock reading: 1000 hours after the epoch. *)
Definition now0 : Time := 1000 * hour.

End example.

Import series.

(** * Vocabulary of the properties *)

Definition count {A : Type} (f : A -> bool) (l : list A) : Z :=
  Z.of_nat (length (List.filter f l)).

(** The number of entries of a map that satisfy a test. *)
Definition countBlocks {A : Type} (f : UnixNano * A -> bool)
    (m : gmap UnixNano A) : Z :=
  count f (map_to_list m).

Section TickVocabulary.
Context {C : Collaborators}.

(** [now - retentionPeriod], truncated to block-size boundaries, in Go's
    arithmetic. *)
Definition expireCutoff (o : Options) (now : Time) : Time :=
  Truncate (Add now (Duration_neg (RetentionPeriod o))) (BlockSize o).

(** A cached block is expired: its start precedes the cutoff, or the
    buffer reported its start as evicted in this tick. *)
Definition isExpired (o : Options) (now : Time) (evicted : OptimizedTimes)
    (e : UnixNano * DatabaseBlock) : bool :=
  (e.1 <? expireCutoff o now) || bool_decide (e.1 ∈ evicted).

(** The unwiring rule of the four policies, under its precondition: the
    snapshot is bootstrapped and the start is warm-retrievable. *)
Definition unwires (o : Options) (now : Time)
    (blockStates : ShardBlockStateSnapshot) (e : UnixNano * DatabaseBlock)
    : bool :=
  snapshot_bootstrapped blockStates
  && WarmRetrievable (Snapshot_at (snapshot_value blockStates) e.1)
  && match CachePolicy_ o with
     | CacheNone => true
     | CacheRecentlyRead =>
         BlockDataExpiryAfterNotAccessedPeriod o
           <=? Sub now (LastReadTime e.2)
     | CacheLRU => negb (WasRetrievedFromDisk e.2)
     | CacheAll | CachePolicyOther => false
     end.

Definition isUnwired (o : Options) (now : Time)
    (blockStates : ShardBlockStateSnapshot) (evicted : OptimizedTimes)
    (e : UnixNano * DatabaseBlock) : bool :=
  negb (isExpired o now evicted e) && unwires o now blockStates e.

(** The block leaves the cache in this tick. *)
Definition isRemoved (o : Options) (now : Time)
    (blockStates : ShardBlockStateSnapshot) (evicted : OptimizedTimes)
    (e : UnixNano * DatabaseBlock) : bool :=
  isExpired o now evicted e || isUnwired o now blockStates evicted e.

(** The series closes the block in this tick. *)
Definition isClosed (o : Options) (now : Time)
    (blockStates : ShardBlockStateSnapshot) (evicted : OptimizedTimes)
    (e : UnixNano * DatabaseBlock) : bool :=
  if isExpired o now evicted e
  then negb (CachePolicy_eqb (CachePolicy_ o) CacheLRU
             && WasRetrievedFromDisk e.2)
  else isUnwired o now blockStates evicted e.

Definition isActive (o : Options) (now : Time) (evicted : OptimizedTimes)
    (e : UnixNano * DatabaseBlock) : bool :=
  negb (isExpired o now evicted e).

Definition isWired (o : Options) (now : Time)
    (blockStates : ShardBlockStateSnapshot) (evicted : OptimizedTimes)
    (e : UnixNano * DatabaseBlock) : bool :=
  negb (isExpired o now evicted e)
  && negb (isUnwired o now blockStates evicted e).

Definition isPendingMerge (o : Options) (now : Time)
    (blockStates : ShardBlockStateSnapshot) (evicted : OptimizedTimes)
    (e : UnixNano * DatabaseBlock) : bool :=
  isWired o now blockStates evicted e
  && negb (CachePolicy_eqb (CachePolicy_ o) CacheAll)
  && HasMergeTarget e.2.

(** The tick stops in [Logger().Fatal] at this block: a policy outside
    the four, on a block that is not expired, bootstrapped and
    warm-retrievable. *)
Definition stopsFatal (o : Options) (now : Time)
    (blockStates : ShardBlockStateSnapshot) (evicted : OptimizedTimes)
    (e : UnixNano * DatabaseBlock) : bool :=
  negb (isExpired o now evicted e)
  && CachePolicy_eqb (CachePolicy_ o) CachePolicyOther
  && snapshot_bootstrapped blockStates
  && WarmRetrievable (Snapshot_at (snapshot_value blockStates) e.1).

(** The counters of [updateBlocksResult] hold these counts, reduced to
    64 bits. *)
Definition countsAre (r : updateBlocksResult)
    (nExpired nActive nWired nUnwired nPending : Z) : Prop :=
  madeExpiredBlocks r = wrap64 nExpired
  /\ ActiveBlocks (update_TickStatus r) = wrap64 nActive
  /\ WiredBlocks (update_TickStatus r) = wrap64 nWired
  /\ UnwiredBlocks (update_TickStatus r) = wrap64 nUnwired
  /\ madeUnwiredBlocks r = wrap64 nUnwired
  /\ PendingMergeBlocks (update_TickStatus r) = wrap64 nPending.

Definition b2z (b : bool) : Z := if b then 1 else 0.

(** One of the four named policies. *)
Definition knownPolicy (p : CachePolicy) : Prop := p <> CachePolicyOther.

End TickVocabulary.

Section LoadVocabulary.
Context {C : Collaborators}.

(** The write type a loaded block gets: warm if its start was never warm
    flushed, cold otherwise. *)
Definition writeTypeFor (blockStates : BootstrappedBlockStateSnapshot)
    (b : DatabaseBlock) : WriteType :=
  if WarmRetrievable (Snapshot_at blockStates (StartTime b))
  then ColdWrite else WarmWrite.

End LoadVocabulary.

(** * Further methods of the series *)

(** The zero [time.Time{}]: January 1 of year 1. *)
Definition Time_zero : Time := - (unixToInternal * 1000000000).

(** ** FetchBlocksMetadata *)

Record FetchBlocksMetadataOptions : Type := {
  IncludeSizes : bool;
  IncludeChecksums : bool;
  IncludeLastRead : bool;
  IncludeCachedBlocks : bool;
}.

(** [block.FetchBlockMetadataResult], with the fields the series sets
    ([Checksum] is a [*uint32]). *)
Record FetchBlockMetadataResult : Type := {
  Start : Time;
  Size : Z;
  Checksum : option Z;
  LastRead : Time;
}.

(** What [FetchBlocksMetadata] needs from its collaborators besides the
    series itself: the length and the checksum of a block, the buffer's own
    metadata and emptiness, and a tag iterator reset to the series' tags. *)
Class MetadataCollaborators {C : Collaborators} (B : Type) : Type := {
  (** [b.Len()] and [b.Checksum()] *)
  block_Len : DatabaseBlock -> Z;
  block_Checksum : DatabaseBlock -> error + Z;
  (** [s.buffer.FetchBlocksMetadata(ctx, start, end, opts)] and the
      [Results()] of what it returns *)
  buffer_FetchBlocksMetadata :
    B -> Ctx -> Time -> Time -> FetchBlocksMetadataOptions ->
    error + list FetchBlockMetadataResult;
  (** [IdentifierPool().TagsIterator()] after [Reset(s.tags)] *)
  TagsIterator_Reset : Tags -> TagIterator;
}.

(** The order of [res.Sort()]. *)
Definition byStartAscending (x y : FetchBlockMetadataResult) : Prop :=
  Start x <= Start y.

#[global] Instance byStartAscending_dec : RelDecision byStartAscending :=
  fun x y => decide (Start x <= Start y).

(** Modelled from the spec: [res.Sort()] of
    [block.FetchBlockMetadataResults] orders the results by start time,
    ascending. *)
Definition Sort (res : list FetchBlockMetadataResult)
    : list FetchBlockMetadataResult :=
  merge_sort byStartAscending res.

Section FetchBlocksMetadata.
Context {C : Collaborators} {R : MapRange} {B : Type} {DB : databaseBuffer B}
  {MC : MetadataCollaborators B}.

(** [block.FetchBlocksMetadataResult], as built by
    [block.NewFetchBlocksMetadataResult(s.id, tagsIter, res)]. *)
Record FetchBlocksMetadataResult : Type := {
  result_ID : option ID;
  result_Tags : TagIterator;
  result_Blocks : list FetchBlockMetadataResult;
}.

(** One iteration of the loop of [FetchBlocksMetadata] over the cached
    blocks: [res] so far, then the next entry; an error of [Checksum]
    ends the call. *)
Definition fetchBlockMetadata (blockSize_ : Duration) (start end_ : Time)
    (fopts : FetchBlocksMetadataOptions)
    (res : list FetchBlockMetadataResult) (entry : UnixNano * DatabaseBlock)
    : error + list FetchBlockMetadataResult :=
  let '(tNano, b) := entry in
  let t := ToTime tNano in
  if negb (Before start (Add t blockSize_)) || negb (Before t end_) then
    inr res
  else if negb (IncludeCachedBlocks fopts) && WasRetrievedFromDisk b then
    inr res
  else
    let size := if IncludeSizes fopts then block_Len b else 0 in
    let checksum :=
      if IncludeChecksums fopts then
        match block_Checksum b with
        | inl err => inl err
        | inr v => inr (Some v)
        end
      else inr None in
    match checksum with
    | inl err => inl err
    | inr checksum =>
        let lastRead :=
          if IncludeLastRead fopts then LastReadTime b else Time_zero in
        inr (res ++ [{| Start := t; Size := size; Checksum := checksum;
                        LastRead := lastRead |}])
    end.

Fixpoint fetchBlocksMetadata_loop (blockSize_ : Duration)
    (start end_ : Time) (fopts : FetchBlocksMetadataOptions)
    (entries : list (UnixNano * DatabaseBlock))
    (res : list FetchBlockMetadataResult)
    : error + list FetchBlockMetadataResult :=
  match entries with
  | [] => inr res
  | e :: rest =>
      match fetchBlockMetadata blockSize_ start end_ fopts res e with
      | inl err => inl err
      | inr res' =>
          fetchBlocksMetadata_loop blockSize_ start end_ fopts rest res'
      end
  end.

(** [FetchBlocksMetadata]; [pooled] is what
    [FetchBlockMetadataResultsPool().Get()] hands out.  The call holds the
    read lock and assigns no field of the series; it returns the error or
    the result. *)
Definition FetchBlocksMetadata (pooled : list FetchBlockMetadataResult)
    (s : dbSeries) (ctx : Ctx) (start end_ : Time)
    (fopts : FetchBlocksMetadataOptions)
    : error + FetchBlocksMetadataResult :=
  let blockSize_ := BlockSize (opts s) in
  let res := pooled in
  let blocks := AllBlocks (cachedBlocks s) in
  match fetchBlocksMetadata_loop blockSize_ start end_ fopts blocks res with
  | inl err => inl err
  | inr res =>
      let fromBuffer :=
        if negb (buffer_IsEmpty (buffer s)) then
          match buffer_FetchBlocksMetadata (buffer s) ctx start end_ fopts with
          | inl err => inl err
          | inr bufferResults => inr (res ++ bufferResults)
          end
        else inr res in
      match fromBuffer with
      | inl err => inl err
      | inr res =>
          let res := Sort res in
          let tagsIter := TagsIterator_Reset (tags s) in
          inr {| result_ID := id s; result_Tags := tagsIter;
                 result_Blocks := res |}
      end
  end.

End FetchBlocksMetadata.

(** Vocabulary for [FetchBlocksMetadata]. *)
Section MetadataVocabulary.
Context {C : Collaborators} {B : Type} {MC : MetadataCollaborators B}.

(** The cached block overlaps the queried range and may be reported. *)
Definition metadataIncluded (blockSize_ : Duration) (start end_ : Time)
    (fopts : FetchBlocksMetadataOptions) (e : UnixNano * DatabaseBlock)
    : bool :=
  (start <? e.1 + blockSize_) && (e.1 <? end_)
  && (IncludeCachedBlocks fopts || negb (WasRetrievedFromDisk e.2)).

(** Checksums are asked for and the block's checksum fails. *)
Definition checksumFails (fopts : FetchBlocksMetadataOptions)
    (e : UnixNano * DatabaseBlock) : bool :=
  IncludeChecksums fopts
  && match block_Checksum e.2 with
     | inl _ => true
     | inr _ => false
     end.

(** The metadata reported for a cached block. *)
Definition metadataEntry (fopts : FetchBlocksMetadataOptions)
    (e : UnixNano * DatabaseBlock) : FetchBlockMetadataResult :=
  {| Start := e.1;
     Size := if IncludeSizes fopts then block_Len e.2 else 0;
     Checksum :=
       if IncludeChecksums fopts then
         match block_Checksum e.2 with
         | inl _ => None
         | inr v => Some v
         end
       else None;
     LastRead :=
       if IncludeLastRead fopts then LastReadTime e.2 else Time_zero |}.

End MetadataVocabulary.

(** ** Calls with the calls they make *)

Section CallTraces.
Context {C : Collaborators} {R : MapRange} {B : Type} {DB : databaseBuffer B}.

(** The new state of a call together with its events. *)
Definition traceCall (c : Call) (s : dbSeries)
    : Outcome (dbSeries * list Event) :=
  match c with
  | CallTick now blockStates nsCtx_ =>
      r ← Tick now s blockStates nsCtx_; Returned r.1
  | CallLoad lopts blocks blockStates =>
      r ← Load lopts s blocks blockStates; Returned r.1
  | CallOnRetrieveBlock now pooled id_ tags_ startTime segment_ nsCtx_ =>
      Returned
        (OnRetrieveBlock now pooled s id_ tags_ startTime segment_ nsCtx_)
  | CallOnEvictedFromWiredList id_ blockStart =>
      Returned (OnEvictedFromWiredList s id_ blockStart)
  | CallWarmFlush ctx blockStart persistFn nsCtx_ =>
      Returned (WarmFlush s ctx blockStart persistFn nsCtx_).1
  | CallSnapshot ctx blockStart persistFn nsCtx_ =>
      Returned (series.Snapshot s ctx blockStart persistFn nsCtx_).1
  | CallWrite ctx timestamp value unit_ annotation wOpts =>
      Returned (Write s ctx timestamp value unit_ annotation wOpts).1
  | CallFetchBlocksForColdFlush ctx start version nsCtx_ =>
      Returned (FetchBlocksForColdFlush s ctx start version nsCtx_).1
  | CallClose => Returned (Close s)
  end.

Fixpoint traceCalls (cs : list Call) (s : dbSeries)
    : Outcome (dbSeries * list Event) :=
  match cs with
  | [] => Returned (s, [])
  | c :: rest =>
      '(s1, evs1) ← traceCall c s;
      '(s2, evs2) ← traceCalls rest s1;
      Returned (s2, evs1 ++ evs2)
  end.

End CallTraces.

(** ** The concrete instance, continued *)

Module example_metadata.
Import example.

(** Blocks report their start as length; the checksum of a block that
    has a merge target fails. *)
#[export] Instance metadataCollaborators : MetadataCollaborators recBuffer :=
  {|
  block_Len := fun b => StartTime b;
  block_Checksum := fun b =>
    if HasMergeTarget b then inl (errFromBuffer "checksum"%string)
    else inr 7;
  buffer_FetchBlocksMetadata := fun b _ start end_ _ =>
    inr ((fun e : DatabaseBlock * WriteType =>
            {| Start := StartTime e.1; Size := 0; Checksum := None;
               LastRead := Time_zero |}) <$> loaded b);
  TagsIterator_Reset := fun _ => tt;
|}.

(** A retrieval, two ticks a day apart and a close on a [CacheLRU]
    series. *)
Definition exampleCalls : list Call :=
  [CallOnRetrieveBlock now0 (mkBlock 0 false 0) "foo"%string tt
     (now0 - 40 * hour) [1; 2] tt;
   CallLoad {| Bootstrap := false |}
     (Some {[ now0 := mkBlock now0 false 0 ]})
     (mkBootstrappedBlockStateSnapshot ∅);
   CallTick now0 (mkSnapshot true [now0 - 4 * hour]) tt;
   CallTick (now0 + 24 * hour) (mkSnapshot true [now0 - 4 * hour]) tt;
   CallClose].

(** A series with a block from disk, a block from the buffer and a block
    outside the queried hours. *)
Definition metadataSeries : series.dbSeries :=
  mkSeries CacheLRU bootstrapped
    [mkBlock (now0 - 2 * hour) true now0;
     mkBlock (now0 - 4 * hour) false now0;
     mkBlock (now0 - 40 * hour) false now0].

Definition metadataOptions (cached checksums : bool)
    : FetchBlocksMetadataOptions :=
  {| IncludeSizes := true; IncludeChecksums := checksums;
     IncludeLastRead := false; IncludeCachedBlocks := cached |}.

(** A block whose checksum fails in this instance. *)
Definition failingBlock : DatabaseBlock :=
  {| StartTime := now0 - 2 * hour; blockSize := 2 * hour;
     segment := []; seriesID := None; nsCtx := None;
     WasRetrievedFromDisk := false; LastReadTime := 0;
     HasMergeTarget := true; onEvictedFromWiredList := None |}.

End example_metadata.

(** * Properties *)

(** ** Arithmetic of 64-bit counters *)

Lemma wrap64_add_l (a b : Z) : wrap64 (wrap64 a + b) = wrap64 (a + b).
Proof.
  unfold wrap64.
  replace ((a + 2 ^ 63) mod 2 ^ 64 - 2 ^ 63 + b + 2 ^ 63)
    with ((a + 2 ^ 63) mod 2 ^ 64 + b) by lia.
  rewrite Zplus_mod_idemp_l.
  f_equal. f_equal. lia.
Qed.

Lemma wrap64_small (a : Z) : int64_min <= a <= int64_max -> wrap64 a = a.
Proof.
  unfold wrap64, int64_min, int64_max. intros Ha.
  rewrite Z.mod_small; lia.
Qed.

Lemma wrap64_range (a : Z) : int64_min <= wrap64 a <= int64_max.
Proof.
  unfold wrap64, int64_min, int64_max.
  pose proof (Z.mod_pos_bound (a + 2 ^ 63) (2 ^ 64)). lia.
Qed.

Lemma int_add_wrap64 (a b : Z) : int_add (wrap64 a) b = wrap64 (a + b).
Proof. apply wrap64_add_l. Qed.

Lemma Duration_neg_in_range (d : Duration) :
  int64_min < d <= int64_max -> Duration_neg d = - d.
Proof.
  intros Hd. unfold Duration_neg. apply wrap64_small.
  unfold int64_min, int64_max in *. lia.
Qed.

(** [Truncate] rounds down to a multiple of a positive [d], counted from
    Go's zero time, and moves by less than [d]. *)
Lemma Truncate_spec (t : Time) (d : Duration) :
  0 < d ->
  (Truncate t d + unixToInternal * 1000000000) mod d = 0
  /\ Truncate t d <= t < Truncate t d + d.
Proof.
  intros Hd. unfold Truncate.
  destruct (Z.leb_spec d 0) as [?|_]; [lia|].
  set (a := t + unixToInternal * 1000000000).
  pose proof (Z.mod_pos_bound a d Hd) as Hb.
  split; [|lia].
  replace (t - a mod d + unixToInternal * 1000000000) with (a - a mod d)
    by (unfold a; lia).
  rewrite Zminus_mod_idemp_r. rewrite Z.sub_diag. apply Z.mod_0_l. lia.
Qed.

(** ** Counting list entries *)

Lemma count_cons {A : Type} (f : A -> bool) (x : A) (l : list A) :
  count f (x :: l) = (if f x then 1 else 0) + count f l.
Proof. unfold count. simpl. destruct (f x); simpl; lia. Qed.

Lemma count_nonneg {A : Type} (f : A -> bool) (l : list A) : 0 <= count f l.
Proof. unfold count. lia. Qed.

Lemma count_Permutation {A : Type} (f : A -> bool) (l l' : list A) :
  l ≡ₚ l' -> count f l = count f l'.
Proof.
  induction 1 as [|x l l' _ IH|x y l|l l' l'' _ IH1 _ IH2].
  - reflexivity.
  - rewrite !count_cons, IH. reflexivity.
  - rewrite !count_cons. lia.
  - congruence.
Qed.

Lemma count_ext {A : Type} (f g : A -> bool) (l : list A) :
  (forall x, x ∈ l -> f x = g x) -> count f l = count g l.
Proof.
  induction l as [|x l IH]; intros Hfg; [reflexivity|].
  rewrite !count_cons, Hfg, IH; [reflexivity| |left].
  intros y Hy. apply Hfg. by right.
Qed.

Lemma count_zero {A : Type} (f : A -> bool) (l : list A) :
  (forall x, x ∈ l -> f x = false) -> count f l = 0.
Proof.
  induction l as [|x l IH]; intros Hf; [reflexivity|].
  rewrite count_cons, Hf, IH; [reflexivity| |left].
  intros y Hy. apply Hf. by right.
Qed.

(** ** The loop of [updateBlocksWithLock] *)

Section TickLoop.
Context {C : Collaborators} {R : MapRange} {B : Type} {DB : databaseBuffer B}.
Variables (o : Options) (now : Time) (blockStates : ShardBlockStateSnapshot)
  (evicted : OptimizedTimes).

Lemma count_b2z {A : Type} (f : A -> bool) (x : A) (l : list A) :
  count f (x :: l) = b2z (f x) + count f l.
Proof. apply count_cons. Qed.

Lemma updateBlock_Fatal (st : tickLoop) (e : UnixNano * DatabaseBlock) :
  stopsFatal o now blockStates evicted e = true ->
  updateBlock (CachePolicy_ o) now (expireCutoff o now)
      (BlockDataExpiryAfterNotAccessedPeriod o) blockStates evicted st e = Fatal.
Proof.
  destruct e as [t b].
  unfold stopsFatal, updateBlock, isExpired, expireCutoff, shouldUnwire,
    UnwrapValue, Before, Contains, ToTime, ToUnixNano. simpl.
  intros Hf. repeat (apply andb_prop in Hf as [Hf ?]).
  apply negb_true_iff in Hf. rewrite Hf.
  destruct (CachePolicy_ o); try discriminate. simpl.
  by repeat match goal with H : _ = true |- _ => rewrite H; clear H end.
Qed.

Lemma updateBlock_Returned (st : tickLoop) (e : UnixNano * DatabaseBlock) :
  stopsFatal o now blockStates evicted e = false ->
  exists st',
    updateBlock (CachePolicy_ o) now (expireCutoff o now)
      (BlockDataExpiryAfterNotAccessedPeriod o) blockStates evicted st e = Returned st'
    /\ loop_blocks st' =
         (if isRemoved o now blockStates evicted e
          then delete e.1 (loop_blocks st) else loop_blocks st)
    /\ loop_events st' =
         loop_events st ++
         (if isClosed o now blockStates evicted e
          then [BlockClose e.1 e.2] else [])
    /\ forall nE nA nW nU nP,
         countsAre (loop_result st) nE nA nW nU nP ->
         countsAre (loop_result st')
           (nE + b2z (isExpired o now evicted e))
           (nA + b2z (isActive o now evicted e))
           (nW + b2z (isWired o now blockStates evicted e))
           (nU + b2z (isUnwired o now blockStates evicted e))
           (nP + b2z (isPendingMerge o now blockStates evicted e)).
Proof.
  destruct e as [t b].
  unfold stopsFatal, updateBlock, isRemoved, isClosed, isActive,
    isPendingMerge, isWired, isUnwired, unwires, isExpired, expireCutoff,
    shouldUnwire, UnwrapValue, Before, Contains, RemoveBlockAt, ToTime,
    ToUnixNano, countsAre.
  simpl.
  destruct ((t <? _) || bool_decide (t ∈ evicted)) eqn:Hexp; simpl.
  - intros _. eexists. split; [reflexivity|]. simpl.
    split; [reflexivity|]. split.
    + by destruct (CachePolicy_eqb (CachePolicy_ o) CacheLRU
                   && WasRetrievedFromDisk b).
    + intros nE nA nW nU nP (HE & HA & HW & HU & HM & HP).
      rewrite ?Hexp, HE, int_add_wrap64. simpl. rewrite !Z.add_0_r. done.
  - destruct (CachePolicy_ o) eqn:Hpol; simpl;
      destruct (snapshot_bootstrapped blockStates) eqn:Hboot; simpl;
      destruct (WarmRetrievable (Snapshot_at (snapshot_value blockStates) t))
        eqn:Hwarm; simpl;
      try discriminate; intros _;
      repeat match goal with
      | |- context [ if ?c then _ else _ ] => destruct c eqn:?; simpl
      end;
      (eexists; split; [reflexivity|]; simpl;
       split; [reflexivity|]; split; [by rewrite ?app_nil_r|];
       intros nE nA nW nU nP (HE & HA & HW & HU & HM & HP);
       rewrite ?Hexp, ?HE, ?HA, ?HW, ?HU, ?HM, ?HP, ?int_add_wrap64; simpl;
       rewrite ?Z.add_0_r; done).
Qed.

Lemma updateBlocks_loop_cases (l : list (UnixNano * DatabaseBlock))
    (st : tickLoop) :
  (updateBlocks_loop (CachePolicy_ o) now (expireCutoff o now)
      (BlockDataExpiryAfterNotAccessedPeriod o) blockStates evicted l st = Fatal
   /\ exists e, e ∈ l /\ stopsFatal o now blockStates evicted e = true)
  \/
  ((forall e, e ∈ l -> stopsFatal o now blockStates evicted e = false)
   /\ exists st',
      updateBlocks_loop (CachePolicy_ o) now (expireCutoff o now)
      (BlockDataExpiryAfterNotAccessedPeriod o) blockStates evicted l st = Returned st'
      /\ loop_blocks st' =
           foldl (fun m e =>
                    if isRemoved o now blockStates evicted e
                    then delete e.1 m else m)
             (loop_blocks st) l
      /\ loop_events st' =
           loop_events st ++
           flat_map (fun e =>
                       if isClosed o now blockStates evicted e
                       then [BlockClose e.1 e.2] else []) l
      /\ forall nE nA nW nU nP,
           countsAre (loop_result st) nE nA nW nU nP ->
           countsAre (loop_result st')
             (nE + count (isExpired o now evicted) l)
             (nA + count (isActive o now evicted) l)
             (nW + count (isWired o now blockStates evicted) l)
             (nU + count (isUnwired o now blockStates evicted) l)
             (nP + count (isPendingMerge o now blockStates evicted) l)).
Proof.
  revert st. induction l as [|e l IH]; intros st.
  - right. split; [intros e He; inversion He|].
    exists st. simpl. rewrite app_nil_r.
    split; [reflexivity|]. split; [reflexivity|]. split; [reflexivity|].
    intros nE nA nW nU nP Hc. unfold count. simpl.
    by rewrite !Z.add_0_r.
  - destruct (stopsFatal o now blockStates evicted e) eqn:Hf.
    + left. split.
      * simpl. by rewrite (updateBlock_Fatal st e Hf).
      * exists e. split; [left|done].
    + destruct (updateBlock_Returned st e Hf)
        as (st1 & Hstep & Hblocks & Hevs & Hcnt).
      destruct (IH st1) as [[Hfatal (e' & He' & Hf')]
                           |[Hnf (st' & Hloop & Hb' & He' & Hc')]].
      * left. split.
        -- simpl. rewrite Hstep. exact Hfatal.
        -- exists e'. split; [by right|done].
      * right. split.
        -- intros e0 He0. apply elem_of_cons in He0 as [->|He0]; auto.
        -- exists st'. split; [simpl; rewrite Hstep; exact Hloop|].
           split; [simpl; by rewrite Hb', Hblocks|].
           split; [simpl; by rewrite He', Hevs, <- app_assoc|].
           intros nE nA nW nU nP Hc.
           rewrite !count_b2z, !Z.add_assoc. apply Hc', Hcnt, Hc.
Qed.

(** Lookup in a cache from which the removed entries of an enumeration
    were deleted. *)
Lemma lookup_foldl_delete (f : UnixNano * DatabaseBlock -> bool)
    (l : list (UnixNano * DatabaseBlock)) (m : DatabaseSeriesBlocks)
    (t : UnixNano) :
  foldl (fun m e => if f e then delete e.1 m else m) m l !! t =
  if existsb (fun e => bool_decide (e.1 = t) && f e) l then None
  else m !! t.
Proof.
  revert m. induction l as [|e l IH]; intros m; [reflexivity|].
  simpl. rewrite IH.
  destruct (existsb _ l); [by rewrite orb_true_r|].
  rewrite orb_false_r.
  destruct (f e); [|by rewrite andb_false_r].
  rewrite andb_true_r. case_bool_decide as Ht.
  - subst t. apply lookup_delete_eq.
  - by apply lookup_delete_ne.
Qed.

End TickLoop.

(** ** From the enumeration to the cache *)

Section TickCache.
Context {C : Collaborators} {R : MapRange} {B : Type} {DB : databaseBuffer B}.

Lemma elem_of_AllBlocks (m : DatabaseSeriesBlocks) (t : UnixNano)
    (b : DatabaseBlock) :
  (t, b) ∈ AllBlocks m <-> m !! t = Some b.
Proof. rewrite (AllBlocks_perm m). apply elem_of_map_to_list. Qed.

Lemma count_AllBlocks (f : UnixNano * DatabaseBlock -> bool)
    (m : DatabaseSeriesBlocks) :
  count f (AllBlocks m) = countBlocks f m.
Proof. apply count_Permutation, AllBlocks_perm. Qed.

Lemma existsb_AllBlocks_Some (f : UnixNano * DatabaseBlock -> bool)
    (m : DatabaseSeriesBlocks) (t : UnixNano) (b : DatabaseBlock) :
  m !! t = Some b ->
  existsb (fun e => bool_decide (e.1 = t) && f e) (AllBlocks m) = f (t, b).
Proof.
  intros Hm. destruct (f (t, b)) eqn:Hf.
  - apply existsb_exists. exists (t, b). split.
    + apply list_elem_of_In, elem_of_AllBlocks, Hm.
    + simpl. rewrite Hf. by rewrite bool_decide_eq_true_2.
  - apply not_true_is_false. intros Hex.
    apply existsb_exists in Hex as ([t' b'] & Hin & Hp). simpl in Hp.
    apply andb_prop in Hp as [Ht Hf'].
    apply bool_decide_eq_true_1 in Ht. subst t'.
    apply list_elem_of_In, elem_of_AllBlocks in Hin.
    assert (b' = b) by congruence. subst b'. congruence.
Qed.

Lemma lookup_removed (f : UnixNano * DatabaseBlock -> bool)
    (m : DatabaseSeriesBlocks) (t : UnixNano) :
  foldl (fun m e => if f e then delete e.1 m else m) m (AllBlocks m) !! t =
  match m !! t with
  | Some b => if f (t, b) then None else Some b
  | None => None
  end.
Proof.
  rewrite lookup_foldl_delete.
  destruct (m !! t) as [b|] eqn:Hm.
  - by rewrite (existsb_AllBlocks_Some f m t b Hm).
  - by destruct (existsb _ _).
Qed.

Lemma elem_of_closes (f : UnixNano * DatabaseBlock -> bool)
    (l : list (UnixNano * DatabaseBlock)) (ev : Event) :
  ev ∈ flat_map (fun e => if f e then [BlockClose e.1 e.2] else []) l <->
  exists e, e ∈ l /\ f e = true /\ ev = BlockClose e.1 e.2.
Proof.
  rewrite list_elem_of_In, in_flat_map. split.
  - intros (e & Hin & Hev). exists e.
    apply list_elem_of_In in Hin. destruct (f e); [|inversion Hev].
    destruct Hev as [<-|[]]. done.
  - intros (e & Hin & Hf & ->). exists e.
    split; [by apply list_elem_of_In|]. rewrite Hf. by left.
Qed.

End TickCache.

(** ** [updateBlocksWithLock] and [Tick] as a whole *)

Section TickWhole.
Context {C : Collaborators} {R : MapRange} {B : Type} {DB : databaseBuffer B}.

Lemma countsAre_zero : countsAre updateBlocksResult_zero 0 0 0 0 0.
Proof. repeat split. Qed.

Lemma updateBlocksWithLock_cases (now : Time) (s : dbSeries)
    (blockStates : ShardBlockStateSnapshot) (evicted : OptimizedTimes) :
  let m := cachedBlocks s in
  let o := opts s in
  let w := wiredBlocks (buffer_Stats (buffer s)) in
  (updateBlocksWithLock now s blockStates evicted = Fatal
   /\ exists t b, m !! t = Some b
        /\ stopsFatal o now blockStates evicted (t, b) = true)
  \/
  ((forall t b, m !! t = Some b ->
      stopsFatal o now blockStates evicted (t, b) = false)
   /\ exists m' evs res,
      updateBlocksWithLock now s blockStates evicted =
        Returned (set_cachedBlocks s m', evs, (res, None))
      /\ (forall t, m' !! t =
            match m !! t with
            | Some b =>
                if isRemoved o now blockStates evicted (t, b) then None
                else Some b
            | None => None
            end)
      /\ (forall ev, ev ∈ evs <->
            exists t b, m !! t = Some b
              /\ isClosed o now blockStates evicted (t, b) = true
              /\ ev = BlockClose t b)
      /\ countsAre res
           (countBlocks (isExpired o now evicted) m)
           (countBlocks (isActive o now evicted) m + w)
           (countBlocks (isWired o now blockStates evicted) m + w)
           (countBlocks (isUnwired o now blockStates evicted) m)
           (countBlocks (isPendingMerge o now blockStates evicted) m)).
Proof.
  intros m o w. unfold updateBlocksWithLock. cbv zeta. fold m o.
  change (Truncate (Add now (Duration_neg (RetentionPeriod o))) (BlockSize o))
    with (expireCutoff o now).
  destruct (updateBlocks_loop_cases o now blockStates evicted (AllBlocks m)
              {| loop_blocks := m; loop_result := updateBlocksResult_zero;
                 loop_events := [] |})
    as [[Hfatal ([t b] & Hin & Hf)]
       |[Hnf (st' & Hloop & Hblocks & Hevs & Hcnt)]].
  - left. split; [by rewrite Hfatal|].
    exists t, b. split; [by apply elem_of_AllBlocks|done].
  - right. split.
    + intros t b Hm. apply Hnf. by apply elem_of_AllBlocks.
    + exists (loop_blocks st'), (loop_events st'). eexists.
      split; [rewrite Hloop; reflexivity|].
      split; [|split].
      * intros t. rewrite Hblocks. simpl. apply lookup_removed.
      * intros ev. rewrite Hevs. simpl. rewrite elem_of_closes. split.
        -- intros ([t b] & Hin & Hc & ->). exists t, b.
           split; [by apply elem_of_AllBlocks|done].
        -- intros (t & b & Hm & Hc & ->). exists (t, b).
           split; [by apply elem_of_AllBlocks|done].
      * specialize (Hcnt 0 0 0 0 0 countsAre_zero).
        rewrite !Z.add_0_l, !count_AllBlocks in Hcnt.
        destruct Hcnt as (HE & HA & HW & HU & HM & HP).
        unfold countsAre. simpl. fold w.
        rewrite HE, HA, HW, HU, HM, HP, !int_add_wrap64. done.
Qed.

(** The result of a tick that returns. *)
Lemma Tick_cases (now : Time) (s : dbSeries)
    (blockStates : ShardBlockStateSnapshot) (nsCtx_ : NsContext) :
  let m := cachedBlocks s in
  let o := opts s in
  let buf := (buffer_Tick (buffer s) blockStates nsCtx_).1 in
  let bufferResult := (buffer_Tick (buffer s) blockStates nsCtx_).2 in
  let evicted := evictedBucketTimes bufferResult in
  let w := wiredBlocks (buffer_Stats buf) in
  (Tick now s blockStates nsCtx_ = Fatal
   /\ exists t b, m !! t = Some b
        /\ stopsFatal o now blockStates evicted (t, b) = true)
  \/
  ((forall t b, m !! t = Some b ->
      stopsFatal o now blockStates evicted (t, b) = false)
   /\ exists m' closes r,
      Tick now s blockStates nsCtx_ =
        Returned (set_cachedBlocks (set_buffer s buf) m',
                  BufferTick blockStates :: closes,
                  (r, if ActiveBlocks (TickResult_TickStatus r) =? 0
                      then Some ErrSeriesAllDatapointsExpired else None))
      /\ (forall t, m' !! t =
            match m !! t with
            | Some b =>
                if isRemoved o now blockStates evicted (t, b) then None
                else Some b
            | None => None
            end)
      /\ (forall ev, ev ∈ closes <->
            exists t b, m !! t = Some b
              /\ isClosed o now blockStates evicted (t, b) = true
              /\ ev = BlockClose t b)
      /\ MadeExpiredBlocks r =
           wrap64 (countBlocks (isExpired o now evicted) m)
      /\ ActiveBlocks (TickResult_TickStatus r) =
           wrap64 (countBlocks (isActive o now evicted) m + w)
      /\ WiredBlocks (TickResult_TickStatus r) =
           wrap64 (countBlocks (isWired o now blockStates evicted) m + w)
      /\ UnwiredBlocks (TickResult_TickStatus r) =
           wrap64 (countBlocks (isUnwired o now blockStates evicted) m)
      /\ MadeUnwiredBlocks r =
           wrap64 (countBlocks (isUnwired o now blockStates evicted) m)
      /\ PendingMergeBlocks (TickResult_TickStatus r) =
           wrap64 (countBlocks (isPendingMerge o now blockStates evicted) m)
      /\ MergedOutOfOrderBlocks r = mergedOutOfOrderBlocks bufferResult
      /\ EvictedBuckets r = OptimizedTimes_Len evicted).
Proof.
  intros m o buf bufferResult evicted w. unfold Tick.
  subst buf bufferResult evicted w.
  destruct (buffer_Tick (buffer s) blockStates nsCtx_) as [buf bufferResult].
  simpl.
  destruct (updateBlocksWithLock_cases now (set_buffer s buf) blockStates
              (evictedBucketTimes bufferResult))
    as [[Hfatal Hex]
       |[Hnf (m' & evs & res & Hupd & Hm' & Hevs & Hcnt)]];
    simpl in *.
  - left. split; [by rewrite Hfatal|exact Hex].
  - right. split; [exact Hnf|].
    destruct Hcnt as (HE & HA & HW & HU & HM & HP).
    rewrite Hupd. simpl.
    exists m', evs,
      {| TickResult_TickStatus := update_TickStatus res;
         MadeExpiredBlocks := madeExpiredBlocks res;
         MadeUnwiredBlocks := madeUnwiredBlocks res;
         MergedOutOfOrderBlocks := mergedOutOfOrderBlocks bufferResult;
         EvictedBuckets :=
           OptimizedTimes_Len (evictedBucketTimes bufferResult) |}.
    simpl. split; [by destruct (_ =? 0)|].
    repeat (split; [done|]); done.
Qed.

End TickWhole.

Section TickFacts.
Context {C : Collaborators}.

Lemma isExpired_true_iff (o : Options) (now : Time) (evicted : OptimizedTimes)
    (t : UnixNano) (b : DatabaseBlock) :
  isExpired o now evicted (t, b) = true <->
  t < expireCutoff o now \/ t ∈ evicted.
Proof.
  unfold isExpired. simpl.
  rewrite orb_true_iff, Z.ltb_lt, bool_decide_eq_true. done.
Qed.

Lemma isExpired_false_iff (o : Options) (now : Time)
    (evicted : OptimizedTimes) (t : UnixNano) (b : DatabaseBlock) :
  isExpired o now evicted (t, b) = false <->
  ~ (t < expireCutoff o now \/ t ∈ evicted).
Proof.
  rewrite <- isExpired_true_iff. symmetry. apply not_true_iff_false.
Qed.

Lemma stopsFatal_knownPolicy (o : Options) (now : Time)
    (blockStates : ShardBlockStateSnapshot) (evicted : OptimizedTimes)
    (e : UnixNano * DatabaseBlock) :
  knownPolicy (CachePolicy_ o) ->
  stopsFatal o now blockStates evicted e = false.
Proof.
  unfold knownPolicy, stopsFatal. intros Hk.
  destruct (CachePolicy_ o); simpl; try done;
    by rewrite ?andb_false_r, ?andb_false_l.
Qed.

Lemma unwires_warm (o : Options) (now : Time)
    (blockStates : ShardBlockStateSnapshot) (e : UnixNano * DatabaseBlock) :
  unwires o now blockStates e = true ->
  snapshot_bootstrapped blockStates = true
  /\ WarmRetrievable (Snapshot_at (snapshot_value blockStates) e.1) = true.
Proof.
  unfold unwires. intros Hu.
  apply andb_prop in Hu as [Hu _]. by apply andb_prop in Hu.
Qed.

Lemma CachePolicy_eqb_eq (p q : CachePolicy) :
  CachePolicy_eqb p q = true <-> p = q.
Proof. destruct p, q; simpl; split; congruence. Qed.

Lemma countBlocks_zero {A : Type} (f : UnixNano * A -> bool)
    (m : gmap UnixNano A) :
  (forall t a, m !! t = Some a -> f (t, a) = false) -> countBlocks f m = 0.
Proof.
  intros Hf. apply count_zero. intros [t a] Hin.
  apply Hf. by apply elem_of_map_to_list.
Qed.

Lemma countBlocks_pos {A : Type} (f : UnixNano * A -> bool)
    (m : gmap UnixNano A) (t : UnixNano) (a : A) :
  m !! t = Some a -> f (t, a) = true -> 0 < countBlocks f m.
Proof.
  intros Hm Hf. unfold countBlocks.
  apply elem_of_map_to_list in Hm.
  induction (map_to_list m) as [|x l IH]; [inversion Hm|].
  rewrite count_cons. pose proof (count_nonneg f l).
  apply elem_of_cons in Hm as [<-|Hm].
  - rewrite Hf. lia.
  - specialize (IH Hm). destruct (f x); lia.
Qed.

Lemma countBlocks_le_size {A : Type} (f : UnixNano * A -> bool)
    (m : gmap UnixNano A) :
  0 <= countBlocks f m <= Z.of_nat (size m).
Proof.
  unfold countBlocks, count. rewrite <- length_map_to_list.
  split; [lia|]. apply inj_le, filter_length_le.
Qed.

End TickFacts.

(** ** Load, bootstrap and the bootstrap state *)

Section LoadLemmas.
Context {C : Collaborators} {R : MapRange} {B : Type} {DB : databaseBuffer B}.

Lemma foldl_loadBlock (blockStates : BootstrappedBlockStateSnapshot)
    (l : list (UnixNano * DatabaseBlock)) (buf : B) (evs : list Event) :
  foldl (loadBlock blockStates) (buf, evs) l =
  (foldl (fun buf e => buffer_Load buf e.2 (writeTypeFor blockStates e.2))
     buf l,
   evs ++ ((fun e => BufferLoad e.2 (writeTypeFor blockStates e.2)) <$> l)).
Proof.
  revert buf evs. induction l as [|e l IH]; intros buf evs; simpl.
  - by rewrite app_nil_r.
  - unfold loadBlock at 2, writeTypeFor at 2 3, ToUnixNano. simpl.
    destruct (WarmRetrievable (Snapshot_at blockStates (StartTime e.2)));
      simpl; rewrite IH, <- app_assoc; reflexivity.
Qed.

Lemma loadWithLock_spec (s : dbSeries) (blocks : DatabaseSeriesBlocks)
    (blockStates : BootstrappedBlockStateSnapshot) :
  loadWithLock s blocks blockStates =
  (set_buffer s
     (foldl (fun buf e => buffer_Load buf e.2 (writeTypeFor blockStates e.2))
        (buffer s) (AllBlocks blocks)),
   (fun e => BufferLoad e.2 (writeTypeFor blockStates e.2))
     <$> AllBlocks blocks).
Proof. unfold loadWithLock. by rewrite foldl_loadBlock. Qed.

Lemma elem_of_loads (blockStates : BootstrappedBlockStateSnapshot)
    (blocks : DatabaseSeriesBlocks) (ev : Event) :
  ev ∈ ((fun e => BufferLoad e.2 (writeTypeFor blockStates e.2))
          <$> AllBlocks blocks) <->
  exists t b, blocks !! t = Some b
    /\ ev = BufferLoad b (writeTypeFor blockStates b).
Proof.
  rewrite list_elem_of_fmap. split.
  - intros ([t b] & -> & Hin). exists t, b.
    split; [by apply elem_of_AllBlocks|done].
  - intros (t & b & Hm & ->). exists (t, b).
    split; [done|by apply elem_of_AllBlocks].
Qed.

Lemma bootstrap_bs (s : dbSeries) (blocks : option DatabaseSeriesBlocks)
    (blockStates : BootstrappedBlockStateSnapshot) :
  bs (bootstrap s blocks blockStates).1.1 = bootstrapped.
Proof.
  unfold bootstrap.
  destruct (bootstrapState_eqb (bs s) bootstrapped); [reflexivity|].
  destruct blocks as [blocks|]; [|reflexivity].
  by rewrite loadWithLock_spec.
Qed.

Lemma bootstrap_already (s : dbSeries) (blocks : option DatabaseSeriesBlocks)
    (blockStates : BootstrappedBlockStateSnapshot) :
  bs s = bootstrapped ->
  bootstrap s blocks blockStates =
  (s, [], (BootstrapResult_zero, Some errSeriesAlreadyBootstrapped)).
Proof.
  intros Hbs. unfold bootstrap. rewrite Hbs. simpl.
  destruct s. simpl in *. by subst.
Qed.

(** No call other than [Reset] leaves the [bootstrapped] state. *)
Lemma runCall_bs (c : Call) (s s' : dbSeries) :
  runCall c s = Returned s' -> bs s = bootstrapped -> bs s' = bootstrapped.
Proof.
  intros Hrun Hbs. destruct c; simpl in Hrun.
  - destruct (Tick_cases now s blockStates nsCtx_)
      as [[Hfatal _]|[_ (m' & closes & r & HTick & _)]];
      rewrite ?Hfatal, ?HTick in Hrun; [discriminate|].
    injection Hrun as <-. exact Hbs.
  - unfold Load in Hrun. destruct (Bootstrap lopts).
    + pose proof (bootstrap_bs s bootstrappedBlocks blockStates) as Hb.
      destruct (bootstrap s bootstrappedBlocks blockStates)
        as [[s1 evs] [res err]].
      injection Hrun as <-. exact Hb.
    + destruct bootstrappedBlocks as [blocks|]; [|discriminate].
      simpl in Hrun. rewrite loadWithLock_spec in Hrun.
      injection Hrun as <-. exact Hbs.
  - injection Hrun as <-. unfold OnRetrieveBlock.
    destruct (negb _); [exact Hbs|]. simpl.
    by destruct (WiredList (opts s)).
  - injection Hrun as <-. unfold OnEvictedFromWiredList.
    destruct (negb _); [exact Hbs|].
    destruct (BlockAt blockStart (cachedBlocks s)) as [b|]; [|exact Hbs].
    by destruct (negb _).
  - injection Hrun as <-. unfold WarmFlush. rewrite Hbs. simpl.
    by destruct (buffer_WarmFlush _ _ _ _ _ _ _).
  - injection Hrun as <-. unfold Snapshot. rewrite Hbs. simpl.
    by destruct (buffer_Snapshot _ _ _ _ _ _ _).
  - injection Hrun as <-. unfold Write.
    by destruct (buffer_Write _ _ _ _ _ _ _).
  - injection Hrun as <-. unfold FetchBlocksForColdFlush.
    by destruct (buffer_FetchBlocksForColdFlush _ _ _ _ _).
  - injection Hrun as <-. unfold Close. simpl.
    by destruct (CachePolicy_ (opts s)), (pool s).
Qed.

Lemma runCalls_bs (cs : list Call) (s s' : dbSeries) :
  runCalls cs s = Returned s' -> bs s = bootstrapped -> bs s' = bootstrapped.
Proof.
  revert s. induction cs as [|c cs IH]; intros s Hrun Hbs; simpl in Hrun.
  - by injection Hrun as <-.
  - destruct (runCall c s) as [s1| |] eqn:Hc; try discriminate.
    simpl in Hrun. eapply IH; [exact Hrun|]. eapply runCall_bs; eauto.
Qed.

End LoadLemmas.

(** * Tick: expiry, unwiring and the all-expired signal *)

Section TickProperties.
Context {C : Collaborators} {R : MapRange} {B : Type} {DB : databaseBuffer B}.

(** C7.  [Tick] returns [ErrSeriesAllDatapointsExpired] exactly when the
    active-block count after the pass, the non-expired cached blocks plus
    the buffer's wired blocks, is zero, and [nil] otherwise; in both cases
    the [TickResult] carries the counters of the pass (merged, evicted,
    made expired, made unwired and the status counts).  Under the four
    named cache policies [Tick] always returns. *)
Theorem Tick_AllDatapointsExpired_iff_no_active_blocks
    (now : Time) (s : dbSeries) (blockStates : ShardBlockStateSnapshot)
    (nsCtx_ : NsContext) :
  let buf := (buffer_Tick (buffer s) blockStates nsCtx_).1 in
  let bufferResult := (buffer_Tick (buffer s) blockStates nsCtx_).2 in
  let evicted := evictedBucketTimes bufferResult in
  let m := cachedBlocks s in
  let o := opts s in
  (knownPolicy (CachePolicy_ o) ->
   exists res, Tick now s blockStates nsCtx_ = Returned res)
  /\ forall s' evs r err,
       Tick now s blockStates nsCtx_ = Returned (s', evs, (r, err)) ->
       ActiveBlocks (TickResult_TickStatus r) =
         wrap64 (countBlocks (isActive o now evicted) m
                 + wiredBlocks (buffer_Stats buf))
       /\ (err = Some ErrSeriesAllDatapointsExpired <->
           ActiveBlocks (TickResult_TickStatus r) = 0)
       /\ (err = None <-> ActiveBlocks (TickResult_TickStatus r) <> 0)
       /\ MergedOutOfOrderBlocks r = mergedOutOfOrderBlocks bufferResult
       /\ EvictedBuckets r = OptimizedTimes_Len evicted
       /\ MadeExpiredBlocks r =
            wrap64 (countBlocks (isExpired o now evicted) m)
       /\ MadeUnwiredBlocks r =
            wrap64 (countBlocks (isUnwired o now blockStates evicted) m)
       /\ UnwiredBlocks (TickResult_TickStatus r) =
            wrap64 (countBlocks (isUnwired o now blockStates evicted) m)
       /\ WiredBlocks (TickResult_TickStatus r) =
            wrap64 (countBlocks (isWired o now blockStates evicted) m
                    + wiredBlocks (buffer_Stats buf))
       /\ PendingMergeBlocks (TickResult_TickStatus r) =
            wrap64 (countBlocks (isPendingMerge o now blockStates evicted) m).
Proof.
  intros buf bufferResult evicted m o.
  destruct (Tick_cases now s blockStates nsCtx_)
    as [[Hfatal (t & b & Hm & Hf)]
       |[Hnf (m' & closes & r0 & HTick & Hm' & Hcl & HE & HA & HW & HU
              & HMU & HP & HMg & HEv)]].
  - split.
    + intros Hk. rewrite stopsFatal_knownPolicy in Hf; done.
    + intros s' evs r err HT. congruence.
  - split; [intros _; eexists; exact HTick|].
    intros s' evs r err HT. rewrite HTick in HT.
    injection HT as <- <- <- <-.
    split; [exact HA|]. split; [|split].
    + destruct (Z.eqb_spec (ActiveBlocks (TickResult_TickStatus r0)) 0);
        split; congruence.
    + destruct (Z.eqb_spec (ActiveBlocks (TickResult_TickStatus r0)) 0);
        split; congruence.
    + repeat (split; [done|]); done.
Qed.

(** C1.  In a [Tick] that returns, a cached block that is not expired
    leaves the cache or is closed only if the block-state snapshot is
    marked bootstrapped and reports [WarmRetrievable] for the block's
    start.  For a snapshot with [WarmRetrievable = false] at every start,
    [Tick] returns under every cache policy and unwires nothing: both
    unwire counters are zero and every non-expired block is still cached
    and was not closed. *)
Theorem Tick_unwires_only_warm_retrievable
    (now : Time) (s : dbSeries) (blockStates : ShardBlockStateSnapshot)
    (nsCtx_ : NsContext) :
  let evicted :=
    evictedBucketTimes (buffer_Tick (buffer s) blockStates nsCtx_).2 in
  let expired (t : UnixNano) : Prop :=
    t < expireCutoff (opts s) now \/ t ∈ evicted in
  let warm (t : UnixNano) : bool :=
    WarmRetrievable (Snapshot_at (snapshot_value blockStates) t) in
  (forall s' evs r err,
     Tick now s blockStates nsCtx_ = Returned (s', evs, (r, err)) ->
     forall t b,
       cachedBlocks s !! t = Some b -> ~ expired t ->
       cachedBlocks s' !! t = None \/ BlockClose t b ∈ evs ->
       snapshot_bootstrapped blockStates = true /\ warm t = true)
  /\ ((forall t, warm t = false) ->
      exists s' evs r err,
        Tick now s blockStates nsCtx_ = Returned (s', evs, (r, err))
        /\ MadeUnwiredBlocks r = 0
        /\ UnwiredBlocks (TickResult_TickStatus r) = 0
        /\ forall t b,
             cachedBlocks s !! t = Some b -> ~ expired t ->
             cachedBlocks s' !! t = Some b /\ BlockClose t b ∉ evs).
Proof.
  intros evicted expired warm. subst evicted.
  destruct (Tick_cases now s blockStates nsCtx_)
    as [[Hfatal (t & b & Hm & Hf)]
       |[Hnf (m' & closes & r0 & HTick & Hm' & Hcl & HE & HA & HW & HU
              & HMU & HP & HMg & HEv)]].
  - split; [intros s' evs r err HT; congruence|].
    intros Hcold. unfold stopsFatal in Hf.
    apply andb_prop in Hf as [_ Hw]. simpl in Hw.
    specialize (Hcold t). unfold warm in Hcold. congruence.
  - split.
    + intros s' evs r err HT. rewrite HTick in HT.
      injection HT as <- <- <- <-.
      intros t b Hm Hne Hgone. simpl in Hgone.
      apply (isExpired_false_iff _ _ _ t b) in Hne.
      apply (unwires_warm (opts s) now blockStates (t, b)).
      destruct Hgone as [Hgone|Hclosed].
      * rewrite Hm', Hm in Hgone. unfold isRemoved, isUnwired in Hgone.
        rewrite Hne in Hgone. simpl in Hgone.
        by destruct (unwires _ _ _ _).
      * apply elem_of_cons in Hclosed as [Hclosed|Hclosed];
          [discriminate|].
        apply Hcl in Hclosed as (t' & b' & Hm2 & Hc & Heq).
        injection Heq as <- <-.
        unfold isClosed, isUnwired in Hc. rewrite Hne in Hc. exact Hc.
    + intros Hcold.
      assert (Hnu : forall evicted t b,
                 isUnwired (opts s) now blockStates evicted (t, b) = false).
      { intros evicted t b. unfold isUnwired, unwires. simpl.
        specialize (Hcold t). unfold warm in Hcold. rewrite Hcold.
        by rewrite andb_false_r, andb_false_l, andb_false_r. }
      eexists _, _, r0, _. split; [exact HTick|].
      rewrite HMU, HU, countBlocks_zero by (intros; apply Hnu).
      split; [reflexivity|]. split; [reflexivity|].
      intros t b Hm Hne. simpl.
      apply (isExpired_false_iff _ _ _ t b) in Hne.
      split.
      * rewrite Hm', Hm. unfold isRemoved. by rewrite Hne, Hnu.
      * intros Hin. apply elem_of_cons in Hin as [Hin|Hin]; [discriminate|].
        apply Hcl in Hin as (t' & b' & Hm2 & Hc & Heq).
        injection Heq as <- <-.
        unfold isClosed in Hc. rewrite Hne, Hnu in Hc. discriminate.
Qed.

(** C2.  In a [Tick] that returns, [MadeExpiredBlocks] counts exactly the
    cached blocks whose start precedes [now - retentionPeriod] truncated
    to the block size or was reported evicted by the buffer in this tick
    (as a 64-bit counter, hence the plain count for a cache of fewer than
    2^63 blocks).
    Each such block is removed from the cache, and the series closes it
    unless the policy is [CacheLRU] and the block was retrieved from disk.
    A block that is not expired is neither counted nor treated so: it
    stays cached and unclosed unless it is unwired.  Under the four named
    cache policies [Tick] always returns. *)
Theorem Tick_expires_blocks
    (now : Time) (s : dbSeries) (blockStates : ShardBlockStateSnapshot)
    (nsCtx_ : NsContext) :
  let evicted :=
    evictedBucketTimes (buffer_Tick (buffer s) blockStates nsCtx_).2 in
  let o := opts s in
  let expired (t : UnixNano) : Prop :=
    t < Truncate (Add now (Duration_neg (RetentionPeriod o))) (BlockSize o)
    \/ t ∈ evicted in
  (forall t b, isExpired o now evicted (t, b) = true <-> expired t)
  /\ (knownPolicy (CachePolicy_ o) ->
      exists res, Tick now s blockStates nsCtx_ = Returned res)
  /\ forall s' evs r err,
       Tick now s blockStates nsCtx_ = Returned (s', evs, (r, err)) ->
       MadeExpiredBlocks r =
         wrap64 (countBlocks (isExpired o now evicted) (cachedBlocks s))
       /\ (Z.of_nat (size (cachedBlocks s)) <= int64_max ->
           MadeExpiredBlocks r =
             countBlocks (isExpired o now evicted) (cachedBlocks s))
       /\ (forall t b,
             cachedBlocks s !! t = Some b -> expired t ->
             cachedBlocks s' !! t = None
             /\ (BlockClose t b ∈ evs <->
                 ~ (CachePolicy_ o = CacheLRU
                    /\ WasRetrievedFromDisk b = true)))
       /\ (forall t b,
             cachedBlocks s !! t = Some b -> ~ expired t ->
             (cachedBlocks s' !! t = Some b /\ BlockClose t b ∉ evs)
             \/ (cachedBlocks s' !! t = None /\ BlockClose t b ∈ evs
                 /\ unwires o now blockStates (t, b) = true)).
Proof.
  intros evicted o expired. subst evicted o.
  split; [intros t b; apply isExpired_true_iff|].
  destruct (Tick_cases now s blockStates nsCtx_)
    as [[Hfatal (t & b & Hm & Hf)]
       |[Hnf (m' & closes & r0 & HTick & Hm' & Hcl & HE & HA & HW & HU
              & HMU & HP & HMg & HEv)]].
  - split.
    + intros Hk. rewrite stopsFatal_knownPolicy in Hf; done.
    + intros s' evs r err HT. congruence.
  - split; [intros _; eexists; exact HTick|].
    intros s' evs r err HT. rewrite HTick in HT.
    injection HT as <- <- <- <-.
    split; [exact HE|]. simpl. split; [|split].
    + intros Hsize. rewrite HE. apply wrap64_small.
      pose proof (countBlocks_le_size
                    (isExpired (opts s) now
                       (evictedBucketTimes
                          (buffer_Tick (buffer s) blockStates nsCtx_).2))
                    (cachedBlocks s)) as Hle.
      unfold int64_min, int64_max in *. lia.
    + intros t b Hm Hexp.
      apply (isExpired_true_iff _ _ _ t b) in Hexp.
      split.
      * rewrite Hm', Hm. unfold isRemoved. by rewrite Hexp.
      * rewrite elem_of_cons. split.
        -- intros [Hin|Hin]; [discriminate|].
           apply Hcl in Hin as (t' & b' & Hm2 & Hc & Heq).
           injection Heq as <- <-.
           unfold isClosed in Hc. rewrite Hexp in Hc. simpl in Hc.
           intros [Hlru Hdisk]. rewrite Hlru, Hdisk in Hc. discriminate.
        -- intros Hn. right. apply Hcl. exists t, b.
           split; [done|]. split; [|done].
           unfold isClosed. rewrite Hexp. simpl.
           apply negb_true_iff, not_true_is_false. intros Hb.
           apply andb_prop in Hb as [Hp Hd].
           apply CachePolicy_eqb_eq in Hp. auto.
    + intros t b Hm Hne.
      apply (isExpired_false_iff _ _ _ t b) in Hne.
      destruct (unwires (opts s) now blockStates (t, b)) eqn:Hu.
      * right. split; [|split; [|done]].
        -- rewrite Hm', Hm. unfold isRemoved, isUnwired.
           by rewrite Hne, Hu.
        -- right. apply Hcl. exists t, b. split; [done|]. split; [|done].
           unfold isClosed, isUnwired. by rewrite Hne, Hu.
      * left. split.
        -- rewrite Hm', Hm. unfold isRemoved, isUnwired.
           by rewrite Hne, Hu.
        -- intros Hin.
           apply elem_of_cons in Hin as [Hin|Hin]; [discriminate|].
           apply Hcl in Hin as (t' & b' & Hm2 & Hc & Heq).
           injection Heq as <- <-.
           unfold isClosed, isUnwired in Hc. rewrite Hne, Hu in Hc.
           discriminate.
Qed.

End TickProperties.

(** * Load, bootstrap, flush and snapshot *)

Section LoadProperties.
Context {C : Collaborators} {R : MapRange} {B : Type} {DB : databaseBuffer B}.

(** C4 (amended).  In plain load mode, or in bootstrap mode on a series
    that is not yet bootstrapped, [Load] returns without error and loads
    every block it is given into the buffer exactly with the write type of
    the routing rule: [WarmWrite] if the snapshot reports
    [WarmRetrievable = false] for the block's start, [ColdWrite] if it
    reports [true].  Nothing else is loaded. *)
Theorem Load_routes_blocks_by_WarmRetrievable
    (lopts : LoadOptions) (s : dbSeries) (blocks : DatabaseSeriesBlocks)
    (blockStates : BootstrappedBlockStateSnapshot) :
  Bootstrap lopts = false \/ bs s = bootstrapNotStarted ->
  exists s' evs r,
    Load lopts s (Some blocks) blockStates = Returned (s', evs, (r, None))
    /\ (forall t b,
          blocks !! t = Some b ->
          (WarmRetrievable (Snapshot_at blockStates (StartTime b)) = false ->
           BufferLoad b WarmWrite ∈ evs /\ BufferLoad b ColdWrite ∉ evs)
          /\ (WarmRetrievable (Snapshot_at blockStates (StartTime b)) = true ->
              BufferLoad b ColdWrite ∈ evs /\ BufferLoad b WarmWrite ∉ evs))
    /\ (forall ev, ev ∈ evs ->
          exists t b, blocks !! t = Some b
            /\ ev = BufferLoad b (writeTypeFor blockStates b))
    /\ evs = ((fun e => BufferLoad e.2 (writeTypeFor blockStates e.2))
                <$> AllBlocks blocks)
    /\ buffer s' =
         foldl (fun buf e =>
                  buffer_Load buf e.2 (writeTypeFor blockStates e.2))
           (buffer s) (AllBlocks blocks).
Proof.
  intros Hmode.
  assert (Hrouting : forall t b,
    blocks !! t = Some b ->
    let evs := (fun e => BufferLoad e.2 (writeTypeFor blockStates e.2))
                 <$> AllBlocks blocks in
    (WarmRetrievable (Snapshot_at blockStates (StartTime b)) = false ->
     BufferLoad b WarmWrite ∈ evs /\ BufferLoad b ColdWrite ∉ evs)
    /\ (WarmRetrievable (Snapshot_at blockStates (StartTime b)) = true ->
        BufferLoad b ColdWrite ∈ evs /\ BufferLoad b WarmWrite ∉ evs)).
  { intros t b Hm evs. subst evs.
    split; intros Hw; (split;
      [ apply elem_of_loads; exists t, b; split; [done|];
        unfold writeTypeFor; by rewrite Hw
      | intros Hin; apply elem_of_loads in Hin as (t' & b' & _ & Heq);
        injection Heq as <- Hwt; unfold writeTypeFor in Hwt;
        rewrite Hw in Hwt; discriminate ]). }
  unfold Load.
  destruct (Bootstrap lopts) eqn:Hb.
  - destruct Hmode as [?|Hbs]; [discriminate|].
    unfold bootstrap. rewrite Hbs. simpl. rewrite loadWithLock_spec.
    do 3 eexists. split; [reflexivity|].
    split; [exact Hrouting|].
    split; [intros ev Hin; by apply elem_of_loads|].
    split; reflexivity.
  - simpl. rewrite loadWithLock_spec.
    do 3 eexists. split; [reflexivity|].
    split; [exact Hrouting|].
    split; [intros ev Hin; by apply elem_of_loads|].
    split; reflexivity.
Qed.

(** C5.  After a first [bootstrap], and whatever calls other than
    [Reset] follow on the same instance, a further [bootstrap] returns
    [errSeriesAlreadyBootstrapped], makes no call to the buffer and leaves
    the series, its buffer included, as it was; it reports no block as
    moved to the buffer. *)
Theorem bootstrap_twice_AlreadyBootstrapped
    (s : dbSeries) (blocks1 blocks2 : option DatabaseSeriesBlocks)
    (blockStates1 blockStates2 : BootstrappedBlockStateSnapshot)
    (between : list Call) (s1 : dbSeries) :
  runCalls between (bootstrap s blocks1 blockStates1).1.1 = Returned s1 ->
  bootstrap s1 blocks2 blockStates2 =
    (s1, [], (BootstrapResult_zero, Some errSeriesAlreadyBootstrapped))
  /\ buffer (bootstrap s1 blocks2 blockStates2).1.1 = buffer s1
  /\ NumBlocksMovedToBuffer (bootstrap s1 blocks2 blockStates2).2.1 = 0
  /\ forall b wt,
       BufferLoad b wt ∉ (bootstrap s1 blocks2 blockStates2).1.2.
Proof.
  intros Hrun.
  assert (Hbs : bs s1 = bootstrapped).
  { eapply runCalls_bs; [exact Hrun|]. apply bootstrap_bs. }
  rewrite (bootstrap_already s1 blocks2 blockStates2 Hbs). simpl.
  repeat split. intros b wt Hin. inversion Hin.
Qed.

(** C10.  After any call to [bootstrap] the series is in the
    [bootstrapped] state: when blocks were loaded, when it was given no
    blocks (nil), and when it returned [errSeriesAlreadyBootstrapped].  A
    first [bootstrap] with nil blocks returns no error and calls nothing,
    and afterwards [WarmFlush] and [Snapshot] pass their bootstrap check:
    they are the buffer's [WarmFlush] and [Snapshot]. *)
Theorem bootstrap_always_ends_bootstrapped
    (s : dbSeries) (blocks : option DatabaseSeriesBlocks)
    (blockStates : BootstrappedBlockStateSnapshot) :
  let s' := (bootstrap s blocks blockStates).1.1 in
  bs s' = bootstrapped
  /\ IsBootstrapped s' = true
  /\ (bs s = bootstrapNotStarted ->
      bootstrap s None blockStates =
        (set_bs s bootstrapped, [], (BootstrapResult_zero, None)))
  /\ (forall ctx blockStart persistFn nsCtx_,
        WarmFlush s' ctx blockStart persistFn nsCtx_ =
          (set_buffer s'
             (buffer_WarmFlush (buffer s') ctx blockStart (id s') (tags s')
                persistFn nsCtx_).1,
           [BufferWarmFlush blockStart (id s') (tags s') persistFn],
           (buffer_WarmFlush (buffer s') ctx blockStart (id s') (tags s')
              persistFn nsCtx_).2))
  /\ (forall ctx blockStart persistFn nsCtx_,
        Snapshot s' ctx blockStart persistFn nsCtx_ =
          (set_buffer s'
             (buffer_Snapshot (buffer s') ctx blockStart (id s') (tags s')
                persistFn nsCtx_).1,
           [BufferSnapshot blockStart (id s') (tags s') persistFn],
           (buffer_Snapshot (buffer s') ctx blockStart (id s') (tags s')
              persistFn nsCtx_).2)).
Proof.
  intros s'. pose proof (bootstrap_bs s blocks blockStates) as Hbs.
  fold s' in Hbs.
  split; [exact Hbs|].
  split; [unfold IsBootstrapped; by rewrite Hbs|].
  split; [intros Hns; unfold bootstrap; by rewrite Hns|].
  split; intros ctx blockStart persistFn nsCtx_.
  - unfold WarmFlush. rewrite Hbs. simpl.
    by destruct (buffer_WarmFlush _ _ _ _ _ _ _).
  - unfold Snapshot. rewrite Hbs. simpl.
    by destruct (buffer_Snapshot _ _ _ _ _ _ _).
Qed.

(** C6.  On a series that is not bootstrapped, [WarmFlush] returns
    [FlushOutcomeErr] with [errSeriesNotBootstrapped] and [Snapshot]
    returns [errSeriesNotBootstrapped]; neither calls the buffer (so the
    persist function is not run) and the series is unchanged.  On a
    bootstrapped series each is the buffer's call of the same name, with
    the series' id and tags and the supplied persist function. *)
Theorem WarmFlush_Snapshot_require_bootstrapped
    (s : dbSeries) (ctx : Ctx) (blockStart : Time) (persistFn : DataFn)
    (nsCtx_ : NsContext) :
  (bs s = bootstrapNotStarted ->
   WarmFlush s ctx blockStart persistFn nsCtx_ =
     (s, [], (FlushOutcomeErr, Some errSeriesNotBootstrapped))
   /\ Snapshot s ctx blockStart persistFn nsCtx_ =
        (s, [], Some errSeriesNotBootstrapped))
  /\ (bs s = bootstrapped ->
      WarmFlush s ctx blockStart persistFn nsCtx_ =
        (set_buffer s
           (buffer_WarmFlush (buffer s) ctx blockStart (id s) (tags s)
              persistFn nsCtx_).1,
         [BufferWarmFlush blockStart (id s) (tags s) persistFn],
         (buffer_WarmFlush (buffer s) ctx blockStart (id s) (tags s)
            persistFn nsCtx_).2)
      /\ Snapshot s ctx blockStart persistFn nsCtx_ =
           (set_buffer s
              (buffer_Snapshot (buffer s) ctx blockStart (id s) (tags s)
                 persistFn nsCtx_).1,
            [BufferSnapshot blockStart (id s) (tags s) persistFn],
            (buffer_Snapshot (buffer s) ctx blockStart (id s) (tags s)
               persistFn nsCtx_).2)).
Proof.
  unfold WarmFlush, Snapshot. split; intros Hbs; rewrite Hbs; simpl.
  - done.
  - by destruct (buffer_WarmFlush _ _ _ _ _ _ _),
                (buffer_Snapshot _ _ _ _ _ _ _).
Qed.

End LoadProperties.

(** * Close and the retrieval bridge *)

Section BridgeProperties.
Context {C : Collaborators} {R : MapRange} {B : Type} {DB : databaseBuffer B}.

(** C3.  [Close] clears the id and the tags.  Unless the cache policy is
    [CacheLRU] it closes every cached block, and closes nothing else;
    under [CacheLRU] it closes no block, so the disk-retrieved ones stay
    unclosed.  It then resets the buffer (with a nil id) and the block
    cache, which ends empty, and last puts the series back into its pool
    when it has one.  Bootstrap state, options and pool are kept. *)
Theorem Close_clears_closes_resets_and_pools (s : dbSeries) :
  let s' := (Close s).1 in
  let evs := (Close s).2 in
  id s' = None
  /\ tags s' = Tags_zero
  /\ cachedBlocks s' = ∅
  /\ buffer s' = buffer_Reset (buffer s) None (opts s)
  /\ bs s' = bs s /\ opts s' = opts s /\ pool s' = pool s
  /\ exists closes,
       evs = closes ++ [BufferReset None]
               ++ match pool s with
                  | Some p => [SeriesPoolPut p]
                  | None => []
                  end
       /\ (forall ev, ev ∈ closes <->
             CachePolicy_ (opts s) <> CacheLRU
             /\ exists t b, cachedBlocks s !! t = Some b
                  /\ ev = BlockClose t b)
       /\ (CachePolicy_ (opts s) <> CacheLRU ->
           forall t b, cachedBlocks s !! t = Some b -> BlockClose t b ∈ evs)
       /\ (CachePolicy_ (opts s) = CacheLRU ->
           forall t b, BlockClose t b ∉ evs).
Proof.
  intros s' evs. subst s' evs. unfold Close. simpl.
  assert (Hall : forall ev,
    ev ∈ ((fun e : UnixNano * DatabaseBlock => BlockClose e.1 e.2)
            <$> AllBlocks (cachedBlocks s)) <->
    exists t b, cachedBlocks s !! t = Some b /\ ev = BlockClose t b).
  { intros ev. rewrite list_elem_of_fmap. split.
    - intros ([t b] & -> & Hin). exists t, b.
      split; [by apply elem_of_AllBlocks|done].
    - intros (t & b & Hm & ->). exists (t, b).
      split; [done|by apply elem_of_AllBlocks]. }
  assert (Hrest : forall t b,
    BlockClose t b ∉ [BufferReset None]
                       ++ match pool s with
                          | Some p => [SeriesPoolPut p]
                          | None => []
                          end).
  { intros t b Hin. destruct (pool s);
      repeat (apply elem_of_cons in Hin as [Hin|Hin]; [discriminate|]);
      inversion Hin. }
  assert (Hsplit : forall closes : list Event,
    (forall t b, BlockClose t b ∉ closes) ->
    forall t b, BlockClose t b ∉ closes ++ [BufferReset None]
                  ++ match pool s with
                     | Some p => [SeriesPoolPut p]
                     | None => []
                     end).
  { intros closes Hno t b Hin. apply elem_of_app in Hin as [Hin|Hin].
    - by apply (Hno t b).
    - by apply (Hrest t b). }
  destruct (CachePolicy_ (opts s)) eqn:Hpol;
    repeat (split; [reflexivity|]).
  4: {
    exists []. split; [reflexivity|]. split; [|split].
    - intros ev. split; [intros Hin; inversion Hin|intros [Hne _]; done].
    - intros Hne. done.
    - intros _. apply Hsplit. intros t b Hin. inversion Hin. }
  all: exists ((fun e : UnixNano * DatabaseBlock => BlockClose e.1 e.2)
                 <$> AllBlocks (cachedBlocks s));
    (split; [reflexivity|]; split; [|split];
     [ intros ev; rewrite Hall; split;
       [intros Hex; split; [discriminate|exact Hex]
       |intros [_ Hex]; exact Hex]
     | intros _ t b Hm; apply elem_of_app; left; apply Hall; eauto
     | intros Hlru; discriminate ]).
Qed.

(** C8.  [OnRetrieveBlock] with an id that does not equal the series'
    current id changes nothing in the series, the block cache included,
    and makes no Wired List update.  With a matching id it inserts, under
    the given start, the pooled block reset from disk: marked as retrieved
    from disk, last read at [now], with the series' block size, id and
    eviction hook and the given segment; nothing else in the series
    changes, and the Wired List gets one blocking update for that block
    when a list is configured. *)
Theorem OnRetrieveBlock_guards_identity
    (now : Time) (pooled : DatabaseBlock) (s : dbSeries (B := B))
    (id_ : ID) (tags_ : TagIterator) (startTime : Time)
    (segment_ : Segment) (nsCtx_ : NsContext) :
  let s' :=
    (OnRetrieveBlock now pooled s id_ tags_ startTime segment_ nsCtx_).1 in
  let evs :=
    (OnRetrieveBlock now pooled s id_ tags_ startTime segment_ nsCtx_).2 in
  (ID_Equal id_ (id s) = false -> s' = s /\ evs = [])
  /\ (ID_Equal id_ (id s) = true ->
      exists b,
        s' = set_cachedBlocks s (<[startTime := b]> (cachedBlocks s))
        /\ cachedBlocks s' !! startTime = Some b
        /\ (forall t, t <> startTime ->
              cachedBlocks s' !! t = cachedBlocks s !! t)
        /\ WasRetrievedFromDisk b = true
        /\ LastReadTime b = now
        /\ StartTime b = startTime
        /\ blockSize b = BlockSize (opts s)
        /\ segment b = segment_
        /\ seriesID b = id s
        /\ onEvictedFromWiredList b = blockOnEvictedFromWiredList s
        /\ evs = if WiredList (opts s) then [WiredListBlockingUpdate b]
                 else []).
Proof.
  intros s' evs. subst s' evs. unfold OnRetrieveBlock.
  split; intros Heq; rewrite Heq; simpl; [done|].
  eexists. split; [reflexivity|]. simpl.
  split; [apply lookup_insert_eq|].
  split; [intros t Ht; by apply lookup_insert_ne|].
  repeat (split; [reflexivity|]).
  by destruct (WiredList (opts s)).
Qed.

(** C9.  [OnEvictedFromWiredList] changes nothing and calls nothing when
    the id does not equal the series' current id, or when no block is
    cached at the given start.  With a matching id and a block cached at
    the start: if the block is marked retrieved from disk its entry is
    removed, the other entries stay, and no block is closed; if it is not,
    the invariant violation is logged and the series is left unchanged. *)
Theorem OnEvictedFromWiredList_removes_only_disk_retrieved
    (s : dbSeries (B := B)) (id_ : ID) (blockStart : Time) :
  let s' := (OnEvictedFromWiredList s id_ blockStart).1 in
  let evs := (OnEvictedFromWiredList s id_ blockStart).2 in
  (ID_Equal id_ (id s) = false -> s' = s /\ evs = [])
  /\ (ID_Equal id_ (id s) = true ->
      cachedBlocks s !! blockStart = None -> s' = s /\ evs = [])
  /\ (forall b,
        ID_Equal id_ (id s) = true ->
        cachedBlocks s !! blockStart = Some b ->
        (WasRetrievedFromDisk b = true ->
         s' = set_cachedBlocks s (delete blockStart (cachedBlocks s))
         /\ cachedBlocks s' !! blockStart = None
         /\ (forall t, t <> blockStart ->
               cachedBlocks s' !! t = cachedBlocks s !! t)
         /\ evs = [])
        /\ (WasRetrievedFromDisk b = false ->
            s' = s /\ evs = [InvariantViolation id_ blockStart]))
  /\ (forall t b, BlockClose t b ∉ evs)
  /\ (cachedBlocks s' <> cachedBlocks s ->
      ID_Equal id_ (id s) = true
      /\ exists b, cachedBlocks s !! blockStart = Some b
           /\ WasRetrievedFromDisk b = true).
Proof.
  intros s' evs. subst s' evs.
  unfold OnEvictedFromWiredList, BlockAt, RemoveBlockAt, ToUnixNano.
  split; [intros Heq; by rewrite Heq|].
  split; [intros Heq Hnone; by rewrite Heq, Hnone|].
  split; [|split].
  - intros b Heq Hsome. rewrite Heq, Hsome. simpl.
    split; intros Hdisk; rewrite Hdisk; simpl; [|done].
    split; [reflexivity|].
    split; [apply lookup_delete_eq|].
    split; [intros t Ht; by apply lookup_delete_ne|reflexivity].
  - intros t b.
    destruct (negb (ID_Equal id_ (id s))); [intros Hin; inversion Hin|].
    destruct (cachedBlocks s !! blockStart) as [b'|];
      [|intros Hin; inversion Hin].
    destruct (negb (WasRetrievedFromDisk b')); simpl; intros Hin.
    + apply elem_of_cons in Hin as [Hin|Hin]; [discriminate|inversion Hin].
    + inversion Hin.
  - destruct (ID_Equal id_ (id s)); simpl; [|done].
    destruct (cachedBlocks s !! blockStart) as [b'|] eqn:Hm; [|done].
    destruct (WasRetrievedFromDisk b') eqn:Hd; simpl; [|done].
    intros _. split; [done|]. by exists b'.
Qed.

End BridgeProperties.

(** * The properties at concrete series *)

Import example.

(** The scenario of the specification: two-hour blocks, 48 hours of
    retention, [CacheRecentlyRead] with one hour of not-accessed expiry, one
    cached block at [now - 3h] last read at [now - 2h] and warm-retrievable.
    The tick unwires and closes it; it was counted active before. *)
Example Tick_CacheRecentlyRead_scenario :
  Tick now0
    (mkSeries CacheRecentlyRead bootstrapped
       [mkBlock (now0 - 3 * hour) false (now0 - 2 * hour)])
    (mkSnapshot true [now0 - 3 * hour]) tt
  = Returned
      (mkSeries CacheRecentlyRead bootstrapped [],
       [BufferTick (mkSnapshot true [now0 - 3 * hour]);
        BlockClose (now0 - 3 * hour)
          (mkBlock (now0 - 3 * hour) false (now0 - 2 * hour))],
       ({| TickResult_TickStatus :=
             {| ActiveBlocks := 1; WiredBlocks := 0; UnwiredBlocks := 1;
                PendingMergeBlocks := 0 |};
           MadeExpiredBlocks := 0; MadeUnwiredBlocks := 1;
           MergedOutOfOrderBlocks := 0; EvictedBuckets := 0 |},
        None)).
Proof. vm_compute. reflexivity. Qed.

(** One cached block, read from disk and older than the retention period,
    and an empty buffer: the tick expires it and reports that all
    datapoints are expired. *)
Lemma Tick_AllDatapointsExpired_witness :
  exists s' evs r,
    Tick now0
      (mkSeries CacheLRU bootstrapped [mkBlock (now0 - 50 * hour) true 0])
      (mkSnapshot true []) tt
    = Returned (s', evs, (r, Some ErrSeriesAllDatapointsExpired))
    /\ ActiveBlocks (TickResult_TickStatus r) = 0
    /\ MadeExpiredBlocks r = 1.
Proof.
  pose proof (Tick_AllDatapointsExpired_iff_no_active_blocks now0
    (mkSeries CacheLRU bootstrapped [mkBlock (now0 - 50 * hour) true 0])
    (mkSnapshot true []) tt) as [Htot Hret].
  destruct Htot as [[[s' evs] [r err]] HT]; [vm_compute; discriminate|].
  destruct (Hret s' evs r err HT) as (HA & Hiff & _ & _ & _ & HE & _).
  assert (Hzero : ActiveBlocks (TickResult_TickStatus r) = 0)
    by (rewrite HA; vm_compute; reflexivity).
  exists s', evs, r. split; [|split].
  - rewrite HT. apply Hiff in Hzero. by rewrite Hzero.
  - exact Hzero.
  - rewrite HE. vm_compute. reflexivity.
Defined.

(** A block read two hours ago under [CacheRecentlyRead] with one hour of
    not-accessed expiry is unwired, and its start is warm-retrievable in
    the bootstrapped snapshot; with a snapshot that reports no start as
    warm-retrievable the same tick unwires nothing. *)
Lemma Tick_unwires_only_warm_retrievable_witness :
  (snapshot_bootstrapped (mkSnapshot true [now0 - 4 * hour]) = true
   /\ WarmRetrievable
        (Snapshot_at (snapshot_value (mkSnapshot true [now0 - 4 * hour]))
           (now0 - 4 * hour)) = true)
  /\ exists s' evs r err,
       Tick now0
         (mkSeries CacheRecentlyRead bootstrapped
            [mkBlock (now0 - 4 * hour) false (now0 - 2 * hour)])
         (mkSnapshot true []) tt
       = Returned (s', evs, (r, err))
       /\ MadeUnwiredBlocks r = 0.
Proof.
  split.
  - pose proof (Tick_unwires_only_warm_retrievable now0
      (mkSeries CacheRecentlyRead bootstrapped
         [mkBlock (now0 - 4 * hour) false (now0 - 2 * hour)])
      (mkSnapshot true [now0 - 4 * hour]) tt) as [Honly _].
    eapply (Honly _ _ _ _ ltac:(vm_compute; reflexivity)
              (now0 - 4 * hour)
              (mkBlock (now0 - 4 * hour) false (now0 - 2 * hour))).
    + vm_compute. reflexivity.
    + intros [Hlt|Hin].
      * vm_compute in Hlt. discriminate.
      * vm_compute in Hin. inversion Hin.
    + left. vm_compute. reflexivity.
  - pose proof (Tick_unwires_only_warm_retrievable now0
      (mkSeries CacheRecentlyRead bootstrapped
         [mkBlock (now0 - 4 * hour) false (now0 - 2 * hour)])
      (mkSnapshot true []) tt) as [_ Hcold].
    destruct Hcold as (s' & evs & r & err & HT & HM & _).
    + intros t. vm_compute. reflexivity.
    + exists s', evs, r, err. split; [exact HT|exact HM].
Defined.

(** Under [CacheLRU], of two blocks older than the retention period the
    one retrieved from disk is removed without being closed and the other
    is removed and closed; both are counted. *)
Lemma Tick_expires_blocks_witness :
  exists s' evs r err,
    Tick now0
      (mkSeries CacheLRU bootstrapped
         [mkBlock (now0 - 60 * hour) true 0;
          mkBlock (now0 - 52 * hour) false 0;
          mkBlock (now0 - 4 * hour) true 0])
      (mkSnapshot true []) tt
    = Returned (s', evs, (r, err))
    /\ MadeExpiredBlocks r = 2
    /\ cachedBlocks s' !! (now0 - 60 * hour) = None
    /\ (BlockClose (now0 - 60 * hour) (mkBlock (now0 - 60 * hour) true 0)
         ∉ evs)
    /\ cachedBlocks s' !! (now0 - 52 * hour) = None
    /\ BlockClose (now0 - 52 * hour) (mkBlock (now0 - 52 * hour) false 0)
         ∈ evs.
Proof.
  pose proof (Tick_expires_blocks now0
    (mkSeries CacheLRU bootstrapped
       [mkBlock (now0 - 60 * hour) true 0;
        mkBlock (now0 - 52 * hour) false 0;
        mkBlock (now0 - 4 * hour) true 0])
    (mkSnapshot true []) tt) as (_ & Htot & Hret).
  destruct Htot as [[[s' evs] [r err]] HT]; [vm_compute; discriminate|].
  destruct (Hret s' evs r err HT) as (HE & _ & Hexp & _).
  destruct (Hexp (now0 - 60 * hour) (mkBlock (now0 - 60 * hour) true 0))
    as [Hgone1 Hclose1];
    [vm_compute; reflexivity|left; vm_compute; reflexivity|].
  destruct (Hexp (now0 - 52 * hour) (mkBlock (now0 - 52 * hour) false 0))
    as [Hgone2 Hclose2];
    [vm_compute; reflexivity|left; vm_compute; reflexivity|].
  exists s', evs, r, err.
  split; [exact HT|].
  split; [rewrite HE; vm_compute; reflexivity|].
  split; [exact Hgone1|].
  split; [intros Hin; apply Hclose1 in Hin; apply Hin; by split|].
  split; [exact Hgone2|].
  apply Hclose2. intros [_ Hdisk]. discriminate.
Defined.

(** A plain load of a block whose start is not warm-retrievable, on a
    bootstrapped series: it reaches the buffer as a warm write. *)
Lemma Load_routes_blocks_by_WarmRetrievable_witness :
  exists s' evs r,
    Load {| Bootstrap := false |} (mkSeries CacheLRU bootstrapped [])
      (Some {[ now0 := mkBlock now0 false 0 ]})
      (mkBootstrappedBlockStateSnapshot ∅)
    = Returned (s', evs, (r, None))
    /\ BufferLoad (mkBlock now0 false 0) WarmWrite ∈ evs
    /\ BufferLoad (mkBlock now0 false 0) ColdWrite ∉ evs.
Proof.
  destruct (Load_routes_blocks_by_WarmRetrievable {| Bootstrap := false |}
              (mkSeries CacheLRU bootstrapped [])
              {[ now0 := mkBlock now0 false 0 ]}
              (mkBootstrappedBlockStateSnapshot ∅))
    as (s' & evs & r & HL & Hroute & _); [left; reflexivity|].
  destruct (Hroute now0 (mkBlock now0 false 0)) as [Hwarm _];
    [vm_compute; reflexivity|].
  exists s', evs, r. split; [exact HL|].
  apply Hwarm. vm_compute. reflexivity.
Defined.

(** C4, as stated, fails: in bootstrap mode on a series that is already
    bootstrapped, a block whose start is not warm-retrievable is not
    loaded at all; the call returns [errSeriesAlreadyBootstrapped] and
    makes no buffer call. *)
Lemma Load_bootstrap_mode_already_bootstrapped_loads_nothing :
  Load {| Bootstrap := true |} (mkSeries CacheLRU bootstrapped [])
    (Some {[ now0 := mkBlock now0 false 0 ]})
    (mkBootstrappedBlockStateSnapshot ∅)
  = Returned (mkSeries CacheLRU bootstrapped [], [],
              ({| LoadResult_Bootstrap := BootstrapResult_zero |},
               Some errSeriesAlreadyBootstrapped))
  /\ WarmRetrievable
       (Snapshot_at (mkBootstrappedBlockStateSnapshot ∅)
          (StartTime (mkBlock now0 false 0))) = false
  /\ BufferLoad (mkBlock now0 false 0) WarmWrite ∉ ([] : list Event).
Proof.
  split; [vm_compute; reflexivity|].
  split; [vm_compute; reflexivity|].
  intros Hin. inversion Hin.
Qed.

(** A bootstrap with one block, then a plain load, a tick and a close;
    the next bootstrap is refused. *)
Lemma bootstrap_twice_AlreadyBootstrapped_witness :
  exists s1,
    runCalls
      [CallLoad {| Bootstrap := false |}
         (Some {[ now0 := mkBlock now0 false 0 ]})
         (mkBootstrappedBlockStateSnapshot ∅);
       CallTick now0 (mkSnapshot true []) tt;
       CallClose]
      (bootstrap (mkSeries CacheLRU bootstrapNotStarted [])
         (Some {[ now0 - 2 * hour := mkBlock (now0 - 2 * hour) false 0 ]})
         (mkBootstrappedBlockStateSnapshot ∅)).1.1
    = Returned s1
    /\ bootstrap s1 (Some {[ now0 := mkBlock now0 false 0 ]})
         (mkBootstrappedBlockStateSnapshot ∅)
       = (s1, [], (BootstrapResult_zero, Some errSeriesAlreadyBootstrapped)).
Proof.
  eexists. split; [vm_compute; reflexivity|].
  refine (proj1 (bootstrap_twice_AlreadyBootstrapped
                   (mkSeries CacheLRU bootstrapNotStarted [])
                   (Some {[ now0 - 2 * hour :=
                              mkBlock (now0 - 2 * hour) false 0 ]})
                   (Some {[ now0 := mkBlock now0 false 0 ]})
                   (mkBootstrappedBlockStateSnapshot ∅)
                   (mkBootstrappedBlockStateSnapshot ∅)
                   [CallLoad {| Bootstrap := false |}
                      (Some {[ now0 := mkBlock now0 false 0 ]})
                      (mkBootstrappedBlockStateSnapshot ∅);
                    CallTick now0 (mkSnapshot true []) tt;
                    CallClose]
                   _ _)).
  vm_compute. reflexivity.
Defined.

(** A series that was never bootstrapped refuses to flush and to
    snapshot; once bootstrapped, the calls reach the buffer. *)
Lemma WarmFlush_Snapshot_require_bootstrapped_witness :
  (WarmFlush (mkSeries CacheLRU bootstrapNotStarted []) tt now0 0%nat tt
   = (mkSeries CacheLRU bootstrapNotStarted [], [],
      (FlushOutcomeErr, Some errSeriesNotBootstrapped))
   /\ Snapshot (mkSeries CacheLRU bootstrapNotStarted []) tt now0 0%nat tt
      = (mkSeries CacheLRU bootstrapNotStarted [], [],
         Some errSeriesNotBootstrapped))
  /\ (WarmFlush (mkSeries CacheLRU bootstrapped []) tt now0 0%nat tt).1.2
     = [BufferWarmFlush now0 (Some "foo"%string) [] 0%nat].
Proof.
  split.
  - apply (WarmFlush_Snapshot_require_bootstrapped
             (mkSeries CacheLRU bootstrapNotStarted []) tt now0 0%nat tt).
    reflexivity.
  - destruct (WarmFlush_Snapshot_require_bootstrapped
                (mkSeries CacheLRU bootstrapped []) tt now0 0%nat tt)
      as [_ Hboot].
    destruct Hboot as [HW _]; [reflexivity|].
    rewrite HW. reflexivity.
Defined.

(** A first bootstrap with nil blocks. *)
Lemma bootstrap_always_ends_bootstrapped_witness :
  bootstrap (mkSeries CacheLRU bootstrapNotStarted []) None
    (mkBootstrappedBlockStateSnapshot ∅)
  = (mkSeries CacheLRU bootstrapped [], [], (BootstrapResult_zero, None))
  /\ IsBootstrapped
       (bootstrap (mkSeries CacheLRU bootstrapNotStarted []) None
          (mkBootstrappedBlockStateSnapshot ∅)).1.1 = true.
Proof.
  destruct (bootstrap_always_ends_bootstrapped
              (mkSeries CacheLRU bootstrapNotStarted []) None
              (mkBootstrappedBlockStateSnapshot ∅))
    as (_ & Hboot & Hnil & _).
  split; [|exact Hboot].
  rewrite Hnil; reflexivity.
Defined.

(** Closing a [CacheNone] series closes its cached block and pools the
    series; closing a [CacheLRU] series closes no block. *)
Lemma Close_clears_closes_resets_and_pools_witness :
  BlockClose now0 (mkBlock now0 false 0)
    ∈ (Close (mkSeries CacheNone bootstrapped [mkBlock now0 false 0])).2
  /\ (BlockClose now0 (mkBlock now0 true 0)
        ∉ (Close (mkSeries CacheLRU bootstrapped [mkBlock now0 true 0])).2).
Proof.
  split.
  - destruct (Close_clears_closes_resets_and_pools
                (mkSeries CacheNone bootstrapped [mkBlock now0 false 0]))
      as (_ & _ & _ & _ & _ & _ & _ & closes & _ & _ & Hall & _).
    apply Hall; [vm_compute; discriminate|vm_compute; reflexivity].
  - destruct (Close_clears_closes_resets_and_pools
                (mkSeries CacheLRU bootstrapped [mkBlock now0 true 0]))
      as (_ & _ & _ & _ & _ & _ & _ & closes & _ & _ & _ & Hlru).
    apply Hlru. reflexivity.
Defined.

(** A retrieval callback for another id leaves the series alone; one for
    the series' id caches the block as retrieved from disk. *)
Lemma OnRetrieveBlock_guards_identity_witness :
  OnRetrieveBlock now0 (mkBlock 0 false 0)
    (mkSeries CacheLRU bootstrapped []) "bar"%string tt
    (now0 - 2 * hour) [1; 2] tt
  = (mkSeries CacheLRU bootstrapped [], [])
  /\ exists b,
       cachedBlocks
         (OnRetrieveBlock now0 (mkBlock 0 false 0)
            (mkSeries CacheLRU bootstrapped []) "foo"%string tt
            (now0 - 2 * hour) [1; 2] tt).1
         !! (now0 - 2 * hour) = Some b
       /\ WasRetrievedFromDisk b = true
       /\ LastReadTime b = now0.
Proof.
  destruct (OnRetrieveBlock_guards_identity now0 (mkBlock 0 false 0)
              (mkSeries CacheLRU bootstrapped []) "bar"%string tt
              (now0 - 2 * hour) [1; 2] tt) as [Hother _].
  destruct (OnRetrieveBlock_guards_identity now0 (mkBlock 0 false 0)
              (mkSeries CacheLRU bootstrapped []) "foo"%string tt
              (now0 - 2 * hour) [1; 2] tt) as [_ Hsame].
  split.
  - destruct Hother as [Hs Hevs]; [reflexivity|].
    rewrite (surjective_pairing (OnRetrieveBlock _ _ _ _ _ _ _ _)).
    by rewrite Hs, Hevs.
  - destruct Hsame as (b & _ & Hin & _ & Hdisk & Hread & _); [reflexivity|].
    exists b. split; [exact Hin|]. split; [exact Hdisk|exact Hread].
Defined.

(** An eviction callback for another id, and one for a cached block that
    was not retrieved from disk, remove nothing; one for a cached block
    that was retrieved from disk removes its entry. *)
Lemma OnEvictedFromWiredList_removes_only_disk_retrieved_witness :
  OnEvictedFromWiredList
    (mkSeries CacheLRU bootstrapped [mkBlock now0 true 0]) "bar"%string now0
  = (mkSeries CacheLRU bootstrapped [mkBlock now0 true 0], [])
  /\ OnEvictedFromWiredList
       (mkSeries CacheLRU bootstrapped [mkBlock now0 false 0])
       "foo"%string now0
     = (mkSeries CacheLRU bootstrapped [mkBlock now0 false 0],
        [InvariantViolation "foo"%string now0])
  /\ cachedBlocks
       (OnEvictedFromWiredList
          (mkSeries CacheLRU bootstrapped [mkBlock now0 true 0])
          "foo"%string now0).1 !! now0 = None.
Proof.
  split; [|split].
  - destruct (OnEvictedFromWiredList_removes_only_disk_retrieved
                (mkSeries CacheLRU bootstrapped [mkBlock now0 true 0])
                "bar"%string now0) as [Hother _].
    destruct Hother as [Hs Hevs]; [reflexivity|].
    rewrite (surjective_pairing (OnEvictedFromWiredList _ _ _)).
    by rewrite Hs, Hevs.
  - destruct (OnEvictedFromWiredList_removes_only_disk_retrieved
                (mkSeries CacheLRU bootstrapped [mkBlock now0 false 0])
                "foo"%string now0) as (_ & _ & Hsome & _).
    destruct (Hsome (mkBlock now0 false 0)) as [_ Hnot];
      [reflexivity|vm_compute; reflexivity|].
    destruct Hnot as [Hs Hevs]; [reflexivity|].
    rewrite (surjective_pairing (OnEvictedFromWiredList _ _ _)).
    by rewrite Hs, Hevs.
  - destruct (OnEvictedFromWiredList_removes_only_disk_retrieved
                (mkSeries CacheLRU bootstrapped [mkBlock now0 true 0])
                "foo"%string now0) as (_ & _ & Hsome & _).
    destruct (Hsome (mkBlock now0 true 0)) as [Hdisk _];
      [reflexivity|vm_compute; reflexivity|].
    destruct Hdisk as (_ & Hgone & _); [reflexivity|exact Hgone].
Defined.

(** * More about the tick *)

Lemma wrap64_add (a b : Z) : wrap64 (wrap64 a + wrap64 b) = wrap64 (a + b).
Proof.
  rewrite wrap64_add_l, (Z.add_comm a), wrap64_add_l. f_equal. lia.
Qed.

Lemma count_split {A : Type} (f g h : A -> bool) (l : list A) :
  (forall x, x ∈ l -> b2z (f x) = b2z (g x) + b2z (h x)) ->
  count f l = count g l + count h l.
Proof.
  induction l as [|x l IH]; intros Hsum; [reflexivity|].
  rewrite !count_b2z, Hsum, IH; [lia| |left].
  intros y Hy. apply Hsum. by right.
Qed.

Lemma count_negb {A : Type} (f : A -> bool) (l : list A) :
  count f l + count (fun x => negb (f x)) l = Z.of_nat (length l).
Proof.
  induction l as [|x l IH]; [reflexivity|].
  rewrite !count_b2z. simpl length. destruct (f x); simpl; lia.
Qed.

Lemma countBlocks_insert {A : Type} (f : UnixNano * A -> bool)
    (m : gmap UnixNano A) (t : UnixNano) (a : A) :
  m !! t = None ->
  countBlocks f (<[t := a]> m) = b2z (f (t, a)) + countBlocks f m.
Proof.
  intros Hm. unfold countBlocks.
  rewrite (count_Permutation f _ _ (map_to_list_insert m t a Hm)).
  apply count_b2z.
Qed.

(** The size of what is left of a map after the entries that pass a test
    were removed. *)
Lemma size_after_removal {A : Type} (f : UnixNano * A -> bool)
    (m m' : gmap UnixNano A) :
  (forall t, m' !! t =
     match m !! t with
     | Some a => if f (t, a) then None else Some a
     | None => None
     end) ->
  Z.of_nat (size m') = countBlocks (fun e => negb (f e)) m.
Proof.
  revert m'. induction m as [|t a m Hm IH] using map_ind;
    intros m' Hm'.
  - assert (m' = ∅) as ->.
    { apply map_eq. intros t. rewrite Hm', !lookup_empty. done. }
    reflexivity.
  - rewrite countBlocks_insert by done.
    rewrite <- (IH (delete t m')).
    + destruct (f (t, a)) eqn:Hf; simpl.
      * rewrite delete_id; [lia|].
        rewrite Hm', lookup_insert_eq. by rewrite Hf.
      * assert (Hin : m' !! t = Some a)
          by (rewrite Hm', lookup_insert_eq; by rewrite Hf).
        rewrite <- (insert_delete_id m' t a Hin) at 1.
        rewrite map_size_insert_None by apply lookup_delete_eq. lia.
    + intros t'. destruct (decide (t = t')) as [<-|Hne].
      * by rewrite lookup_delete_eq, Hm.
      * rewrite lookup_delete_ne, Hm', lookup_insert_ne by done. done.
Qed.

Section TickMore.
Context {C : Collaborators} {R : MapRange} {B : Type} {DB : databaseBuffer B}.

(** What a returning tick gives, in one place. *)
Lemma Tick_Returned_inv (now : Time) (s s' : dbSeries)
    (blockStates : ShardBlockStateSnapshot) (nsCtx_ : NsContext)
    (evs : list Event) (r : TickResult) (err : option error) :
  Tick now s blockStates nsCtx_ = Returned (s', evs, (r, err)) ->
  let m := cachedBlocks s in
  let o := opts s in
  let buf := (buffer_Tick (buffer s) blockStates nsCtx_).1 in
  let evicted :=
    evictedBucketTimes (buffer_Tick (buffer s) blockStates nsCtx_).2 in
  let w := wiredBlocks (buffer_Stats buf) in
  exists closes,
    s' = set_cachedBlocks (set_buffer s buf) (cachedBlocks s')
    /\ evs = BufferTick blockStates :: closes
    /\ (forall t, cachedBlocks s' !! t =
          match m !! t with
          | Some b =>
              if isRemoved o now blockStates evicted (t, b) then None
              else Some b
          | None => None
          end)
    /\ (forall ev, ev ∈ closes <->
          exists t b, m !! t = Some b
            /\ isClosed o now blockStates evicted (t, b) = true
            /\ ev = BlockClose t b)
    /\ MadeExpiredBlocks r = wrap64 (countBlocks (isExpired o now evicted) m)
    /\ ActiveBlocks (TickResult_TickStatus r) =
         wrap64 (countBlocks (isActive o now evicted) m + w)
    /\ WiredBlocks (TickResult_TickStatus r) =
         wrap64 (countBlocks (isWired o now blockStates evicted) m + w)
    /\ UnwiredBlocks (TickResult_TickStatus r) =
         wrap64 (countBlocks (isUnwired o now blockStates evicted) m)
    /\ MadeUnwiredBlocks r =
         wrap64 (countBlocks (isUnwired o now blockStates evicted) m)
    /\ PendingMergeBlocks (TickResult_TickStatus r) =
         wrap64 (countBlocks (isPendingMerge o now blockStates evicted) m)
    /\ err = (if ActiveBlocks (TickResult_TickStatus r) =? 0
              then Some ErrSeriesAllDatapointsExpired else None).
Proof.
  intros HT m o buf evicted w. subst m o buf evicted w.
  destruct (Tick_cases now s blockStates nsCtx_)
    as [[Hfatal _]
       |[_ (m' & closes & r0 & HTick & Hm' & Hcl & HE & HA & HW & HU
            & HMU & HP & _ & _)]].
  - congruence.
  - rewrite HTick in HT. injection HT as <- <- <- <-.
    exists closes. simpl. repeat (split; [done|]). done.
Qed.

(** X1.  The counters of a returning tick account for every cached block
    exactly once: each is made expired or active, and each active one is
    wired or unwired. *)
Theorem Tick_counters_account_for_every_block
    (now : Time) (s s' : dbSeries) (blockStates : ShardBlockStateSnapshot)
    (nsCtx_ : NsContext) (evs : list Event) (r : TickResult)
    (err : option error) :
  Tick now s blockStates nsCtx_ = Returned (s', evs, (r, err)) ->
  let ts := TickResult_TickStatus r in
  let cached := Z.of_nat (size (cachedBlocks s)) in
  let w := wiredBlocks (buffer_Stats (buffer s')) in
  ActiveBlocks ts = wrap64 (WiredBlocks ts + UnwiredBlocks ts)
  /\ MadeUnwiredBlocks r = UnwiredBlocks ts
  /\ wrap64 (MadeExpiredBlocks r + ActiveBlocks ts) = wrap64 (cached + w)
  /\ (0 <= w -> cached + w <= int64_max ->
      ActiveBlocks ts = WiredBlocks ts + UnwiredBlocks ts
      /\ MadeExpiredBlocks r + ActiveBlocks ts = cached + w).
Proof.
  intros HT ts cached w. subst ts cached w.
  destruct (Tick_Returned_inv _ _ _ _ _ _ _ _ HT)
    as (closes & Hs' & _ & _ & _ & HE & HA & HW & HU & HMU & _).
  assert (Hbuf : buffer s' =
                 (buffer_Tick (buffer s) blockStates nsCtx_).1)
    by (rewrite Hs'; reflexivity).
  rewrite <- Hbuf in HA, HW.
  set (o := opts s) in *.
  set (evicted :=
         evictedBucketTimes (buffer_Tick (buffer s) blockStates nsCtx_).2)
    in *.
  assert (Hsplit :
    countBlocks (isActive o now evicted) (cachedBlocks s) =
    countBlocks (isWired o now blockStates evicted) (cachedBlocks s)
    + countBlocks (isUnwired o now blockStates evicted) (cachedBlocks s)).
  { apply count_split. intros e _.
    unfold isActive, isWired, isUnwired.
    destruct (isExpired o now evicted e), (unwires o now blockStates e);
      reflexivity. }
  assert (Htotal :
    countBlocks (isExpired o now evicted) (cachedBlocks s)
    + countBlocks (isActive o now evicted) (cachedBlocks s)
    = Z.of_nat (size (cachedBlocks s))).
  { unfold countBlocks.
    rewrite <- length_map_to_list. apply count_negb. }
  pose proof (countBlocks_le_size (isExpired o now evicted) (cachedBlocks s)).
  pose proof (countBlocks_le_size (isActive o now evicted) (cachedBlocks s)).
  pose proof (countBlocks_le_size (isWired o now blockStates evicted)
                (cachedBlocks s)).
  pose proof (countBlocks_le_size (isUnwired o now blockStates evicted)
                (cachedBlocks s)).
  split; [|split; [|split]].
  - rewrite HA, HW, HU, wrap64_add. f_equal. lia.
  - congruence.
  - rewrite HE, HA, wrap64_add. f_equal. lia.
  - intros Hw Hfit.
    rewrite HE, HA, HW, HU.
    rewrite !wrap64_small by (unfold int64_min, int64_max in *; lia).
    lia.
Qed.

(** X2.  After a returning tick, [WiredBlocks] of the result is what
    [NumActiveBlocks] reports for the series: the blocks still cached plus
    the buffer's wired blocks. *)
Theorem Tick_WiredBlocks_is_NumActiveBlocks
    (now : Time) (s s' : dbSeries) (blockStates : ShardBlockStateSnapshot)
    (nsCtx_ : NsContext) (evs : list Event) (r : TickResult)
    (err : option error) :
  Tick now s blockStates nsCtx_ = Returned (s', evs, (r, err)) ->
  WiredBlocks (TickResult_TickStatus r) = NumActiveBlocks s'.
Proof.
  intros HT.
  destruct (Tick_Returned_inv _ _ _ _ _ _ _ _ HT)
    as (closes & Hs' & _ & Hm' & _ & _ & _ & HW & _).
  assert (Hbuf : buffer s' =
                 (buffer_Tick (buffer s) blockStates nsCtx_).1)
    by (rewrite Hs'; reflexivity).
  rewrite HW. unfold NumActiveBlocks, Len, int_add. rewrite Hbuf.
  rewrite (size_after_removal _ _ _ Hm').
  f_equal. f_equal. apply count_ext. intros [t b] _.
  unfold isWired, isRemoved.
  by destruct (isExpired _ _ _ _), (isUnwired _ _ _ _ _).
Qed.

(** X3.  When a tick ends with [ErrSeriesAllDatapointsExpired], the
    buffer's wired count is not negative and the counts fit 64 bits, then
    every cached block was expired and removed: the block cache is empty,
    the buffer reports no wired block, [NumActiveBlocks] is zero and
    [IsEmpty] is the buffer's [IsEmpty]. *)
Theorem Tick_AllDatapointsExpired_empties_cache
    (now : Time) (s s' : dbSeries) (blockStates : ShardBlockStateSnapshot)
    (nsCtx_ : NsContext) (evs : list Event) (r : TickResult) :
  Tick now s blockStates nsCtx_ =
    Returned (s', evs, (r, Some ErrSeriesAllDatapointsExpired)) ->
  0 <= wiredBlocks (buffer_Stats (buffer s')) ->
  Z.of_nat (size (cachedBlocks s)) + wiredBlocks (buffer_Stats (buffer s'))
    <= int64_max ->
  cachedBlocks s' = ∅
  /\ wiredBlocks (buffer_Stats (buffer s')) = 0
  /\ NumActiveBlocks s' = 0
  /\ IsEmpty s' = buffer_IsEmpty (buffer s')
  /\ MadeExpiredBlocks r = Z.of_nat (size (cachedBlocks s)).
Proof.
  intros HT Hw Hfit.
  pose proof (Tick_counters_account_for_every_block _ _ _ _ _ _ _ _ HT)
    as (_ & _ & _ & Hexact).
  destruct (Hexact Hw Hfit) as [Hsum Htotal].
  pose proof (Tick_WiredBlocks_is_NumActiveBlocks _ _ _ _ _ _ _ _ HT) as HN.
  destruct (Tick_Returned_inv _ _ _ _ _ _ _ _ HT)
    as (closes & Hs' & _ & Hm' & _ & _ & HA & HW & HU & _ & _ & Herr).
  assert (Hbuf : buffer s' =
                 (buffer_Tick (buffer s) blockStates nsCtx_).1)
    by (rewrite Hs'; reflexivity).
  rewrite <- Hbuf in HA, HW.
  destruct (Z.eqb_spec (ActiveBlocks (TickResult_TickStatus r)) 0)
    as [Hzero|]; [|discriminate].
  set (o := opts s) in *.
  set (evicted :=
         evictedBucketTimes (buffer_Tick (buffer s) blockStates nsCtx_).2)
    in *.
  pose proof (countBlocks_le_size (isActive o now evicted) (cachedBlocks s)).
  pose proof (countBlocks_le_size (isWired o now blockStates evicted)
                (cachedBlocks s)).
  pose proof (countBlocks_le_size (isUnwired o now blockStates evicted)
                (cachedBlocks s)).
  rewrite wrap64_small in HA, HW, HU
    by (unfold int64_min, int64_max in *; lia).
  assert (Hnone : countBlocks (isActive o now evicted) (cachedBlocks s) = 0)
    by lia.
  assert (Hw0 : wiredBlocks (buffer_Stats (buffer s')) = 0) by lia.
  assert (Hempty : cachedBlocks s' = ∅).
  2: { split; [exact Hempty|]. split; [exact Hw0|].
       split; [rewrite <- HN; lia|].
       split; [|lia].
       unfold IsEmpty, Len. rewrite Hempty, map_size_empty. simpl.
       by destruct (buffer_IsEmpty (buffer s')). }
  - apply map_eq. intros t. rewrite Hm', lookup_empty.
    destruct (cachedBlocks s !! t) as [b|] eqn:Hm; [|done].
    destruct (isExpired o now evicted (t, b)) eqn:Hexp.
    + unfold isRemoved. by rewrite Hexp.
    + pose proof (countBlocks_pos (isActive o now evicted) _ t b Hm) as Hpos.
      unfold isActive in Hpos at 1. rewrite Hexp in Hpos.
      specialize (Hpos eq_refl). lia.
Qed.

End TickMore.

(** ** The expiry cutoff *)

Lemma Truncate_le (t : Time) (d : Duration) : Truncate t d <= t.
Proof.
  unfold Truncate. destruct (Z.leb_spec d 0) as [?|Hd]; [lia|].
  pose proof (Z.mod_pos_bound (t + unixToInternal * 1000000000) d Hd). lia.
Qed.

Lemma Truncate_mono (t t' : Time) (d : Duration) :
  t <= t' -> Truncate t d <= Truncate t' d.
Proof.
  intros Hle. unfold Truncate.
  destruct (Z.leb_spec d 0) as [?|Hd]; [lia|].
  set (k := unixToInternal * 1000000000).
  assert (Hdiv : forall a, a - k - (a mod d) = d * (a / d) - k).
  { intros a. pose proof (Z.div_mod a d). lia. }
  replace (t - (t + k) mod d) with ((t + k) - k - (t + k) mod d) by lia.
  replace (t' - (t' + k) mod d) with ((t' + k) - k - (t' + k) mod d) by lia.
  rewrite !Hdiv.
  assert ((t + k) / d <= (t' + k) / d) by (apply Z.div_le_mono; lia).
  nia.
Qed.

(** X4.  The expiry cutoff of a tick is at most [now - retentionPeriod]
    and, for a positive block size, less than one block size below it; it
    never moves backwards when the clock advances.  (The retention period
    is any [Duration] but the minimal one, whose negation overflows.) *)
Theorem expireCutoff_bounds_and_monotone
    (o : Options) (now now' : Time) :
  int64_min < RetentionPeriod o <= int64_max ->
  expireCutoff o now <= now - RetentionPeriod o
  /\ (0 < BlockSize o ->
      now - RetentionPeriod o - BlockSize o < expireCutoff o now
      /\ (expireCutoff o now + unixToInternal * 1000000000)
           mod BlockSize o = 0)
  /\ (BlockSize o <= 0 -> expireCutoff o now = now - RetentionPeriod o)
  /\ (now <= now' -> expireCutoff o now <= expireCutoff o now').
Proof.
  intros Hret. unfold expireCutoff, Add.
  rewrite (Duration_neg_in_range _ Hret).
  split; [|split; [|split]].
  - etrans; [apply Truncate_le|]. lia.
  - intros Hd.
    destruct (Truncate_spec (now + - RetentionPeriod o) (BlockSize o) Hd)
      as [Hmod Hbound].
    split; [lia|exact Hmod].
  - intros Hd. unfold Truncate.
    destruct (Z.leb_spec (BlockSize o) 0); lia.
  - intros Hle. apply Truncate_mono. lia.
Qed.

Section TickRetention.
Context {C : Collaborators} {R : MapRange} {B : Type} {DB : databaseBuffer B}.

(** X5.  A returning tick keeps every cached block that is still within
    the retention period, was not evicted by the buffer in this tick and
    is not reported warm-retrievable by a bootstrapped snapshot: the block
    stays cached and is not closed, under every cache policy. *)
Theorem Tick_keeps_unflushed_blocks_within_retention
    (now : Time) (s s' : dbSeries) (blockStates : ShardBlockStateSnapshot)
    (nsCtx_ : NsContext) (evs : list Event) (r : TickResult)
    (err : option error) (t : UnixNano) (b : DatabaseBlock) :
  Tick now s blockStates nsCtx_ = Returned (s', evs, (r, err)) ->
  int64_min < RetentionPeriod (opts s) <= int64_max ->
  cachedBlocks s !! t = Some b ->
  now - RetentionPeriod (opts s) <= t ->
  t ∉ evictedBucketTimes (buffer_Tick (buffer s) blockStates nsCtx_).2 ->
  snapshot_bootstrapped blockStates = false
  \/ WarmRetrievable (Snapshot_at (snapshot_value blockStates) t) = false ->
  cachedBlocks s' !! t = Some b /\ BlockClose t b ∉ evs.
Proof.
  intros HT Hret Hm Hin Hnev Hcold.
  destruct (Tick_Returned_inv _ _ _ _ _ _ _ _ HT)
    as (closes & _ & -> & Hm' & Hcl & _).
  pose proof (expireCutoff_bounds_and_monotone (opts s) now now Hret)
    as [Hcut _].
  assert (Hne : isExpired (opts s) now
                  (evictedBucketTimes
                     (buffer_Tick (buffer s) blockStates nsCtx_).2)
                  (t, b) = false).
  { apply isExpired_false_iff. intros [Hlt|Hev]; [lia|done]. }
  assert (Hnu : unwires (opts s) now blockStates (t, b) = false).
  { unfold unwires. simpl. destruct Hcold as [-> | ->]; [done|].
    by rewrite andb_false_r. }
  split.
  - rewrite Hm', Hm. unfold isRemoved, isUnwired. by rewrite Hne, Hnu.
  - intros Hev. apply elem_of_cons in Hev as [Hev|Hev]; [discriminate|].
    apply Hcl in Hev as (t' & b' & _ & Hc & Heq). injection Heq as <- <-.
    unfold isClosed, isUnwired in Hc. rewrite Hne, Hnu in Hc. discriminate.
Qed.

(** X6.  A tick under one of the four named policies removes from the
    cache every block that ended a retention period ago or earlier: with
    a positive block size, a block whose start is at most
    [now - retentionPeriod - blockSize] is gone afterwards. *)
Theorem Tick_removes_blocks_past_retention
    (now : Time) (s : dbSeries) (blockStates : ShardBlockStateSnapshot)
    (nsCtx_ : NsContext) (t : UnixNano) (b : DatabaseBlock) :
  knownPolicy (CachePolicy_ (opts s)) ->
  int64_min < RetentionPeriod (opts s) <= int64_max ->
  0 < BlockSize (opts s) ->
  cachedBlocks s !! t = Some b ->
  t + BlockSize (opts s) <= now - RetentionPeriod (opts s) ->
  exists s' evs r err,
    Tick now s blockStates nsCtx_ = Returned (s', evs, (r, err))
    /\ cachedBlocks s' !! t = None
    /\ 0 < countBlocks
             (isExpired (opts s) now
                (evictedBucketTimes
                   (buffer_Tick (buffer s) blockStates nsCtx_).2))
             (cachedBlocks s).
Proof.
  intros Hk Hret Hd Hm Hold.
  destruct (Tick_cases now s blockStates nsCtx_)
    as [[_ (t' & b' & _ & Hf)]
       |[_ (m' & closes & r0 & HTick & Hm' & _)]].
  - rewrite stopsFatal_knownPolicy in Hf; done.
  - pose proof (expireCutoff_bounds_and_monotone (opts s) now now Hret)
      as (_ & Hcut & _).
    destruct (Hcut Hd) as [Hlow _].
    assert (Hexp : isExpired (opts s) now
                     (evictedBucketTimes
                        (buffer_Tick (buffer s) blockStates nsCtx_).2)
                     (t, b) = true)
      by (apply isExpired_true_iff; left; lia).
    do 4 eexists. split; [exact HTick|]. simpl. split.
    + rewrite Hm', Hm. unfold isRemoved. by rewrite Hexp.
    + by apply (countBlocks_pos _ _ t b).
Qed.

(** X7.  [Tick] ends in [Logger().Fatal] exactly when the cache policy is
    none of the four named ones and some cached block is not expired while
    the snapshot is bootstrapped and reports its start warm-retrievable;
    it never panics.  So a series with an unknown policy still ticks as
    long as no block reaches the unwiring decision. *)
Theorem Tick_Fatal_iff
    (now : Time) (s : dbSeries) (blockStates : ShardBlockStateSnapshot)
    (nsCtx_ : NsContext) :
  let evicted :=
    evictedBucketTimes (buffer_Tick (buffer s) blockStates nsCtx_).2 in
  (Tick now s blockStates nsCtx_ = Fatal <->
   CachePolicy_ (opts s) = CachePolicyOther
   /\ snapshot_bootstrapped blockStates = true
   /\ exists t b,
        cachedBlocks s !! t = Some b
        /\ ~ (t < expireCutoff (opts s) now \/ t ∈ evicted)
        /\ WarmRetrievable (Snapshot_at (snapshot_value blockStates) t)
           = true)
  /\ Tick now s blockStates nsCtx_ <> Panic.
Proof.
  intros evicted. subst evicted.
  destruct (Tick_cases now s blockStates nsCtx_)
    as [[Hfatal (t & b & Hm & Hf)]
       |[Hnf (m' & closes & r0 & HTick & _)]].
  - split; [|congruence]. split; [intros _|done].
    unfold stopsFatal in Hf.
    apply andb_prop in Hf as [Hf Hw]. apply andb_prop in Hf as [Hf Hb].
    apply andb_prop in Hf as [He Hp].
    apply CachePolicy_eqb_eq in Hp. apply negb_true_iff in He.
    apply (isExpired_false_iff _ _ _ t b) in He.
    split; [done|]. split; [done|]. by exists t, b.
  - split; [|congruence]. split; [congruence|].
    intros (Hp & Hb & t & b & Hm & He & Hw).
    specialize (Hnf t b Hm). unfold stopsFatal in Hnf.
    apply (isExpired_false_iff _ _ _ t b) in He.
    rewrite He, Hp, Hb in Hnf. simpl in Hnf. simpl in Hw. congruence.
Qed.

(** X8.  Under [CacheAll] a tick always returns and unwires nothing: the
    blocks that are not expired stay cached and unclosed whatever the
    snapshot says, every active block is counted wired, and no block is
    counted as pending merge. *)
Theorem Tick_CacheAll_never_unwires
    (now : Time) (s : dbSeries) (blockStates : ShardBlockStateSnapshot)
    (nsCtx_ : NsContext) :
  CachePolicy_ (opts s) = CacheAll ->
  let evicted :=
    evictedBucketTimes (buffer_Tick (buffer s) blockStates nsCtx_).2 in
  exists s' evs r err,
    Tick now s blockStates nsCtx_ = Returned (s', evs, (r, err))
    /\ UnwiredBlocks (TickResult_TickStatus r) = 0
    /\ MadeUnwiredBlocks r = 0
    /\ PendingMergeBlocks (TickResult_TickStatus r) = 0
    /\ WiredBlocks (TickResult_TickStatus r)
       = ActiveBlocks (TickResult_TickStatus r)
    /\ forall t b,
         cachedBlocks s !! t = Some b ->
         ~ (t < expireCutoff (opts s) now \/ t ∈ evicted) ->
         cachedBlocks s' !! t = Some b /\ BlockClose t b ∉ evs.
Proof.
  intros Hall evicted. subst evicted.
  destruct (Tick_cases now s blockStates nsCtx_)
    as [[_ (t' & b' & _ & Hf)]
       |[_ (m' & closes & r0 & HTick & Hm' & Hcl & HE & HA & HW & HU
            & HMU & HP & _)]].
  - rewrite stopsFatal_knownPolicy in Hf; [done|].
    unfold knownPolicy. by rewrite Hall.
  - assert (Hnu : forall evicted e,
              isUnwired (opts s) now blockStates evicted e = false).
    { intros evicted e. unfold isUnwired, unwires. rewrite Hall.
      by rewrite !andb_false_r. }
    do 4 eexists. split; [exact HTick|]. simpl.
    rewrite HU, HMU, HP, HW, HA.
    rewrite (countBlocks_zero (isUnwired _ _ _ _)) by (intros; apply Hnu).
    rewrite (countBlocks_zero (isPendingMerge _ _ _ _)).
    2: { intros t b _. unfold isPendingMerge. rewrite Hall. simpl.
         by rewrite andb_false_r. }
    split; [reflexivity|]. split; [reflexivity|]. split; [reflexivity|].
    split.
    + f_equal. f_equal. apply count_ext. intros e _.
      unfold isWired, isActive. by rewrite Hnu, andb_true_r.
    + intros t b Hm Hne. apply (isExpired_false_iff _ _ _ t b) in Hne.
      split.
      * rewrite Hm', Hm. unfold isRemoved. by rewrite Hne, Hnu.
      * intros Hev. apply elem_of_cons in Hev as [Hev|Hev]; [discriminate|].
        apply Hcl in Hev as (t' & b' & _ & Hc & Heq).
        injection Heq as <- <-.
        unfold isClosed in Hc. rewrite Hne, Hnu in Hc. discriminate.
Qed.

(** X9.  A returning tick only removes: what stays cached was cached
    before, unchanged.  It closes only blocks it removes, and a block it
    removes without closing is a disk-retrieved block under [CacheLRU],
    which the Wired List closes.  Besides the buffer tick it makes no
    other call, and it changes the buffer and the cache only. *)
Theorem Tick_only_removes_and_closes_what_it_removes
    (now : Time) (s s' : dbSeries) (blockStates : ShardBlockStateSnapshot)
    (nsCtx_ : NsContext) (evs : list Event) (r : TickResult)
    (err : option error) :
  Tick now s blockStates nsCtx_ = Returned (s', evs, (r, err)) ->
  cachedBlocks s' ⊆ cachedBlocks s
  /\ (forall t b, BlockClose t b ∈ evs ->
        cachedBlocks s !! t = Some b /\ cachedBlocks s' !! t = None)
  /\ (forall t b,
        cachedBlocks s !! t = Some b -> cachedBlocks s' !! t = None ->
        BlockClose t b ∈ evs
        \/ (CachePolicy_ (opts s) = CacheLRU
            /\ WasRetrievedFromDisk b = true))
  /\ (forall ev, ev ∈ evs ->
        ev = BufferTick blockStates \/ exists t b, ev = BlockClose t b)
  /\ s' = set_cachedBlocks
            (set_buffer s (buffer_Tick (buffer s) blockStates nsCtx_).1)
            (cachedBlocks s').
Proof.
  intros HT.
  destruct (Tick_Returned_inv _ _ _ _ _ _ _ _ HT)
    as (closes & Hs' & -> & Hm' & Hcl & _).
  split; [|split; [|split; [|split; [|exact Hs']]]].
  - apply map_subseteq_spec. intros t b Hin. rewrite Hm' in Hin.
    destruct (cachedBlocks s !! t) as [b'|]; [|discriminate].
    destruct (isRemoved _ _ _ _ _); congruence.
  - intros t b Hev. apply elem_of_cons in Hev as [Hev|Hev]; [discriminate|].
    apply Hcl in Hev as (t' & b' & Hm & Hc & Heq). injection Heq as <- <-.
    split; [exact Hm|]. rewrite Hm', Hm.
    unfold isClosed in Hc. unfold isRemoved.
    destruct (isExpired _ _ _ _); [done|]. by rewrite Hc.
  - intros t b Hm Hgone. rewrite Hm', Hm in Hgone.
    destruct (isRemoved _ _ _ _ _) eqn:Hrem; [|discriminate].
    destruct (isClosed (opts s) now blockStates
                (evictedBucketTimes
                   (buffer_Tick (buffer s) blockStates nsCtx_).2) (t, b))
      eqn:Hc.
    + left. right. apply Hcl. by exists t, b.
    + right. unfold isClosed, isRemoved in *.
      destruct (isExpired _ _ _ _); simpl in *; [|congruence].
      apply negb_false_iff, andb_prop in Hc as [Hp Hd].
      by apply CachePolicy_eqb_eq in Hp.
  - intros ev Hev. apply elem_of_cons in Hev as [->|Hev]; [by left|].
    apply Hcl in Hev as (t & b & _ & _ & ->). right. by exists t, b.
Qed.

(** X20.  A tick leaves nothing for a second tick at the same clock
    reading and with the same snapshot: if the buffer's second tick evicts
    no start that its first did not, the second tick removes and closes no
    block and makes none expired or unwired. *)
Theorem Tick_again_removes_nothing
    (now : Time) (s s1 s2 : dbSeries) (blockStates : ShardBlockStateSnapshot)
    (nsCtx_ : NsContext) (evs1 evs2 : list Event) (r1 r2 : TickResult)
    (err1 err2 : option error) :
  Tick now s blockStates nsCtx_ = Returned (s1, evs1, (r1, err1)) ->
  Tick now s1 blockStates nsCtx_ = Returned (s2, evs2, (r2, err2)) ->
  (forall t,
     t ∈ evictedBucketTimes (buffer_Tick (buffer s1) blockStates nsCtx_).2 ->
     t ∈ evictedBucketTimes (buffer_Tick (buffer s) blockStates nsCtx_).2) ->
  cachedBlocks s2 = cachedBlocks s1
  /\ MadeExpiredBlocks r2 = 0
  /\ MadeUnwiredBlocks r2 = 0
  /\ forall t b, BlockClose t b ∉ evs2.
Proof.
  intros HT1 HT2 Hsub.
  destruct (Tick_Returned_inv _ _ _ _ _ _ _ _ HT1)
    as (closes1 & Hs1 & _ & Hm1 & _).
  destruct (Tick_Returned_inv _ _ _ _ _ _ _ _ HT2)
    as (closes2 & _ & -> & Hm2 & Hcl2 & HE2 & _ & _ & _ & HMU2 & _).
  assert (Ho : opts s1 = opts s) by (rewrite Hs1; reflexivity).
  rewrite Ho in *.
  set (ev1 :=
         evictedBucketTimes (buffer_Tick (buffer s) blockStates nsCtx_).2)
    in *.
  set (ev2 :=
         evictedBucketTimes (buffer_Tick (buffer s1) blockStates nsCtx_).2)
    in *.
  assert (Hkept : forall t b,
    cachedBlocks s1 !! t = Some b ->
    isExpired (opts s) now ev2 (t, b) = false
    /\ unwires (opts s) now blockStates (t, b) = false).
  { intros t b Hin. rewrite Hm1 in Hin.
    destruct (cachedBlocks s !! t) as [b'|]; [|discriminate].
    destruct (isRemoved (opts s) now blockStates ev1 (t, b')) eqn:Hrem;
      [discriminate|].
    injection Hin as ->.
    unfold isRemoved, isUnwired in Hrem.
    apply orb_false_elim in Hrem as [Hexp Hunw].
    rewrite Hexp in Hunw. simpl in Hunw. split; [|exact Hunw].
    apply isExpired_false_iff. apply isExpired_false_iff in Hexp.
    intros [Hlt|Hev]; apply Hexp; [by left|right; by apply Hsub]. }
  split; [|split; [|split]].
  - apply map_eq. intros t. rewrite Hm2.
    destruct (cachedBlocks s1 !! t) as [b|] eqn:Hin; [|done].
    destruct (Hkept t b Hin) as [Hexp Hunw].
    unfold isRemoved, isUnwired. by rewrite Hexp, Hunw.
  - rewrite HE2, countBlocks_zero; [done|].
    intros t b Hin. by destruct (Hkept t b Hin).
  - rewrite HMU2, countBlocks_zero; [done|].
    intros t b Hin. destruct (Hkept t b Hin) as [Hexp Hunw].
    unfold isUnwired. by rewrite Hexp, Hunw.
  - intros t b Hev. apply elem_of_cons in Hev as [Hev|Hev]; [discriminate|].
    apply Hcl2 in Hev as (t' & b' & Hin & Hc & Heq). injection Heq as <- <-.
    destruct (Hkept t b Hin) as [Hexp Hunw].
    unfold isClosed, isUnwired in Hc. rewrite Hexp, Hunw in Hc.
    discriminate.
Qed.

End TickRetention.

(** * Sequences of calls *)

Section CallSequences.
Context {C : Collaborators} {R : MapRange} {B : Type} {DB : databaseBuffer B}.

Lemma Load_Returned_inv (lopts : LoadOptions) (s s' : dbSeries)
    (blocks : option DatabaseSeriesBlocks)
    (blockStates : BootstrappedBlockStateSnapshot) (evs : list Event)
    (r : LoadResult) (err : option error) :
  Load lopts s blocks blockStates = Returned (s', evs, (r, err)) ->
  exists buf,
    s' = set_bs (set_buffer s buf)
           (if Bootstrap lopts then bootstrapped else bs s)
    /\ (forall ev, ev ∈ evs -> exists b wt, ev = BufferLoad b wt)
    /\ err = (if Bootstrap lopts && bootstrapState_eqb (bs s) bootstrapped
              then Some errSeriesAlreadyBootstrapped else None).
Proof.
  assert (Hloads : forall blocks' ev,
    ev ∈ ((fun e => BufferLoad e.2 (writeTypeFor blockStates e.2))
            <$> AllBlocks blocks') ->
    exists b wt, ev = BufferLoad b wt).
  { intros blocks' ev Hin.
    apply elem_of_loads in Hin as (t & b & _ & ->). eauto. }
  assert (Hnil : forall ev : Event,
            ev ∈ [] -> exists b wt, ev = BufferLoad b wt)
    by (intros ev Hin; inversion Hin).
  unfold Load, bootstrap. destruct (Bootstrap lopts); simpl.
  - destruct (bootstrapState_eqb (bs s) bootstrapped) eqn:Hb; simpl.
    + intros Heq. injection Heq as <- <- <- <-.
      exists (buffer s). split; [by destruct s|done].
    + destruct blocks as [blocks|]; simpl.
      * rewrite loadWithLock_spec. intros Heq.
        injection Heq as <- <- <- <-.
        eexists. split; [reflexivity|]. split; [apply Hloads|done].
      * intros Heq. injection Heq as <- <- <- <-.
        exists (buffer s). split; [by destruct s|done].
  - destruct blocks as [blocks|]; simpl; [|discriminate].
    rewrite loadWithLock_spec. intros Heq. injection Heq as <- <- <- <-.
    eexists. split; [reflexivity|]. split; [apply Hloads|done].
Qed.

Lemma Close_frame (s : dbSeries) :
  opts (Close s).1 = opts s /\ pool (Close s).1 = pool s
  /\ blockRetriever (Close s).1 = blockRetriever s
  /\ onRetrieveBlock (Close s).1 = onRetrieveBlock s
  /\ blockOnEvictedFromWiredList (Close s).1 = blockOnEvictedFromWiredList s
  /\ cachedBlocks (Close s).1 = ∅
  /\ (forall t b, BlockClose t b ∈ (Close s).2 ->
        cachedBlocks s !! t = Some b /\ CachePolicy_ (opts s) <> CacheLRU).
Proof.
  unfold Close. simpl.
  assert (Hrest : forall t b,
    BlockClose t b ∈ [BufferReset None]
                       ++ match pool s with
                          | Some p => [SeriesPoolPut p]
                          | None => []
                          end -> False).
  { intros t b Hin. destruct (pool s);
      repeat (apply elem_of_cons in Hin as [Hin|Hin]; [discriminate|]);
      inversion Hin. }
  destruct (CachePolicy_ (opts s)) eqn:Hpol; simpl;
    repeat (split; [reflexivity|]); intros t b Hin;
    try (by apply Hrest in Hin);
    (apply elem_of_cons in Hin as [Hin|Hin] || apply elem_of_app in Hin as [Hin|Hin]);
    try (by apply Hrest in Hin); try discriminate.
  all: try (apply list_elem_of_fmap in Hin as ([t' b'] & Heq & Hin);
            injection Heq as -> ->; split; [by apply elem_of_AllBlocks|done]).
Qed.

(** What one call keeps, and what it may close. *)
Lemma traceCall_frame (c : Call) (s s' : dbSeries) (evs : list Event) :
  traceCall c s = Returned (s', evs) ->
  opts s' = opts s /\ pool s' = pool s
  /\ blockRetriever s' = blockRetriever s
  /\ onRetrieveBlock s' = onRetrieveBlock s
  /\ blockOnEvictedFromWiredList s' = blockOnEvictedFromWiredList s
  /\ (c <> CallClose -> id s' = id s /\ tags s' = tags s)
  /\ (forall t b, BlockClose t b ∈ evs ->
        cachedBlocks s !! t = Some b
        /\ (CachePolicy_ (opts s) = CacheLRU ->
            WasRetrievedFromDisk b = false)).
Proof.
  intros Hrun. destruct c; simpl in Hrun.
  - destruct (Tick now s blockStates nsCtx_) as [[[s1 evs1] [r err]]| |]
      eqn:HT; try discriminate.
    simpl in Hrun. injection Hrun as <- <-.
    destruct (Tick_Returned_inv _ _ _ _ _ _ _ _ HT)
      as (closes & Hs' & -> & _ & Hcl & _).
    rewrite Hs'. simpl. repeat (split; [done|]).
    intros t b Hev. apply elem_of_cons in Hev as [Hev|Hev]; [discriminate|].
    apply Hcl in Hev as (t' & b' & Hm & Hc & Heq). injection Heq as <- <-.
    split; [exact Hm|]. intros Hlru.
    unfold isClosed, isUnwired, unwires in Hc. rewrite Hlru in Hc.
    simpl in Hc. destruct (isExpired _ _ _ _); simpl in Hc.
    + by apply negb_true_iff in Hc.
    + apply andb_prop in Hc as [_ Hc]. by apply negb_true_iff in Hc.
  - destruct (Load lopts s bootstrappedBlocks blockStates)
      as [[[s1 evs1] [r err]]| |] eqn:HL; try discriminate.
    simpl in Hrun. injection Hrun as <- <-.
    destruct (Load_Returned_inv _ _ _ _ _ _ _ _ HL) as (buf & -> & Hev & _).
    simpl. repeat (split; [done|]).
    intros t b Hin. apply Hev in Hin as (b' & wt & Heq). discriminate.
  - injection Hrun as Hrun. unfold OnRetrieveBlock in Hrun.
    destruct (negb _).
    + injection Hrun as <- <-. repeat (split; [done|]).
      intros t b Hin. inversion Hin.
    + simpl in Hrun. injection Hrun as <- <-. simpl.
      repeat (split; [done|]).
      intros t b Hin. destruct (WiredList (opts s)).
      * apply elem_of_cons in Hin as [Hin|Hin]; [discriminate|inversion Hin].
      * inversion Hin.
  - injection Hrun as Hrun. unfold OnEvictedFromWiredList in Hrun.
    destruct (negb _);
      [injection Hrun as <- <-; repeat (split; [done|]);
       intros t b Hin; inversion Hin|].
    destruct (BlockAt blockStart (cachedBlocks s)) as [b0|];
      [|injection Hrun as <- <-; repeat (split; [done|]);
        intros t b Hin; inversion Hin].
    destruct (negb _); injection Hrun as <- <-; simpl;
      repeat (split; [done|]); intros t b Hin.
    + apply elem_of_cons in Hin as [Hin|Hin]; [discriminate|inversion Hin].
    + inversion Hin.
  - injection Hrun as Hrun. unfold WarmFlush in Hrun.
    destruct (negb _);
      [injection Hrun as <- <-; repeat (split; [done|]);
       intros t b Hin; inversion Hin|].
    destruct (buffer_WarmFlush _ _ _ _ _ _ _) as [buf r].
    injection Hrun as <- <-. simpl. repeat (split; [done|]).
    intros t b Hin.
    apply elem_of_cons in Hin as [Hin|Hin]; [discriminate|inversion Hin].
  - injection Hrun as Hrun. unfold series.Snapshot in Hrun.
    destruct (negb _);
      [injection Hrun as <- <-; repeat (split; [done|]);
       intros t b Hin; inversion Hin|].
    destruct (buffer_Snapshot _ _ _ _ _ _ _) as [buf r].
    injection Hrun as <- <-. simpl. repeat (split; [done|]).
    intros t b Hin.
    apply elem_of_cons in Hin as [Hin|Hin]; [discriminate|inversion Hin].
  - injection Hrun as Hrun. unfold Write in Hrun.
    destruct (buffer_Write _ _ _ _ _ _ _) as [buf r].
    injection Hrun as <- <-. simpl. repeat (split; [done|]).
    intros t b Hin.
    apply elem_of_cons in Hin as [Hin|Hin]; [discriminate|inversion Hin].
  - injection Hrun as Hrun. unfold FetchBlocksForColdFlush in Hrun.
    destruct (buffer_FetchBlocksForColdFlush _ _ _ _ _) as [buf r].
    injection Hrun as <- <-. simpl. repeat (split; [done|]).
    intros t b Hin.
    apply elem_of_cons in Hin as [Hin|Hin]; [discriminate|inversion Hin].
  - injection Hrun as Hrun.
    destruct (Close_frame s) as (Ho & Hp & Hr & Hh1 & Hh2 & _ & Hcl).
    rewrite (surjective_pairing (Close s)) in Hrun.
    injection Hrun as <- <-.
    repeat (split; [done|]).
    intros t b Hin. destruct (Hcl t b Hin) as [Hm Hne]. by split.
Qed.

Lemma traceCalls_inv (c : Call) (cs : list Call) (s s' : dbSeries)
    (evs : list Event) :
  traceCalls (c :: cs) s = Returned (s', evs) ->
  exists s1 evs1 evs2,
    traceCall c s = Returned (s1, evs1)
    /\ traceCalls cs s1 = Returned (s', evs2)
    /\ evs = evs1 ++ evs2.
Proof.
  simpl. destruct (traceCall c s) as [[s1 evs1]| |]; try discriminate.
  simpl. destruct (traceCalls cs s1) as [[s2 evs2]| |] eqn:Hrest;
    try discriminate.
  simpl. intros Heq. injection Heq as <- <-. by exists s1, evs1, evs2.
Qed.

(** X10.  Under [CacheLRU], whatever sequence of calls other than [Reset]
    runs on a series, the series never closes a block that was retrieved
    from disk: every block it closes is one it had cached and that did not
    come from disk. *)
Theorem calls_never_close_disk_retrieved_under_CacheLRU
    (cs : list Call) (s s' : dbSeries) (evs : list Event) :
  CachePolicy_ (opts s) = CacheLRU ->
  traceCalls cs s = Returned (s', evs) ->
  forall t b, BlockClose t b ∈ evs -> WasRetrievedFromDisk b = false.
Proof.
  revert s evs. induction cs as [|c cs IH]; intros s evs Hlru Hrun t b Hin.
  - injection Hrun as <- <-. inversion Hin.
  - apply traceCalls_inv in Hrun as (s1 & evs1 & evs2 & Hc & Hcs & ->).
    destruct (traceCall_frame c s s1 evs1 Hc) as (Ho & _ & _ & _ & _ & _ & Hcl).
    apply elem_of_app in Hin as [Hin|Hin].
    + destruct (Hcl t b Hin) as [_ Hdisk]. by apply Hdisk.
    + by apply (IH s1 evs2 ltac:(by rewrite Ho) Hcs t b).
Qed.

(** X11.  No sequence of calls other than [Reset] changes the options,
    the pool or the retrieval hooks of a series, and as long as [Close] is
    not among them the id and the tags stay as well. *)
Theorem calls_keep_options_pool_and_identity
    (cs : list Call) (s s' : dbSeries) (evs : list Event) :
  traceCalls cs s = Returned (s', evs) ->
  opts s' = opts s /\ pool s' = pool s
  /\ blockRetriever s' = blockRetriever s
  /\ onRetrieveBlock s' = onRetrieveBlock s
  /\ blockOnEvictedFromWiredList s' = blockOnEvictedFromWiredList s
  /\ (CallClose ∉ cs -> id s' = id s /\ tags s' = tags s)
  /\ runCalls cs s = Returned s'.
Proof.
  revert s evs. induction cs as [|c cs IH]; intros s evs Hrun.
  - injection Hrun as <- <-. done.
  - apply traceCalls_inv in Hrun as (s1 & evs1 & evs2 & Hc & Hcs & ->).
    destruct (traceCall_frame c s s1 evs1 Hc)
      as (Ho & Hp & Hr & Hh1 & Hh2 & Hid & _).
    destruct (IH s1 evs2 Hcs) as (Ho' & Hp' & Hr' & Hh1' & Hh2' & Hid' & Hrun').
    split; [congruence|]. split; [congruence|]. split; [congruence|].
    split; [congruence|]. split; [congruence|]. split.
    + intros Hnc. rewrite not_elem_of_cons in Hnc. destruct Hnc as [Hne Hnc].
      destruct (Hid (not_eq_sym Hne)), (Hid' Hnc). split; congruence.
    + simpl. assert (Hone : runCall c s = Returned s1).
      { clear -Hc. destruct c; simpl in *;
          try (injection Hc as <- _; reflexivity);
          try (injection Hc as Hc; by rewrite Hc).
        - destruct (Tick _ _ _ _) as [[[? ?] [? ?]]| |]; try discriminate.
          simpl in *. by injection Hc as <- _.
        - destruct (Load _ _ _ _) as [[[? ?] [? ?]]| |]; try discriminate.
          simpl in *. by injection Hc as <- _. }
      rewrite Hone. exact Hrun'.
Qed.

End CallSequences.

(** * The retrieval bridge, composed *)

Section BridgeMore.
Context {C : Collaborators} {R : MapRange} {B : Type} {DB : databaseBuffer B}.

Lemma set_cachedBlocks_id (s : dbSeries (B := B)) :
  set_cachedBlocks s (cachedBlocks s) = s.
Proof. by destruct s. Qed.

(** X12.  Retrieval and eviction are inverse on the cache: after
    [OnRetrieveBlock] cached a block for the series' id, the callback
    [OnEvictedFromWiredList] for the same id and start removes that entry
    again without closing anything and without an invariant violation; if
    no block was cached at that start before, the series is back where it
    was. *)
Theorem OnRetrieveBlock_then_evicted_round_trip
    (now : Time) (pooled : DatabaseBlock) (s : dbSeries (B := B))
    (id_ : ID) (tags_ : TagIterator) (startTime : Time)
    (segment_ : Segment) (nsCtx_ : NsContext) :
  ID_Equal id_ (id s) = true ->
  let s1 :=
    (OnRetrieveBlock now pooled s id_ tags_ startTime segment_ nsCtx_).1 in
  OnEvictedFromWiredList s1 id_ startTime
  = (set_cachedBlocks s (delete startTime (cachedBlocks s)), [])
  /\ (cachedBlocks s !! startTime = None ->
      OnEvictedFromWiredList s1 id_ startTime = (s, [])).
Proof.
  intros Heq s1. subst s1.
  assert (Hfirst :
    OnEvictedFromWiredList
      (OnRetrieveBlock now pooled s id_ tags_ startTime segment_ nsCtx_).1
      id_ startTime
    = (set_cachedBlocks s (delete startTime (cachedBlocks s)), [])).
  { unfold OnRetrieveBlock. rewrite Heq. simpl.
    unfold OnEvictedFromWiredList, BlockAt, RemoveBlockAt, AddBlock,
      ToUnixNano. simpl.
    rewrite Heq, lookup_insert_eq. simpl.
    by rewrite delete_insert_eq. }
  split; [exact Hfirst|].
  intros Hnone. rewrite Hfirst, delete_id by done.
  by rewrite set_cachedBlocks_id.
Qed.

(** X13.  Under [CacheLRU] a block that [OnRetrieveBlock] put into the
    cache is left alone by the tick for as long as it is not expired:
    whatever the snapshot reports, the tick returns, keeps the block
    cached and does not close it. *)
Theorem retrieved_block_survives_Tick_under_CacheLRU
    (now now' : Time) (pooled : DatabaseBlock) (s : dbSeries)
    (id_ : ID) (tags_ : TagIterator) (startTime : Time)
    (segment_ : Segment) (nsCtx_ : NsContext)
    (blockStates : ShardBlockStateSnapshot) :
  CachePolicy_ (opts s) = CacheLRU ->
  ID_Equal id_ (id s) = true ->
  let s1 :=
    (OnRetrieveBlock now pooled s id_ tags_ startTime segment_ nsCtx_).1 in
  ~ (startTime < expireCutoff (opts s) now'
     \/ startTime ∈ evictedBucketTimes
                      (buffer_Tick (buffer s) blockStates nsCtx_).2) ->
  exists b s' evs r err,
    cachedBlocks s1 !! startTime = Some b
    /\ WasRetrievedFromDisk b = true
    /\ Tick now' s1 blockStates nsCtx_ = Returned (s', evs, (r, err))
    /\ cachedBlocks s' !! startTime = Some b
    /\ BlockClose startTime b ∉ evs.
Proof.
  intros Hlru Heq s1 Hne.
  assert (Hs1 : exists b,
    s1 = set_cachedBlocks s (<[startTime := b]> (cachedBlocks s))
    /\ WasRetrievedFromDisk b = true).
  { subst s1. unfold OnRetrieveBlock. rewrite Heq. simpl.
    eexists. split; reflexivity. }
  destruct Hs1 as (b & Hs1 & Hdisk).
  assert (Hin : cachedBlocks s1 !! startTime = Some b)
    by (rewrite Hs1; apply lookup_insert_eq).
  assert (Ho : opts s1 = opts s) by (by rewrite Hs1).
  assert (Hb : buffer s1 = buffer s) by (by rewrite Hs1).
  destruct (Tick_cases now' s1 blockStates nsCtx_)
    as [[_ (t' & b' & _ & Hf)]
       |[_ (m' & closes & r0 & HTick & Hm' & Hcl & _)]].
  - rewrite stopsFatal_knownPolicy in Hf; [done|].
    unfold knownPolicy. by rewrite Ho, Hlru.
  - rewrite Ho, Hb in Hm', Hcl.
    apply (isExpired_false_iff _ _ _ startTime b) in Hne.
    assert (Hnu : unwires (opts s) now' blockStates (startTime, b) = false).
    { unfold unwires. rewrite Hlru. simpl. rewrite Hdisk. simpl.
      by rewrite andb_false_r. }
    exists b. do 4 eexists.
    split; [exact Hin|]. split; [exact Hdisk|]. split; [exact HTick|].
    simpl. split.
    + rewrite Hm', Hin. unfold isRemoved, isUnwired. by rewrite Hne, Hnu.
    + intros Hev. apply elem_of_cons in Hev as [Hev|Hev]; [discriminate|].
      apply Hcl in Hev as (t' & b' & _ & Hc & Heq'). injection Heq' as <- <-.
      unfold isClosed, isUnwired in Hc. rewrite Hne, Hnu in Hc. discriminate.
Qed.

(** X14.  Under [CacheLRU] a tick lets go of an expired disk-retrieved
    block without closing it, and when the Wired List later closes that
    block and calls [OnEvictedFromWiredList], whatever the id, the callback
    finds nothing to remove: it changes nothing and reports no invariant
    violation.  The same holds for every callback that arrives after
    [Close]. *)
Theorem OnEvictedFromWiredList_noop_after_removal
    (now : Time) (s : dbSeries) (blockStates : ShardBlockStateSnapshot)
    (nsCtx_ : NsContext) (id_ : ID) (t : UnixNano) (b : DatabaseBlock) :
  (CachePolicy_ (opts s) = CacheLRU ->
   cachedBlocks s !! t = Some b ->
   WasRetrievedFromDisk b = true ->
   t < expireCutoff (opts s) now
   \/ t ∈ evictedBucketTimes (buffer_Tick (buffer s) blockStates nsCtx_).2 ->
   exists s' evs r err,
     Tick now s blockStates nsCtx_ = Returned (s', evs, (r, err))
     /\ cachedBlocks s' !! t = None
     /\ (BlockClose t b ∉ evs)
     /\ OnEvictedFromWiredList s' id_ t = (s', []))
  /\ OnEvictedFromWiredList (Close s).1 id_ t = ((Close s).1, []).
Proof.
  assert (Hnoop : forall s0 : dbSeries (B := B),
    cachedBlocks s0 !! t = None ->
    OnEvictedFromWiredList s0 id_ t = (s0, [])).
  { intros s0 Hnone. unfold OnEvictedFromWiredList, BlockAt, ToUnixNano.
    rewrite Hnone. by destruct (negb _). }
  split.
  - intros Hlru Hm Hdisk Hexp.
    apply (isExpired_true_iff _ _ _ t b) in Hexp.
    destruct (Tick_cases now s blockStates nsCtx_)
      as [[_ (t' & b' & _ & Hf)]
         |[_ (m' & closes & r0 & HTick & Hm' & Hcl & _)]].
    + rewrite stopsFatal_knownPolicy in Hf; [done|].
      unfold knownPolicy. by rewrite Hlru.
    + assert (Hgone : m' !! t = None).
      { rewrite Hm', Hm. unfold isRemoved. by rewrite Hexp. }
      do 4 eexists. split; [exact HTick|]. simpl.
      split; [exact Hgone|]. split.
      * intros Hev.
        apply elem_of_cons in Hev as [Hev|Hev]; [discriminate|].
        apply Hcl in Hev as (t' & b' & _ & Hc & Heq).
        injection Heq as <- <-.
        unfold isClosed in Hc. rewrite Hexp, Hlru in Hc. simpl in Hc.
        rewrite Hdisk in Hc. discriminate.
      * by apply Hnoop.
  - apply Hnoop. destruct (Close_frame s) as (_ & _ & _ & _ & _ & -> & _).
    apply lookup_empty.
Qed.

End BridgeMore.

(** * Reset, bootstrap and Load *)

Section LoadMore.
Context {C : Collaborators} {R : MapRange} {B : Type} {DB : databaseBuffer B}.

Lemma length_AllBlocks (m : DatabaseSeriesBlocks) :
  length (AllBlocks m) = size m.
Proof. rewrite (AllBlocks_perm m). apply length_map_to_list. Qed.

(** X15.  A first [bootstrap] with blocks moves each of them to the
    buffer once and leaves the block cache alone: it makes as many buffer
    loads as there are blocks, reports that number (as an int64) in
    [NumBlocksMovedToBuffer], returns no error and changes only the buffer
    and the bootstrap state. *)
Theorem bootstrap_moves_every_block_to_the_buffer
    (s : dbSeries) (blocks : DatabaseSeriesBlocks)
    (blockStates : BootstrappedBlockStateSnapshot) :
  bs s = bootstrapNotStarted ->
  exists buf evs,
    bootstrap s (Some blocks) blockStates
    = (set_bs (set_buffer s buf) bootstrapped, evs,
       ({| NumBlocksMovedToBuffer := wrap64 (Z.of_nat (size blocks)) |},
        None))
    /\ length evs = size blocks
    /\ (forall ev, ev ∈ evs <->
          exists t b, blocks !! t = Some b
            /\ ev = BufferLoad b (writeTypeFor blockStates b))
    /\ (Z.of_nat (size blocks) <= int64_max ->
        wrap64 (Z.of_nat (size blocks)) = Z.of_nat (size blocks)).
Proof.
  intros Hbs. unfold bootstrap. rewrite Hbs. simpl.
  rewrite loadWithLock_spec. do 2 eexists.
  split; [reflexivity|]. split; [|split].
  - by rewrite length_fmap, length_AllBlocks.
  - intros ev. apply elem_of_loads.
  - intros Hfit. apply wrap64_small. unfold int64_min, int64_max in *. lia.
Qed.


(** X17.  [Load] panics exactly on a nil set of blocks in plain mode (the
    bootstrap mode checks for nil, the plain mode does not) and never ends
    in a fatal log.  When it returns it has changed nothing but the buffer
    and, in bootstrap mode, the bootstrap state: the block cache, the
    identity, the options and the pool are as before; all its calls are
    buffer loads; and its only error is [errSeriesAlreadyBootstrapped], in
    bootstrap mode on a bootstrapped series. *)
Theorem Load_panics_on_nil_and_keeps_the_cache
    (lopts : LoadOptions) (s : dbSeries)
    (blocks : option DatabaseSeriesBlocks)
    (blockStates : BootstrappedBlockStateSnapshot) :
  (Load lopts s blocks blockStates = Panic <->
   Bootstrap lopts = false /\ blocks = None)
  /\ Load lopts s blocks blockStates <> Fatal
  /\ forall s' evs r err,
       Load lopts s blocks blockStates = Returned (s', evs, (r, err)) ->
       cachedBlocks s' = cachedBlocks s
       /\ id s' = id s /\ tags s' = tags s /\ opts s' = opts s
       /\ pool s' = pool s
       /\ bs s' = (if Bootstrap lopts then bootstrapped else bs s)
       /\ (forall ev, ev ∈ evs -> exists b wt, ev = BufferLoad b wt)
       /\ (err = Some errSeriesAlreadyBootstrapped <->
           Bootstrap lopts = true /\ bs s = bootstrapped)
       /\ (err = None <->
           Bootstrap lopts = false \/ bs s = bootstrapNotStarted).
Proof.
  split; [|split].
  - unfold Load, load. destruct (Bootstrap lopts).
    + destruct (bootstrap s blocks blockStates) as [[s1 evs] [r err]].
      split; [discriminate|]. intros [? _]. discriminate.
    + destruct blocks as [blocks|]; simpl.
      * rewrite loadWithLock_spec.
        split; [discriminate|]. intros [_ ?]. discriminate.
      * done.
  - unfold Load, load. destruct (Bootstrap lopts).
    + by destruct (bootstrap s blocks blockStates) as [[s1 evs] [r err]].
    + destruct blocks; simpl; [by rewrite loadWithLock_spec|done].
  - intros s' evs r err HL.
    destruct (Load_Returned_inv _ _ _ _ _ _ _ _ HL) as (buf & -> & Hev & ->).
    simpl. repeat (split; [done|]).
    destruct (Bootstrap lopts), (bs s); simpl; split; split;
      try discriminate; try tauto; try (intros [? ?]; discriminate);
      try (intros [?|?]; discriminate).
Qed.

End LoadMore.

(** * FetchBlocksMetadata *)

Lemma filter_Permutation_bool {A : Type} (f : A -> bool) (l l' : list A) :
  l ≡ₚ l' -> List.filter f l ≡ₚ List.filter f l'.
Proof.
  induction 1 as [|x l l' _ IH|x y l|l l' l'' _ IH1 _ IH2]; simpl.
  - done.
  - destruct (f x); [by constructor|done].
  - destruct (f x), (f y); try done. apply perm_swap.
  - by etrans.
Qed.

Lemma byStartAscending_total : Total byStartAscending.
Proof. intros x y. unfold byStartAscending. lia. Qed.

Section MetadataProperties.
Context {C : Collaborators} {R : MapRange} {B : Type} {DB : databaseBuffer B}
  {MC : MetadataCollaborators B}.
Variables (blockSize_ : Duration) (start end_ : Time)
  (fopts : FetchBlocksMetadataOptions).

Lemma fetchBlockMetadata_spec (res : list FetchBlockMetadataResult)
    (e : UnixNano * DatabaseBlock) :
  fetchBlockMetadata blockSize_ start end_ fopts res e =
  if metadataIncluded blockSize_ start end_ fopts e then
    if checksumFails fopts e then
      match block_Checksum e.2 with
      | inl err => inl err
      | inr _ => inr res
      end
    else inr (res ++ [metadataEntry fopts e])
  else inr res.
Proof.
  destruct e as [t b].
  unfold fetchBlockMetadata, metadataIncluded, checksumFails, metadataEntry,
    Before, Add, ToTime. simpl.
  destruct (start <? t + blockSize_); simpl; [|done].
  destruct (t <? end_); simpl; [|done].
  destruct (IncludeCachedBlocks fopts); simpl.
  - destruct (IncludeChecksums fopts); simpl; [|done].
    by destruct (block_Checksum b).
  - destruct (WasRetrievedFromDisk b); simpl; [done|].
    destruct (IncludeChecksums fopts); simpl; [|done].
    by destruct (block_Checksum b).
Qed.

Lemma fetchBlocksMetadata_loop_cases
    (l : list (UnixNano * DatabaseBlock))
    (res : list FetchBlockMetadataResult) :
  (exists err e,
     fetchBlocksMetadata_loop blockSize_ start end_ fopts l res = inl err
     /\ e ∈ l
     /\ metadataIncluded blockSize_ start end_ fopts e = true
     /\ IncludeChecksums fopts = true
     /\ block_Checksum e.2 = inl err)
  \/
  ((forall e, e ∈ l ->
      metadataIncluded blockSize_ start end_ fopts e = true ->
      checksumFails fopts e = false)
   /\ fetchBlocksMetadata_loop blockSize_ start end_ fopts l res =
        inr (res ++ (metadataEntry fopts
                       <$> List.filter
                             (metadataIncluded blockSize_ start end_ fopts)
                             l))).
Proof.
  revert res. induction l as [|e l IH]; intros res.
  - right. split; [intros e He; inversion He|]. simpl.
    by rewrite app_nil_r.
  - simpl. rewrite fetchBlockMetadata_spec.
    destruct (metadataIncluded blockSize_ start end_ fopts e) eqn:Hinc.
    + destruct (checksumFails fopts e) eqn:Hfail.
      * left. unfold checksumFails in Hfail.
        apply andb_prop in Hfail as [Hck Hfail].
        destruct (block_Checksum e.2) as [err|v] eqn:Hsum; [|discriminate].
        exists err, e. repeat split; try done. by left.
      * destruct (IH (res ++ [metadataEntry fopts e]))
          as [(err & e' & Hloop & Hin & Hinc' & Hck & Hsum)|[Hok Hloop]].
        -- left. exists err, e'. repeat split; try done. by right.
        -- right. split.
           ++ intros e0 He0 Hinc0.
              apply elem_of_cons in He0 as [->|He0]; [done|by apply Hok].
           ++ rewrite Hloop. simpl. by rewrite <- app_assoc.
    + destruct (IH res)
        as [(err & e' & Hloop & Hin & Hinc' & Hck & Hsum)|[Hok Hloop]].
      * left. exists err, e'. repeat split; try done. by right.
      * right. split.
        -- intros e0 He0 Hinc0.
           apply elem_of_cons in He0 as [->|He0]; [congruence|by apply Hok].
        -- exact Hloop.
Qed.

End MetadataProperties.

Section MetadataTheorems.
Context {C : Collaborators} {R : MapRange} {B : Type} {DB : databaseBuffer B}
  {MC : MetadataCollaborators B}.

(** X18.  What [FetchBlocksMetadata] returns when it returns a result:
    the series' id and tags, and, sorted by start time, the pooled results
    it started from, one entry for every cached block that overlaps
    [start, end) and, unless cached blocks are asked for, was not retrieved
    from disk, and the buffer's own metadata when the buffer is not empty.
    Nothing else is in the result and nothing appears twice. *)
Theorem FetchBlocksMetadata_reports_the_overlapping_blocks
    (pooled : list FetchBlockMetadataResult) (s : dbSeries) (ctx : Ctx)
    (start end_ : Time) (fopts : FetchBlocksMetadataOptions)
    (r : FetchBlocksMetadataResult) :
  FetchBlocksMetadata pooled s ctx start end_ fopts = inr r ->
  let included :=
    metadataIncluded (BlockSize (opts s)) start end_ fopts in
  result_ID r = id s
  /\ result_Tags r = TagsIterator_Reset (tags s)
  /\ Sorted byStartAscending (result_Blocks r)
  /\ (exists fromBuffer,
        (buffer_IsEmpty (buffer s) = true /\ fromBuffer = []
         \/ buffer_IsEmpty (buffer s) = false
            /\ buffer_FetchBlocksMetadata (buffer s) ctx start end_ fopts
               = inr fromBuffer)
        /\ result_Blocks r ≡ₚ
             pooled
             ++ (metadataEntry fopts
                   <$> List.filter included (map_to_list (cachedBlocks s)))
             ++ fromBuffer)
  /\ (forall t b,
        included (t, b) = true <->
        start < t + BlockSize (opts s) /\ t < end_
        /\ (IncludeCachedBlocks fopts = true
            \/ WasRetrievedFromDisk b = false)).
Proof.
  intros HF included. subst included. unfold FetchBlocksMetadata in HF.
  destruct (fetchBlocksMetadata_loop_cases (BlockSize (opts s)) start end_
              fopts (AllBlocks (cachedBlocks s)) pooled)
    as [(err & e & Hloop & _)|[_ Hloop]];
    rewrite Hloop in HF; [discriminate|].
  assert (Hperm :
    List.filter (metadataIncluded (BlockSize (opts s)) start end_ fopts)
      (AllBlocks (cachedBlocks s))
    ≡ₚ List.filter (metadataIncluded (BlockSize (opts s)) start end_ fopts)
         (map_to_list (cachedBlocks s)))
    by apply filter_Permutation_bool, AllBlocks_perm.
  assert (Hinc : forall t b,
    metadataIncluded (BlockSize (opts s)) start end_ fopts (t, b) = true <->
    start < t + BlockSize (opts s) /\ t < end_
    /\ (IncludeCachedBlocks fopts = true \/ WasRetrievedFromDisk b = false)).
  { intros t b. unfold metadataIncluded. simpl.
    rewrite !andb_true_iff, orb_true_iff, negb_true_iff, !Z.ltb_lt. tauto. }
  destruct (buffer_IsEmpty (buffer s)) eqn:Hempty; simpl in HF.
  - injection HF as <-. simpl.
    split; [done|]. split; [done|].
    split; [apply (@Sorted_merge_sort _ byStartAscending _ byStartAscending_total)|].
    split; [|exact Hinc].
    exists []. split; [by left|].
    unfold Sort. rewrite merge_sort_Permutation, app_nil_r.
    by rewrite Hperm.
  - destruct (buffer_FetchBlocksMetadata (buffer s) ctx start end_ fopts)
      as [err|fromBuffer] eqn:Hbuf; [discriminate|].
    injection HF as <-. simpl.
    split; [done|]. split; [done|].
    split; [apply (@Sorted_merge_sort _ byStartAscending _ byStartAscending_total)|].
    split; [|exact Hinc].
    exists fromBuffer. split; [by right|].
    unfold Sort. rewrite merge_sort_Permutation, <- app_assoc.
    by rewrite Hperm.
Qed.

(** X19.  When [FetchBlocksMetadata] fails.  If checksums are asked for
    and the checksum of some reported cached block fails, the call fails
    with the checksum error of such a block, whatever the buffer holds.
    Otherwise it fails only with the error of the buffer's own metadata
    call, which is made only for a non-empty buffer.  Without checksums
    and with an empty buffer it cannot fail. *)
Theorem FetchBlocksMetadata_errors
    (pooled : list FetchBlockMetadataResult) (s : dbSeries) (ctx : Ctx)
    (start end_ : Time) (fopts : FetchBlocksMetadataOptions) :
  let included :=
    metadataIncluded (BlockSize (opts s)) start end_ fopts in
  let fails (err : error) : Prop :=
    IncludeChecksums fopts = true
    /\ exists t b, cachedBlocks s !! t = Some b
         /\ included (t, b) = true /\ block_Checksum b = inl err in
  (forall err,
     FetchBlocksMetadata pooled s ctx start end_ fopts = inl err ->
     fails err
     \/ ((forall err', ~ fails err')
         /\ buffer_IsEmpty (buffer s) = false
         /\ buffer_FetchBlocksMetadata (buffer s) ctx start end_ fopts
            = inl err))
  /\ (forall err, fails err ->
      exists err',
        FetchBlocksMetadata pooled s ctx start end_ fopts = inl err'
        /\ fails err')
  /\ ((forall err, ~ fails err) ->
      forall err,
        buffer_IsEmpty (buffer s) = false ->
        buffer_FetchBlocksMetadata (buffer s) ctx start end_ fopts
          = inl err ->
        FetchBlocksMetadata pooled s ctx start end_ fopts = inl err)
  /\ (IncludeChecksums fopts = false ->
      buffer_IsEmpty (buffer s) = true ->
      exists r, FetchBlocksMetadata pooled s ctx start end_ fopts = inr r).
Proof.
  intros included fails. subst included fails.
  unfold FetchBlocksMetadata.
  destruct (fetchBlocksMetadata_loop_cases (BlockSize (opts s)) start end_
              fopts (AllBlocks (cachedBlocks s)) pooled)
    as [(err0 & [t0 b0] & Hloop & Hin & Hinc & Hck & Hsum)|[Hok Hloop]];
    rewrite Hloop.
  - apply elem_of_AllBlocks in Hin. simpl in Hsum.
    assert (Hfails0 :
      IncludeChecksums fopts = true
      /\ exists t b, cachedBlocks s !! t = Some b
           /\ metadataIncluded (BlockSize (opts s)) start end_ fopts (t, b)
              = true
           /\ block_Checksum b = inl err0)
      by (split; [done|]; by exists t0, b0).
    split; [|split; [|split]].
    + intros err Heq. injection Heq as <-. by left.
    + intros err _. by exists err0.
    + intros Hnone. by destruct (Hnone err0).
    + intros Hno. congruence.
  - assert (Hnone : forall err,
      ~ (IncludeChecksums fopts = true
         /\ exists t b, cachedBlocks s !! t = Some b
              /\ metadataIncluded (BlockSize (opts s)) start end_ fopts
                   (t, b) = true
              /\ block_Checksum b = inl err)).
    { intros err (Hck & t & b & Hm & Hinc & Hsum).
      apply elem_of_AllBlocks in Hm.
      specialize (Hok (t, b) Hm Hinc). unfold checksumFails in Hok.
      simpl in Hok. rewrite Hck, Hsum in Hok. discriminate. }
    split; [|split; [|split]].
    + intros err Heq. right. split; [exact Hnone|].
      destruct (buffer_IsEmpty (buffer s)); simpl in Heq; [discriminate|].
      destruct (buffer_FetchBlocksMetadata _ _ _ _ _); [|discriminate].
      injection Heq as <-. done.
    + intros err Hf. by destruct (Hnone err).
    + intros _ err Hempty Hbuf. by rewrite Hempty, Hbuf.
    + intros _ Hempty. rewrite Hempty. simpl. by eexists.
Qed.

End MetadataTheorems.

(** * The further properties at concrete series *)

Import example_metadata.

Lemma Tick_counters_account_for_every_block_witness :
  exists s' evs r err,
    Tick now0
      (mkSeries CacheNone bootstrapped
         [mkBlock (now0 - 60 * hour) true 0;
          mkBlock (now0 - 4 * hour) false 0;
          mkBlock (now0 - 2 * hour) false 0])
      (mkSnapshot true [now0 - 4 * hour]) tt
    = Returned (s', evs, (r, err))
    /\ ActiveBlocks (TickResult_TickStatus r)
       = WiredBlocks (TickResult_TickStatus r)
         + UnwiredBlocks (TickResult_TickStatus r)
    /\ MadeExpiredBlocks r + ActiveBlocks (TickResult_TickStatus r) = 3.
Proof.
  epose proof (Tick_counters_account_for_every_block
    (C := collaborators) (R := mapRange) (B := recBuffer)
    (DB := recDatabaseBuffer) now0
    (mkSeries CacheNone bootstrapped
       [mkBlock (now0 - 60 * hour) true 0;
        mkBlock (now0 - 4 * hour) false 0;
        mkBlock (now0 - 2 * hour) false 0])
    _ (mkSnapshot true [now0 - 4 * hour]) tt _ _ _
    ltac:(vm_compute; reflexivity)) as (_ & _ & _ & Hexact).
  destruct Hexact as [Hsum Htotal]; [by vm_compute|by vm_compute|].
  do 4 eexists. split; [vm_compute; reflexivity|].
  split; [exact Hsum|exact Htotal].
Defined.

Lemma Tick_WiredBlocks_is_NumActiveBlocks_witness :
  exists s' evs r err,
    Tick now0
      (mkSeries CacheNone bootstrapped
         [mkBlock (now0 - 60 * hour) true 0;
          mkBlock (now0 - 4 * hour) false 0;
          mkBlock (now0 - 2 * hour) false 0])
      (mkSnapshot true [now0 - 4 * hour]) tt
    = Returned (s', evs, (r, err))
    /\ WiredBlocks (TickResult_TickStatus r) = NumActiveBlocks s'
    /\ NumActiveBlocks s' = 1.
Proof.
  epose proof (Tick_WiredBlocks_is_NumActiveBlocks
    (C := collaborators) (R := mapRange) (B := recBuffer)
    (DB := recDatabaseBuffer) now0
    (mkSeries CacheNone bootstrapped
       [mkBlock (now0 - 60 * hour) true 0;
        mkBlock (now0 - 4 * hour) false 0;
        mkBlock (now0 - 2 * hour) false 0])
    _ (mkSnapshot true [now0 - 4 * hour]) tt _ _ _
    ltac:(vm_compute; reflexivity)) as Hwired.
  do 4 eexists. split; [vm_compute; reflexivity|].
  split; [exact Hwired|vm_compute; reflexivity].
Defined.

Lemma Tick_AllDatapointsExpired_empties_cache_witness :
  exists s' evs r,
    Tick now0
      (mkSeries CacheLRU bootstrapped
         [mkBlock (now0 - 60 * hour) true 0;
          mkBlock (now0 - 52 * hour) false 0])
      (mkSnapshot true []) tt
    = Returned (s', evs, (r, Some ErrSeriesAllDatapointsExpired))
    /\ cachedBlocks s' = ∅
    /\ MadeExpiredBlocks r = 2.
Proof.
  epose proof (Tick_AllDatapointsExpired_empties_cache
    (C := collaborators) (R := mapRange) (B := recBuffer)
    (DB := recDatabaseBuffer) now0
    (mkSeries CacheLRU bootstrapped
       [mkBlock (now0 - 60 * hour) true 0;
        mkBlock (now0 - 52 * hour) false 0])
    _ (mkSnapshot true []) tt _ _
    ltac:(vm_compute; reflexivity) ltac:(by vm_compute)
    ltac:(by vm_compute)) as (Hempty & _ & _ & _ & Hmade).
  do 3 eexists. split; [vm_compute; reflexivity|].
  split; [exact Hempty|exact Hmade].
Defined.

Lemma expireCutoff_bounds_and_monotone_witness :
  expireCutoff (options CacheLRU true) now0 <= now0 - 48 * hour
  /\ expireCutoff (options CacheLRU true) now0
     <= expireCutoff (options CacheLRU true) (now0 + hour).
Proof.
  destruct (expireCutoff_bounds_and_monotone (options CacheLRU true)
              now0 (now0 + hour)) as (Hle & _ & _ & Hmono);
    [by vm_compute|].
  split; [exact Hle|]. apply Hmono. by vm_compute.
Defined.

Lemma Tick_keeps_unflushed_blocks_within_retention_witness :
  exists s' evs r err,
    Tick now0
      (mkSeries CacheNone bootstrapped [mkBlock (now0 - 4 * hour) false 0])
      (mkSnapshot true []) tt
    = Returned (s', evs, (r, err))
    /\ cachedBlocks s' !! (now0 - 4 * hour)
       = Some (mkBlock (now0 - 4 * hour) false 0).
Proof.
  epose proof (Tick_keeps_unflushed_blocks_within_retention
    (C := collaborators) (R := mapRange) (B := recBuffer)
    (DB := recDatabaseBuffer) now0
    (mkSeries CacheNone bootstrapped [mkBlock (now0 - 4 * hour) false 0])
    _ (mkSnapshot true []) tt _ _ _
    (now0 - 4 * hour) (mkBlock (now0 - 4 * hour) false 0)
    ltac:(vm_compute; reflexivity) ltac:(by vm_compute)
    ltac:(vm_compute; reflexivity) ltac:(by vm_compute)
    ltac:(intros Hin; vm_compute in Hin; inversion Hin)
    ltac:(right; vm_compute; reflexivity)) as [Hkept _].
  do 4 eexists. split; [vm_compute; reflexivity|exact Hkept].
Defined.

Lemma Tick_removes_blocks_past_retention_witness :
  exists s' evs r err,
    Tick now0
      (mkSeries CacheAll bootstrapped [mkBlock (now0 - 60 * hour) false 0])
      (mkSnapshot false []) tt
    = Returned (s', evs, (r, err))
    /\ cachedBlocks s' !! (now0 - 60 * hour) = None.
Proof.
  destruct (Tick_removes_blocks_past_retention now0
    (mkSeries CacheAll bootstrapped [mkBlock (now0 - 60 * hour) false 0])
    (mkSnapshot false []) tt
    (now0 - 60 * hour) (mkBlock (now0 - 60 * hour) false 0))
    as (s' & evs & r & err & HT & Hgone & _).
  - vm_compute. discriminate.
  - by vm_compute.
  - by vm_compute.
  - vm_compute. reflexivity.
  - by vm_compute.
  - exists s', evs, r, err. split; [exact HT|exact Hgone].
Defined.

Lemma Tick_Fatal_iff_witness :
  Tick now0
    (mkSeries CachePolicyOther bootstrapped
       [mkBlock (now0 - 4 * hour) false 0])
    (mkSnapshot true [now0 - 4 * hour]) tt = Fatal
  /\ Tick now0
       (mkSeries CachePolicyOther bootstrapped
          [mkBlock (now0 - 4 * hour) false 0])
       (mkSnapshot true []) tt <> Fatal.
Proof.
  split.
  - apply (Tick_Fatal_iff now0
             (mkSeries CachePolicyOther bootstrapped
                [mkBlock (now0 - 4 * hour) false 0])
             (mkSnapshot true [now0 - 4 * hour]) tt).
    split; [reflexivity|]. split; [reflexivity|].
    exists (now0 - 4 * hour), (mkBlock (now0 - 4 * hour) false 0).
    split; [vm_compute; reflexivity|]. split; [|vm_compute; reflexivity].
    intros [Hlt|Hin]; [by vm_compute in Hlt|].
    vm_compute in Hin. inversion Hin.
  - intros Hfatal.
    apply (Tick_Fatal_iff now0
             (mkSeries CachePolicyOther bootstrapped
                [mkBlock (now0 - 4 * hour) false 0])
             (mkSnapshot true []) tt) in Hfatal
      as (_ & _ & t & b & _ & _ & Hwarm).
    vm_compute in Hwarm. discriminate.
Defined.

Lemma Tick_CacheAll_never_unwires_witness :
  exists s' evs r err,
    Tick now0
      (mkSeries CacheAll bootstrapped [mkBlock (now0 - 4 * hour) false 0])
      (mkSnapshot true [now0 - 4 * hour]) tt
    = Returned (s', evs, (r, err))
    /\ UnwiredBlocks (TickResult_TickStatus r) = 0
    /\ cachedBlocks s' !! (now0 - 4 * hour)
       = Some (mkBlock (now0 - 4 * hour) false 0).
Proof.
  destruct (Tick_CacheAll_never_unwires now0
    (mkSeries CacheAll bootstrapped [mkBlock (now0 - 4 * hour) false 0])
    (mkSnapshot true [now0 - 4 * hour]) tt eq_refl)
    as (s' & evs & r & err & HT & Hunw & _ & _ & _ & Hkept).
  exists s', evs, r, err. split; [exact HT|]. split; [exact Hunw|].
  apply (Hkept (now0 - 4 * hour) (mkBlock (now0 - 4 * hour) false 0)).
  - vm_compute. reflexivity.
  - intros [Hlt|Hin]; [by vm_compute in Hlt|].
    vm_compute in Hin. inversion Hin.
Defined.

Lemma Tick_only_removes_and_closes_what_it_removes_witness :
  exists s' evs r err,
    Tick now0
      (mkSeries CacheLRU bootstrapped
         [mkBlock (now0 - 60 * hour) true 0;
          mkBlock (now0 - 4 * hour) false 0])
      (mkSnapshot true [now0 - 4 * hour]) tt
    = Returned (s', evs, (r, err))
    /\ cachedBlocks s'
       ⊆ cachedBlocks
           (mkSeries CacheLRU bootstrapped
              [mkBlock (now0 - 60 * hour) true 0;
               mkBlock (now0 - 4 * hour) false 0]).
Proof.
  epose proof (Tick_only_removes_and_closes_what_it_removes
    (C := collaborators) (R := mapRange) (B := recBuffer)
    (DB := recDatabaseBuffer) now0
    (mkSeries CacheLRU bootstrapped
       [mkBlock (now0 - 60 * hour) true 0;
        mkBlock (now0 - 4 * hour) false 0])
    _ (mkSnapshot true [now0 - 4 * hour]) tt _ _ _
    ltac:(vm_compute; reflexivity)) as [Hsub _].
  do 4 eexists. split; [vm_compute; reflexivity|exact Hsub].
Defined.

Lemma Tick_again_removes_nothing_witness :
  exists s1 evs1 r1 err1 s2 evs2 r2 err2,
    Tick now0
      (mkSeries CacheNone bootstrapped
         [mkBlock (now0 - 60 * hour) true 0;
          mkBlock (now0 - 4 * hour) false 0;
          mkBlock (now0 - 2 * hour) false 0])
      (mkSnapshot true [now0 - 4 * hour]) tt
    = Returned (s1, evs1, (r1, err1))
    /\ Tick now0 s1 (mkSnapshot true [now0 - 4 * hour]) tt
       = Returned (s2, evs2, (r2, err2))
    /\ cachedBlocks s2 = cachedBlocks s1
    /\ MadeExpiredBlocks r2 = 0.
Proof.
  epose proof (Tick_again_removes_nothing
    (C := collaborators) (R := mapRange) (B := recBuffer)
    (DB := recDatabaseBuffer) now0
    (mkSeries CacheNone bootstrapped
       [mkBlock (now0 - 60 * hour) true 0;
        mkBlock (now0 - 4 * hour) false 0;
        mkBlock (now0 - 2 * hour) false 0])
    _ _ (mkSnapshot true [now0 - 4 * hour]) tt _ _ _ _ _ _
    ltac:(vm_compute; reflexivity) ltac:(vm_compute; reflexivity)
    ltac:(intros t Hin; vm_compute in Hin; inversion Hin))
    as (Hsame & Hmade & _).
  do 8 eexists. split; [vm_compute; reflexivity|].
  split; [vm_compute; reflexivity|]. split; [exact Hsame|exact Hmade].
Defined.

Lemma calls_never_close_disk_retrieved_under_CacheLRU_witness :
  exists s' evs,
    traceCalls exampleCalls
      (mkSeries CacheLRU bootstrapped
         [mkBlock (now0 - 4 * hour) false 0;
          mkBlock (now0 - 30 * hour) true 0])
    = Returned (s', evs)
    /\ BlockClose (now0 - 4 * hour) (mkBlock (now0 - 4 * hour) false 0)
         ∈ evs
    /\ forall t b, BlockClose t b ∈ evs -> WasRetrievedFromDisk b = false.
Proof.
  do 2 eexists. split; [vm_compute; reflexivity|]. split.
  - vm_compute. do 3 right. left.
  - eapply (calls_never_close_disk_retrieved_under_CacheLRU exampleCalls
             (mkSeries CacheLRU bootstrapped
                [mkBlock (now0 - 4 * hour) false 0;
                 mkBlock (now0 - 30 * hour) true 0])).
    + reflexivity.
    + vm_compute. reflexivity.
Defined.

Lemma calls_keep_options_pool_and_identity_witness :
  exists s' evs,
    traceCalls exampleCalls (mkSeries CacheLRU bootstrapped [])
    = Returned (s', evs)
    /\ opts s' = options CacheLRU true
    /\ pool s' = Some 7%nat.
Proof.
  epose proof (calls_keep_options_pool_and_identity
    (C := collaborators) (R := mapRange) (B := recBuffer)
    (DB := recDatabaseBuffer) exampleCalls
    (mkSeries CacheLRU bootstrapped []) _ _
    ltac:(vm_compute; reflexivity)) as (Hopts & Hpool & _).
  do 2 eexists. split; [vm_compute; reflexivity|].
  split; [exact Hopts|exact Hpool].
Defined.

Lemma OnRetrieveBlock_then_evicted_round_trip_witness :
  OnEvictedFromWiredList
    (OnRetrieveBlock now0 (mkBlock 0 false 0)
       (mkSeries CacheLRU bootstrapped [mkBlock now0 false 0])
       "foo"%string tt (now0 - 2 * hour) [1; 2] tt).1
    "foo"%string (now0 - 2 * hour)
  = (mkSeries CacheLRU bootstrapped [mkBlock now0 false 0], []).
Proof.
  apply (OnRetrieveBlock_then_evicted_round_trip now0 (mkBlock 0 false 0)
           (mkSeries CacheLRU bootstrapped [mkBlock now0 false 0])
           "foo"%string tt (now0 - 2 * hour) [1; 2] tt).
  - reflexivity.
  - vm_compute. reflexivity.
Defined.

Lemma retrieved_block_survives_Tick_under_CacheLRU_witness :
  exists b s' evs r err,
    Tick (now0 + hour)
      (OnRetrieveBlock now0 (mkBlock 0 false 0)
         (mkSeries CacheLRU bootstrapped []) "foo"%string tt
         (now0 - 2 * hour) [1; 2] tt).1
      (mkSnapshot true [now0 - 2 * hour]) tt
    = Returned (s', evs, (r, err))
    /\ WasRetrievedFromDisk b = true
    /\ cachedBlocks s' !! (now0 - 2 * hour) = Some b.
Proof.
  destruct (retrieved_block_survives_Tick_under_CacheLRU now0 (now0 + hour)
              (mkBlock 0 false 0) (mkSeries CacheLRU bootstrapped [])
              "foo"%string tt (now0 - 2 * hour) [1; 2] tt
              (mkSnapshot true [now0 - 2 * hour]))
    as (b & s' & evs & r & err & _ & Hdisk & HT & Hkept & _).
  - reflexivity.
  - reflexivity.
  - intros [Hlt|Hin]; [by vm_compute in Hlt|].
    vm_compute in Hin. inversion Hin.
  - exists b, s', evs, r, err.
    split; [exact HT|]. split; [exact Hdisk|exact Hkept].
Defined.

Lemma OnEvictedFromWiredList_noop_after_removal_witness :
  exists s' evs r err,
    Tick now0
      (mkSeries CacheLRU bootstrapped [mkBlock (now0 - 60 * hour) true 0])
      (mkSnapshot true []) tt
    = Returned (s', evs, (r, err))
    /\ OnEvictedFromWiredList s' "foo"%string (now0 - 60 * hour) = (s', []).
Proof.
  destruct (OnEvictedFromWiredList_noop_after_removal now0
              (mkSeries CacheLRU bootstrapped
                 [mkBlock (now0 - 60 * hour) true 0])
              (mkSnapshot true []) tt "foo"%string
              (now0 - 60 * hour) (mkBlock (now0 - 60 * hour) true 0))
    as [Htick _].
  destruct Htick as (s' & evs & r & err & HT & _ & _ & Hnoop).
  - reflexivity.
  - vm_compute. reflexivity.
  - reflexivity.
  - left. by vm_compute.
  - exists s', evs, r, err. split; [exact HT|exact Hnoop].
Defined.

Lemma bootstrap_moves_every_block_to_the_buffer_witness :
  exists s' evs,
    bootstrap (mkSeries CacheLRU bootstrapNotStarted [])
      (Some {[ now0 := mkBlock now0 false 0;
               now0 - 2 * hour := mkBlock (now0 - 2 * hour) false 0 ]})
      (mkBootstrappedBlockStateSnapshot ∅)
    = (s', evs, ({| NumBlocksMovedToBuffer := 2 |}, None))
    /\ length evs = 2%nat.
Proof.
  destruct (bootstrap_moves_every_block_to_the_buffer
              (mkSeries CacheLRU bootstrapNotStarted [])
              {[ now0 := mkBlock now0 false 0;
                 now0 - 2 * hour := mkBlock (now0 - 2 * hour) false 0 ]}
              (mkBootstrappedBlockStateSnapshot ∅) eq_refl)
    as (buf & evs & Hboot & Hlen & _).
  do 2 eexists. split; [rewrite Hboot; reflexivity|].
  rewrite Hlen. vm_compute. reflexivity.
Defined.

Lemma Load_panics_on_nil_and_keeps_the_cache_witness :
  Load {| Bootstrap := false |}
    (mkSeries CacheLRU bootstrapped [mkBlock now0 false 0]) None
    (mkBootstrappedBlockStateSnapshot ∅) = Panic
  /\ exists s' evs r err,
       Load {| Bootstrap := true |}
         (mkSeries CacheLRU bootstrapNotStarted [mkBlock now0 false 0]) None
         (mkBootstrappedBlockStateSnapshot ∅)
       = Returned (s', evs, (r, err))
       /\ cachedBlocks s'
          = cachedBlocks
              (mkSeries CacheLRU bootstrapNotStarted [mkBlock now0 false 0]).
Proof.
  split.
  - apply (Load_panics_on_nil_and_keeps_the_cache {| Bootstrap := false |}
             (mkSeries CacheLRU bootstrapped [mkBlock now0 false 0]) None
             (mkBootstrappedBlockStateSnapshot ∅)).
    split; reflexivity.
  - destruct (Load_panics_on_nil_and_keeps_the_cache {| Bootstrap := true |}
                (mkSeries CacheLRU bootstrapNotStarted
                   [mkBlock now0 false 0])
                None (mkBootstrappedBlockStateSnapshot ∅))
      as (_ & _ & Hframe).
    do 4 eexists. split; [vm_compute; reflexivity|].
    refine (proj1 (Hframe _ _ _ _ _)). vm_compute. reflexivity.
Defined.

Lemma FetchBlocksMetadata_reports_the_overlapping_blocks_witness :
  exists r,
    FetchBlocksMetadata [] metadataSeries tt (now0 - 10 * hour) now0
      (metadataOptions false true) = inr r
    /\ result_Blocks r
       = [{| Start := now0 - 4 * hour; Size := now0 - 4 * hour;
             Checksum := Some 7; LastRead := Time_zero |}]
    /\ Sorted byStartAscending (result_Blocks r).
Proof.
  eexists. split; [vm_compute; reflexivity|]. split; [reflexivity|].
  eapply (FetchBlocksMetadata_reports_the_overlapping_blocks []
            metadataSeries tt (now0 - 10 * hour) now0
            (metadataOptions false true)).
  vm_compute. reflexivity.
Defined.

Lemma FetchBlocksMetadata_errors_witness :
  (exists err,
     FetchBlocksMetadata []
       (mkSeries CacheLRU bootstrapped
          [failingBlock])
       tt (now0 - 10 * hour) now0 (metadataOptions true true) = inl err)
  /\ exists r,
       FetchBlocksMetadata [] metadataSeries tt (now0 - 10 * hour) now0
         (metadataOptions true false) = inr r.
Proof.
  split.
  - destruct (FetchBlocksMetadata_errors []
       (mkSeries CacheLRU bootstrapped
          [failingBlock])
       tt (now0 - 10 * hour) now0 (metadataOptions true true))
      as (_ & Hfail & _).
    destruct (Hfail (errFromBuffer (C := collaborators) "checksum"%string))
      as (err & Herr & _).
    + split; [reflexivity|]. exists (now0 - 2 * hour), failingBlock.
      split; [vm_compute; reflexivity|].
      split; vm_compute; reflexivity.
    + exists err. exact Herr.
  - destruct (FetchBlocksMetadata_errors [] metadataSeries tt
                (now0 - 10 * hour) now0 (metadataOptions true false))
      as (_ & _ & _ & Hok).
    apply Hok; reflexivity.
Defined.
